(** * data_utils: vocabularies, token ids and the dialogue reformatter

    A shallow embedding of [data_utils.py] and the properties of its
    vocabulary builder, vocabulary loader, sentence encoder and dialogue
    reformatter.

    Conventions of the embedding:
    - a Python [bytes] value and the characters of a text-mode [str] are
      lists of 8-bit characters ([list ascii]); file paths are [string]s;
    - Python integers are [Z] where they come from the caller
      ([max_vocabulary_size], token ids) and [nat] where the code only ever
      counts upwards from zero (frequencies, [total_line], line counters);
    - the counting dictionary of [create_vocabulary] is an association list
      in insertion order (the iteration order of a Python dict), the
      dictionary returned by [initialize_vocabulary] is a [gmap];
    - the file system is a finite map from paths to contents, threaded
      through a state-and-exception monad together with a trace of the
      file-system calls made;
    - a file read through [gfile.GFile] is read as the library reads it,
      without its carriage returns; a file read through [open(path, 'r')]
      holds decoded text after the translation of line ends;
    - progress messages printed to standard output are left out. *)

From Stdlib Require Import ZArith Ascii String DecimalString.
From stdpp Require Import base option list sorting strings gmap.

Open Scope Z_scope.
Open Scope nat_scope.
Open Scope list_scope.

(** ** Byte strings *)

Abbreviation bytes := (list ascii).

(** [b "text"] is the byte string with the characters of the literal. *)
Definition b (s : string) : bytes := list_ascii_of_string s.

Definition NL : ascii := "010"%char.
Definition TAB : ascii := "009"%char.
Definition CR : ascii := "013"%char.
Definition SP : ascii := " "%char.

Module Py.

(** The bytes that [bytes.strip()] and [bytes.split()] treat as white
    space: space, tab, line feed, carriage return, vertical tab, form
    feed. *)
Definition is_whitespace (c : ascii) : bool :=
  match c with
  | " " | "009" | "010" | "013" | "011" | "012" => true
  | _ => false
  end%char.

(** [s[:-1]] *)
Definition chop (s : bytes) : bytes := take (length s - 1) s.

(** [s.lstrip()], [s.rstrip()], [s.strip()] *)
Fixpoint lstrip (s : bytes) : bytes :=
  match s with
  | [] => []
  | c :: rest => if is_whitespace c then lstrip rest else s
  end.

Fixpoint rstrip (s : bytes) : bytes :=
  match s with
  | [] => []
  | c :: rest =>
      match rstrip rest with
      | [] => if is_whitespace c then [] else [c]
      | r => c :: r
      end
  end.

Definition strip (s : bytes) : bytes := rstrip (lstrip s).

(** [s.split()]: the maximal runs of non-white-space bytes. [cur] is the
    run being read. *)
Definition flush (cur : bytes) : list bytes :=
  match cur with [] => [] | _ => [cur] end.

Fixpoint split_go (cur s : bytes) : list bytes :=
  match s with
  | [] => flush cur
  | c :: rest =>
      if is_whitespace c then flush cur ++ split_go [] rest
      else split_go (cur ++ [c]) rest
  end.

Definition split (s : bytes) : list bytes := split_go [] s.

(** [s.split(sep)] for a one-character separator: never an empty list,
    fields may be empty. *)
Fixpoint split_on (sep : ascii) (s : bytes) : list bytes :=
  match s with
  | [] => [[]]
  | c :: rest =>
      if decide (c = sep) then [] :: split_on sep rest
      else match split_on sep rest with
           | f :: fs => (c :: f) :: fs
           | [] => [[c]]
           end
  end.

(** Iterating over a file, [f.readlines()]: the lines of a content, each
    with its line feed; a last line without one is kept as it is. *)
Fixpoint readlines (s : bytes) : list bytes :=
  match s with
  | [] => []
  | c :: rest =>
      if decide (c = NL) then [NL] :: readlines rest
      else match readlines rest with
           | l :: ls => (c :: l) :: ls
           | [] => [[c]]
           end
  end.

(** [sep.join(l)] *)
Fixpoint join (sep : bytes) (l : list bytes) : bytes :=
  match l with
  | [] => []
  | [x] => x
  | x :: rest => x ++ sep ++ join sep rest
  end.

(** [l[:stop]] for a Python integer [stop]: a negative bound counts from
    the end. *)
Definition slice_to {A} (l : list A) (stop : Z) : list A :=
  if (stop <? 0)%Z then take (Z.to_nat (Z.of_nat (length l) + stop)) l
  else take (Z.to_nat stop) l.

(** [str(n)] for a Python integer. *)
Definition str (n : Z) : bytes :=
  list_ascii_of_string (NilZero.string_of_int (Z.to_int n)).

(** [sorted(l, key=key, reverse=True)]: a stable sort by descending key,
    elements with equal keys keep the order they have in [l]. *)
Fixpoint insert_desc {A} (key : A → nat) (x : A) (l : list A) : list A :=
  match l with
  | [] => [x]
  | y :: l' =>
      if decide (key y ≤ key x) then x :: l
      else y :: insert_desc key x l'
  end.

Definition sorted_reverse {A} (key : A → nat) (l : list A) : list A :=
  foldr (insert_desc key) [] l.

End Py.

(** ** Exceptions, state and the file system *)

Inductive exn : Type :=
  | IndexError
  | ValueError (msg : string) (arg : string)
  | NotFoundError (path : string)
  | FileNotFoundError (path : string).

(** A computation over a state [S] that returns an [A] or raises; the
    state reached is kept in both cases. *)
Definition M (S A : Type) : Type := S → (exn + A) * S.

Definition ret {S A} (a : A) : M S A := λ s, (inr a, s).
Definition raise {S A} (e : exn) : M S A := λ s, (inl e, s).
Definition bind {S A B} (c : M S A) (k : A → M S B) : M S B :=
  λ s, match c s with
       | (inr a, s') => k a s'
       | (inl e, s') => (inl e, s')
       end.
Definition gets {S A} (f : S → A) : M S A := λ s, (inr (f s), s).
Definition modify {S} (f : S → S) : M S unit := λ s, (inr tt, f s).

Notation "x <- c ;; k" := (bind c (λ x, k))
  (at level 100, c at next level, right associativity).
Notation "c ;; k" := (bind c (λ _, k))
  (at level 100, right associativity).

(** [l[i]]: raises [IndexError] out of range. *)
Definition getitem {S A} (l : list A) (i : nat) : M S A :=
  match l !! i with
  | Some x => ret x
  | None => raise IndexError
  end.

(** ** Module constants *)

Definition _PAD : bytes := b "_PAD".
Definition _GO : bytes := b "_GO".
Definition _EOS : bytes := b "_EOS".
Definition _UNK : bytes := b "_UNK".
Definition _START_VOCAB : list bytes := [_PAD; _GO; _EOS; _UNK].

Definition PAD_ID : Z := 0.
Definition GO_ID : Z := 1.
Definition EOS_ID : Z := 2.
Definition UNK_ID : Z := 3.

(** The character class of [_WORD_SPLIT]: full stop, comma, exclamation
    and question mark, double and single quote, colon, semicolon and the
    two round brackets. *)
Definition is_word_split (c : ascii) : bool :=
  match c with
  | "." | "," | "!" | "?" | "034" | "'" | ":" | ";" | ")" | "(" => true
  | _ => false
  end%char.

(** [_WORD_SPLIT.split(s)]: the pattern is one capturing group, so the
    result alternates the text between two marks and the marks
    themselves; the text may be empty. *)
Fixpoint _WORD_SPLIT_split (s : bytes) : list bytes :=
  match s with
  | [] => [[]]
  | c :: rest =>
      if is_word_split c then [] :: [c] :: _WORD_SPLIT_split rest
      else match _WORD_SPLIT_split rest with
           | f :: fs => (c :: f) :: fs
           | [] => [[c]]
           end
  end.

(** The class [\d] of the bytes pattern [_DIGIT_RE]. *)
Definition is_digit (c : ascii) : bool :=
  match c with
  | "0" | "1" | "2" | "3" | "4" | "5" | "6" | "7" | "8" | "9" => true
  | _ => false
  end%char.

(** [_DIGIT_RE.sub(b"0", w)] *)
Definition _DIGIT_RE_sub0 (w : bytes) : bytes :=
  fmap (λ c, if is_digit c then "0"%char else c) w.

(** ** Tokenizer *)

Definition nonempty (w : bytes) : bool :=
  match w with [] => false | _ => true end.

Definition basic_tokenizer (sentence : bytes) : list bytes :=
  let words :=
    foldl (λ words space_separated_fragment,
             words ++ _WORD_SPLIT_split space_separated_fragment)
          [] (Py.split (Py.strip sentence)) in
  filter (λ w, nonempty w = true) words.



(** ** The file system *)

Inductive event : Type :=
  | EvExists (path : string)
  | EvRead (path : string)
  | EvWrite (path : string)
  | EvRemove (path : string)
  | EvGlob (pattern : string).

(** The files, by path, and the file-system calls made so far, oldest
    first. *)
Record world : Type := World {
  files : gmap string bytes;
  trace : list event
}.

Definition log (e : event) : M world unit :=
  modify (λ w, World (files w) (trace w ++ [e])).

Module FS.

(** [gfile.Exists(path)], [os.path.exists(path)] *)
Definition path_exists (path : string) : M world bool :=
  log (EvExists path) ;;
  gets (λ w, bool_decide (is_Some (files w !! path))).

(** Reading a whole file; [missing] is the exception of the library at
    hand for a file that is not there. *)
Definition read (missing : string → exn) (path : string) : M world bytes :=
  log (EvRead path) ;;
  c <- gets (λ w, files w !! path) ;;
  match c with
  | Some content => ret content
  | None => raise (missing path)
  end.

(** The file [path] now holds [content]. *)
Definition write (path : string) (content : bytes) : M world unit :=
  log (EvWrite path) ;;
  modify (λ w, World (<[path := content]> (files w)) (trace w)).

(** [os.remove(path)] *)
Definition remove (path : string) : M world unit :=
  log (EvRemove path) ;;
  c <- gets (λ w, files w !! path) ;;
  match c with
  | Some _ => modify (λ w, World (delete path (files w)) (trace w))
  | None => raise (FileNotFoundError path)
  end.

(** What the line reader of [gfile.GFile] makes of the bytes of a file:
    it drops every carriage return, wherever it stands. *)
Definition gfile_text (content : bytes) : bytes :=
  filter (λ c, c ≠ CR) content.

(** [for line in gfile.GFile(path, mode="rb")], [f.readlines()]: the
    lines of the text left once the carriage returns are dropped, each
    with its line feed. A last line without a line feed is given when
    something is left of it, so an end of file made of carriage returns
    gives no line. *)
Definition gfile_lines (path : string) : M world (list bytes) :=
  content <- read NotFoundError path ;;
  ret (Py.readlines (gfile_text content)).

(** [with gfile.GFile(path, mode="w") as f: f.write(c)] for each [c] of
    [chunks] in turn. The library creates the file at the first call of
    [write]: with no chunk the file system is left as it is. *)
Definition gfile_write (path : string) (chunks : list bytes) : M world unit :=
  match chunks with
  | [] => ret tt
  | _ => write path (concat chunks)
  end.

End FS.

(** ** Vocabulary builder *)

(** [if word in vocab: vocab[word] += 1 else: vocab[word] = 1] on a
    dictionary in insertion order. *)
Fixpoint vocab_count (word : bytes) (vocab : list (bytes * nat))
  : list (bytes * nat) :=
  match vocab with
  | [] => [(word, 1)]
  | (k, n) :: rest =>
      if decide (k = word) then (k, n + 1) :: rest
      else (k, n) :: vocab_count word rest
  end.

Definition tokenize (tokenizer : option (bytes → list bytes)) (line : bytes)
  : list bytes :=
  match tokenizer with
  | Some tok => tok line
  | None => basic_tokenizer line
  end.

Definition normalize (normalize_digits : bool) (w : bytes) : bytes :=
  if normalize_digits then _DIGIT_RE_sub0 w else w.

(** The two nested loops of [create_vocabulary] over the lines of the data
    file and the tokens of each line. *)
Definition count_line (tokenizer : option (bytes → list bytes))
    (normalize_digits : bool) (vocab : list (bytes * nat)) (line : bytes)
  : list (bytes * nat) :=
  foldl (λ vocab w, vocab_count (normalize normalize_digits w) vocab)
        vocab (tokenize tokenizer line).

Definition count_lines (tokenizer : option (bytes → list bytes))
    (normalize_digits : bool) (lines : list bytes) : list (bytes * nat) :=
  foldl (count_line tokenizer normalize_digits) [] lines.

(** [_START_VOCAB + sorted(vocab, key=vocab.get, reverse=True)], cut to
    [max_vocabulary_size] entries when longer. *)
Definition vocab_list_of (vocab : list (bytes * nat)) (max_vocabulary_size : Z)
  : list bytes :=
  let vocab_list := _START_VOCAB ++ (Py.sorted_reverse snd vocab).*1 in
  if (Z.of_nat (length vocab_list) >? max_vocabulary_size)%Z
  then Py.slice_to vocab_list max_vocabulary_size
  else vocab_list.

Definition create_vocabulary (vocabulary_path data_path : string)
    (max_vocabulary_size : Z) (tokenizer : option (bytes → list bytes))
    (normalize_digits : bool) : M world unit :=
  e <- FS.path_exists vocabulary_path ;;
  if negb e then
    lines <- FS.gfile_lines data_path ;;
    let vocab := count_lines tokenizer normalize_digits lines in
    let vocab_list := vocab_list_of vocab max_vocabulary_size in
    FS.gfile_write vocabulary_path (fmap (λ w, w ++ [NL]) vocab_list)
  else ret tt.

(** ** Vocabulary loader *)

(** [enumerate(l)] *)
Definition enumerate {A} (l : list A) : list (Z * A) :=
  imap (λ i x, (Z.of_nat i, x)) l.

(** [dict(pairs)]: a later pair replaces an earlier one with the same
    key. *)
Definition dict (pairs : list (bytes * Z)) : gmap bytes Z :=
  foldl (λ m p, <[p.1 := p.2]> m) ∅ pairs.

Definition initialize_vocabulary (vocabulary_path : string)
  : M world (gmap bytes Z * list bytes) :=
  e <- FS.path_exists vocabulary_path ;;
  if e then
    rev_vocab <- FS.gfile_lines vocabulary_path ;;
    let rev_vocab := fmap Py.strip rev_vocab in
    let vocab := dict (fmap (λ p, (p.2, p.1)) (enumerate rev_vocab)) in
    ret (vocab, rev_vocab)
  else raise (ValueError "Vocabulary file %s not found." vocabulary_path).

(** ** Sentence encoder and corpus tokenizer *)

Definition sentence_to_token_ids (sentence : bytes) (vocabulary : gmap bytes Z)
    (tokenizer : option (bytes → list bytes)) (normalize_digits : bool)
  : list Z :=
  let words :=
    match tokenizer with
    | Some tok => tok sentence
    | None => basic_tokenizer sentence
    end in
  if negb normalize_digits
  then fmap (λ w, default UNK_ID (vocabulary !! w)) words
  else fmap (λ w, default UNK_ID (vocabulary !! _DIGIT_RE_sub0 w)) words.

Definition data_to_token_ids (data_path target_path vocabulary_path : string)
    (tokenizer : option (bytes → list bytes)) (normalize_digits : bool)
  : M world unit :=
  e <- FS.path_exists target_path ;;
  if negb e then
    p <- initialize_vocabulary vocabulary_path ;;
    let vocab := p.1 in
    lines <- FS.gfile_lines data_path ;;
    FS.gfile_write target_path
      (fmap (λ line,
              let token_ids :=
                sentence_to_token_ids line vocab tokenizer normalize_digits in
              Py.join [SP] (fmap Py.str token_ids) ++ [NL])
           lines)
  else ret tt.


(** ** Dialogue reformatter *)

(** Running a computation that has a local variable of type [T] next to
    the state [S]. *)
Definition with_local {S T A} (init : T) (c : M (S * T) A) : M S (A * T) :=
  λ s, match c (s, init) with
       | (inr a, (s', t)) => (inr (a, t), s')
       | (inl e, (s', _)) => (inl e, s')
       end.

(** The same when something is to be done with the local variable as it
    is when [c] raises: [on_error] is run and the exception goes on. *)
Definition with_local_or {S T A} (init : T) (c : M (S * T) A)
    (on_error : T → M S unit) : M S (A * T) :=
  λ s, match c (s, init) with
       | (inr a, (s', t)) => (inr (a, t), s')
       | (inl e, (s', t)) => (inl e, (on_error t s').2)
       end.

Definition outer {S T A} (c : M S A) : M (S * T) A :=
  λ st, match c st.1 with (r, s') => (r, (s', st.2)) end.

Definition inner {S T A} (c : M T A) : M (S * T) A :=
  λ st, match c st.2 with (r, t') => (r, (st.1, t')) end.

Fixpoint for_each {S A} (l : list A) (body : A → M S unit) : M S unit :=
  match l with
  | [] => ret tt
  | x :: rest => body x ;; for_each rest body
  end.

(** The variables of [create_my_dataset] that live across the loop over
    the dialogue files: the text written so far through the two handles
    [enc_file] and [dec_file] on the temporary files, [str_buffer] and
    [total_line]. *)
Record loop_state : Type := LoopState {
  enc_file : bytes;
  dec_file : bytes;
  str_buffer : bytes;
  total_line : nat
}.

Definition loop_init : loop_state := LoopState [] [] [] 0.

(** [enc_dec_files[file_to_write].write(s)] *)
Definition write (file_to_write : nat) (s : bytes) : M loop_state unit :=
  match file_to_write with
  | 0 => modify (λ st, LoopState (enc_file st ++ s) (dec_file st)
                                 (str_buffer st) (total_line st))
  | 1 => modify (λ st, LoopState (enc_file st) (dec_file st ++ s)
                                 (str_buffer st) (total_line st))
  | _ => raise IndexError
  end.

Definition set_str_buffer (s : bytes) : M loop_state unit :=
  modify (λ st, LoopState (enc_file st) (dec_file st) s (total_line st)).

Definition incr_total_line : M loop_state unit :=
  modify (λ st, LoopState (enc_file st) (dec_file st) (str_buffer st)
                          (total_line st + 1)).

(** The loop [while not both_found] over the rows that follow the first
    one. [tsv_file] holds the lines not read yet; at the end of the file
    [readline()] gives the empty string, whose split has one field. The
    result is [file_to_write], [last_person] and the lines left. *)
Fixpoint first_turn (row : nat) (last_person : bytes) (tsv_file : list bytes)
  : M loop_state (nat * bytes * list bytes) :=
  match tsv_file with
  | [] => ret (0, last_person, [])
  | l :: tsv_file =>
      let line := Py.split_on TAB (Py.chop l) in
      if decide (length line < 3) then ret (0, last_person, tsv_file)
      else
        person <- getitem line 1 ;;
        if decide (person ≠ last_person) then
          write 0 [NL] ;;
          msg <- getitem line 3 ;;
          write 1 msg ;;
          incr_total_line ;;
          ret (1, person, tsv_file)
        else
          msg <- getitem line row ;;
          write 0 (SP :: msg) ;;
          first_turn row last_person tsv_file
  end.

(** The loop [for line in tsv_file] over the lines left. The result is
    [file_to_write] at the end of the file. *)
Fixpoint main_scan (file_to_write : nat) (last_person : bytes)
    (tsv_file : list bytes) : M loop_state nat :=
  match tsv_file with
  | [] => ret file_to_write
  | line :: tsv_file =>
      let line_split := Py.split_on TAB (Py.chop line) in
      if decide (3 < length line_split) then
        person <- getitem line_split 1 ;;
        if decide (person ≠ last_person) then
          let file_to_write := (file_to_write + 1) `mod` 2 in
          if decide (file_to_write = 0) then
            write 1 [NL] ;;
            msg <- getitem line_split 3 ;;
            set_str_buffer msg ;;
            main_scan file_to_write person tsv_file
          else
            buf <- gets str_buffer ;;
            set_str_buffer (buf ++ [NL]) ;;
            buf <- gets str_buffer ;;
            write 0 buf ;;
            msg <- getitem line_split 3 ;;
            write 1 msg ;;
            incr_total_line ;;
            main_scan file_to_write person tsv_file
        else
          if decide (file_to_write = 1) then
            msg <- getitem line_split 3 ;;
            write 1 (SP :: msg) ;;
            main_scan file_to_write last_person tsv_file
          else
            msg <- getitem line_split 3 ;;
            buf <- gets str_buffer ;;
            set_str_buffer (buf ++ SP :: msg) ;;
            main_scan file_to_write last_person tsv_file
      else main_scan file_to_write last_person tsv_file
  end.

(** The column of the message text, from the split of the first row. *)
Definition row_of (first_line_split : list bytes) : nat :=
  if decide (length first_line_split = 3) then 2 else 3.

(** The last statement of the body: [if file_to_write == 1:
    enc_dec_files[1].write('\n')]. *)
Definition finish_file (file_to_write : nat) : M loop_state unit :=
  if decide (file_to_write = 1) then write 1 [NL] else ret tt.

(** The body of the loop [for tsv in files] on the lines of one file. *)
Definition parse_tsv (tsv_file : list bytes) : M loop_state unit :=
  let file_to_write := 0 in
  let first_line := Py.chop (hd [] tsv_file) in
  let tsv_file := tl tsv_file in
  let first_line_split := Py.split_on TAB first_line in
  last_person <- getitem first_line_split 1 ;;
  let row := row_of first_line_split in
  msg <- getitem first_line_split row ;;
  write file_to_write msg ;;
  r <- first_turn row last_person tsv_file ;;
  let '(file_to_write, last_person, tsv_file) := r in
  file_to_write <- main_scan file_to_write last_person tsv_file ;;
  finish_file file_to_write.

(** Copying the lines of a temporary file: the first [split] lines go to
    the training file, the others to the test file. The result is the
    text written to each. *)
Fixpoint split_lines (split count : nat) (lines : list bytes)
  : bytes * bytes :=
  match lines with
  | [] => ([], [])
  | line :: lines =>
      let '(train, test) := split_lines split (count + 1) lines in
      if decide (count < split) then (line ++ train, test)
      else (train, line ++ test)
  end.

Section Reformatter.

(** [glob.glob(pattern)] on the files at hand: the paths that match, in
    the order the operating system lists them. *)
Variable glob : gmap string bytes → string → list string.

Definition glob_glob (pattern : string) : M world (list string) :=
  log (EvGlob pattern) ;;
  gets (λ w, glob (files w) pattern).

(** [for line in open(path, 'r')]: the content is the text after the
    translation of line ends. *)
Definition open_lines (path : string) : M world (list bytes) :=
  content <- FS.read FileNotFoundError path ;;
  ret (Py.readlines content).

(** The loop of [rm_one_way_conv] over the lines of one file, on the
    list [persons]. *)
Definition collect_person (line : bytes) : M (list bytes) unit :=
  let line_split := Py.split_on TAB line in
  person <- getitem line_split 1 ;;
  persons <- gets id ;;
  if decide (person ∉ persons) then modify (λ persons, persons ++ [person])
  else ret tt.

Definition rm_one_way_conv (dialogs_path : string) : M world unit :=
  e <- FS.path_exists (dialogs_path +:+ "/.one_way_conv_removed") ;;
  if negb e then
    files <- glob_glob (dialogs_path +:+ "/**/*.tsv") ;;
    for_each files (λ tsv,
      lines <- open_lines tsv ;;
      r <- with_local [] (inner (for_each lines collect_person)) ;;
      let persons := r.2 in
      if decide (length persons < 2) then FS.remove tsv else ret tt) ;;
    FS.write (dialogs_path +:+ "/.one_way_conv_removed") []
  else ret tt.

(** The loop [for tsv in files] of [create_my_dataset]. *)
Definition parse_files (files : list string) : M (world * loop_state) unit :=
  for_each files (λ tsv,
    tsv_file <- outer (open_lines tsv) ;;
    inner (parse_tsv tsv_file)).

(** [int(total_line*(3/4))]: the product with the float 0.75 is exact
    for every count below 2^51, and [int] drops the fraction. *)
Definition split_of (total_line : nat) : nat := total_line * 3 / 4.

(** The two temporary files are opened before the loop and read back
    after it through the same handles; the text they hold is stored in
    the file system when the loop is over. When the loop raises, the
    text written so far is what the temporary files are left with. The
    four output paths, the two temporary paths and the dialogue files
    are taken to be different files. *)
Definition create_my_dataset
    (dialogs_path train_enc train_dec test_enc test_dec : string)
  : M world unit :=
  e <- FS.path_exists train_enc ;;
  e <- (if e then FS.path_exists train_dec else ret false) ;;
  if e then ret tt
  else
    rm_one_way_conv dialogs_path ;;
    files <- glob_glob (dialogs_path +:+ "/**/*.tsv") ;;
    FS.write (train_enc +:+ ".tmp") [] ;;
    FS.write (train_dec +:+ ".tmp") [] ;;
    r <- with_local_or loop_init (parse_files files)
           (λ st, FS.write (train_enc +:+ ".tmp") (enc_file st) ;;
                  FS.write (train_dec +:+ ".tmp") (dec_file st)) ;;
    let st := r.2 in
    FS.write (train_enc +:+ ".tmp") (enc_file st) ;;
    FS.write (train_dec +:+ ".tmp") (dec_file st) ;;
    let split := split_of (total_line st) in
    let '(train, test) := split_lines split 0 (Py.readlines (enc_file st)) in
    FS.write train_enc train ;;
    FS.write test_enc test ;;
    let '(train, test) := split_lines split 0 (Py.readlines (dec_file st)) in
    FS.write train_dec train ;;
    FS.write test_dec test ;;
    FS.remove (train_enc +:+ ".tmp") ;;
    FS.remove (train_dec +:+ ".tmp").

End Reformatter.


(** ** The generation steps as one family *)

Inductive generation_step : Type :=
  | CreateVocabulary (vocabulary_path data_path : string)
      (max_vocabulary_size : Z) (tokenizer : option (bytes → list bytes))
      (normalize_digits : bool)
  | DataToTokenIds (data_path target_path vocabulary_path : string)
      (tokenizer : option (bytes → list bytes)) (normalize_digits : bool)
  | CreateMyDataset
      (dialogs_path train_enc train_dec test_enc test_dec : string).

Definition run_step (glob : gmap string bytes → string → list string)
    (step : generation_step) : M world unit :=
  match step with
  | CreateVocabulary vocabulary_path data_path max_vocabulary_size
      tokenizer normalize_digits =>
      create_vocabulary vocabulary_path data_path max_vocabulary_size
        tokenizer normalize_digits
  | DataToTokenIds data_path target_path vocabulary_path tokenizer
      normalize_digits =>
      data_to_token_ids data_path target_path vocabulary_path tokenizer
        normalize_digits
  | CreateMyDataset dialogs_path train_enc train_dec test_enc test_dec =>
      create_my_dataset glob dialogs_path train_enc train_dec test_enc test_dec
  end.

(** The files a step is there to produce. *)
Definition outputs (step : generation_step) : list string :=
  match step with
  | CreateVocabulary vocabulary_path _ _ _ _ => [vocabulary_path]
  | DataToTokenIds _ target_path _ _ _ => [target_path]
  | CreateMyDataset _ train_enc train_dec test_enc test_dec =>
      [train_enc; train_dec; test_enc; test_dec]
  end.

(** ** Notions used in the statements *)

(** The normalized tokens of a corpus, in the order [create_vocabulary]
    meets them. *)
Definition corpus_tokens (tokenizer : option (bytes → list bytes))
    (normalize_digits : bool) (corpus : bytes) : list bytes :=
  Py.readlines corpus ≫=
    λ line, fmap (normalize normalize_digits) (tokenize tokenizer line).

(** The number of distinct elements of a list. *)
Definition distinct (l : list bytes) : nat :=
  size (list_to_set l : gset bytes).

(** How often [t] occurs in [l], and the position of its first
    occurrence ([length l] when there is none). *)
Definition occurrences (t : bytes) (l : list bytes) : nat :=
  length (filter (λ x, x = t) l).

Fixpoint first_index (t : bytes) (l : list bytes) : nat :=
  match l with
  | [] => 0
  | x :: l => if decide (x = t) then 0 else S (first_index t l)
  end.

(** [ranks_before l t u]: [t] comes before [u] in a vocabulary built from
    the tokens [l], by frequency first and by first occurrence among
    tokens of equal frequency. *)
Definition ranks_before (l : list bytes) (t u : bytes) : Prop :=
  occurrences u l < occurrences t l ∨
  (occurrences t l = occurrences u l ∧ first_index t l < first_index u l).

(** A tokenizer whose tokens hold no white space, as the tokens of
    [basic_tokenizer] do: such a token is written on a line of its own and
    read back unchanged. *)
Definition no_whitespace (w : bytes) : Prop :=
  Forall (λ c, Py.is_whitespace c = false) w.

Definition tokenizer_ok (tokenizer : option (bytes → list bytes)) : Prop :=
  match tokenizer with
  | None => True
  | Some tok => ∀ line w, w ∈ tok line → no_whitespace w
  end.

(** The lines of the file at [path], without their line feed, are
    [tokens]. *)
Definition holds_lines (w : world) (path : string) (tokens : list bytes)
  : Prop :=
  ∃ content, files w !! path = Some content ∧
             Py.readlines content = fmap (λ t, t ++ [NL]) tokens.

(** The file at [path] begins with the four reserved symbols, one per
    line. *)
Definition starts_with_reserved (w : world) (path : string) : Prop :=
  ∃ content, files w !! path = Some content ∧
             take 4 (Py.readlines content) = fmap (λ t, t ++ [NL]) _START_VOCAB.

(** The counting loop of [create_vocabulary] on the tokens of the whole
    corpus, and the distinct tokens in the order of their first
    occurrence. *)
Definition count_tokens (l : list bytes) : list (bytes * nat) :=
  foldl (λ vocab w, vocab_count w vocab) [] l.

Definition firsts (l : list bytes) : list bytes :=
  foldl (λ acc x, if decide (x ∈ acc) then acc else acc ++ [x]) [] l.

(** The counted tokens in the order [create_vocabulary] writes them. *)
Definition ranked (l : list bytes) : list bytes :=
  (Py.sorted_reverse snd (count_tokens l)).*1.

(** The tokens that [create_vocabulary] writes for a corpus with the
    tokens [l]. *)
Definition written (l : list bytes) (max_vocabulary_size : Z) : list bytes :=
  take (Z.to_nat max_vocabulary_size) (_START_VOCAB ++ ranked l).

(** The order of the keys of the sort: a larger key first, and the
    position [pos] among equal keys. *)
Definition sorted_before {A} (key pos : A → nat) (x y : A) : Prop :=
  key y < key x ∨ (key x = key y ∧ pos x < pos y).

(** The dictionary that [initialize_vocabulary] builds from the list of
    the stripped lines. *)
Definition vocab_of (l : list bytes) : gmap bytes Z :=
  dict (fmap (λ p, (p.2, p.1)) (enumerate l)).

(** *** Turns and exchanges of a conversation *)

(** A row is the list of the fields of a line. *)
Definition row_fields (line : bytes) : list bytes :=
  Py.split_on TAB (Py.chop line).

Definition speaker (r : list bytes) : bytes := nth 1 r [].
Definition column (i : nat) (r : list bytes) : bytes := nth i r [].

(** The turns of a conversation: the maximal runs of consecutive rows of
    one speaker. [current] is the run being read, of speaker [person]. *)
Fixpoint turns_from (current : list (list bytes)) (person : bytes)
    (rows : list (list bytes)) : list (list (list bytes)) :=
  match rows with
  | [] => [current]
  | r :: rows =>
      if decide (speaker r = person) then turns_from (current ++ [r]) person rows
      else current :: turns_from [r] (speaker r) rows
  end.

Definition turns (rows : list (list bytes)) : list (list (list bytes)) :=
  match rows with
  | [] => []
  | r :: rows => turns_from [r] (speaker r) rows
  end.

(** The text of a turn: the messages of its rows, read at column [col],
    with one space between two of them. *)
Definition turn_text (col : nat) (turn : list (list bytes)) : bytes :=
  Py.join [SP] (fmap (column col) turn).

(** The opening turn is read at the column [row] chosen from the first
    row, every later turn at column 3. *)
Definition turn_texts (row : nat) (ts : list (list (list bytes)))
  : list bytes :=
  match ts with
  | [] => []
  | t :: ts => turn_text row t :: fmap (turn_text 3) ts
  end.

Fixpoint pair_up {A} (l : list A) : list (A * A) :=
  match l with
  | x :: y :: l => (x, y) :: pair_up l
  | _ => []
  end.

(** The lines that a list of exchanges gives to the encoder file and to
    the decoder file. *)
Definition enc_lines (exs : list (bytes * bytes)) : list bytes :=
  (λ e, e.1 ++ [NL]) <$> exs.
Definition dec_lines (exs : list (bytes * bytes)) : list bytes :=
  (λ e, e.2 ++ [NL]) <$> exs.

(** The exchanges of a dialogue file: its turns taken two by two, a last
    turn without an answer being left out. *)
Definition exchanges (content : bytes) : list (bytes * bytes) :=
  let rows := fmap row_fields (Py.readlines content) in
  pair_up (turn_texts (row_of (hd [] rows)) (turns rows)).

(** A well-formed dialogue file of two speakers: the first row has 3
    fields or more than 3, every other row has more than 3, and some row
    is not of the speaker of the first row. *)
Definition well_formed (content : bytes) : Prop :=
  match fmap row_fields (Py.readlines content) with
  | [] => False
  | first :: rest =>
      (length first = 3 ∨ 3 < length first) ∧
      Forall (λ r, 3 < length r) rest ∧
      Exists (λ r, speaker r ≠ speaker first) rest
  end.

Definition exchanges_at (w : world) (tsv : string) : list (bytes * bytes) :=
  match files w !! tsv with
  | Some content => exchanges content
  | None => []
  end.

(** Two lines that the main loop cannot tell apart: they agree on
    whether they have more than 3 fields, on the speaker and on the
    field of index 3. *)
Definition same_main_view (l l' : bytes) : Prop :=
  (3 < length (row_fields l) ↔ 3 < length (row_fields l')) ∧
  row_fields l !! 1 = row_fields l' !! 1 ∧
  row_fields l !! 3 = row_fields l' !! 3.

(** Building a line from its fields, for the examples. *)
Definition tsv_row (fields : list string) : bytes :=
  Py.join [TAB] (fmap b fields) ++ [NL].

(** ** The whole preparation *)

(** [a.endswith('/')] and [os.path.join(a, p)] *)
Definition ends_with_slash (a : string) : bool :=
  match String.rev a with
  | String "/" _ => true
  | _ => false
  end.

Definition os_path_join (a p : string) : string :=
  if String.prefix "/" p then p
  else if decide (a = "") then a +:+ p
  else if ends_with_slash a then a +:+ p
  else a +:+ "/" +:+ p.

(** ["%d" % n] *)
Definition percent_d (n : Z) : string := string_of_list_ascii (Py.str n).

Definition prepare_my_data (glob : gmap string bytes → string → list string)
    (working_directory train_enc train_dec test_enc test_dec : string)
    (enc_vocabulary_size dec_vocabulary_size : Z)
    (tokenizer : option (bytes → list bytes))
  : M world (string * string * string * string * string * string) :=
  create_my_dataset glob "data/dialogs" train_enc train_dec test_enc test_dec ;;
  let enc_vocab_path :=
    os_path_join working_directory
      ("vocab" +:+ percent_d enc_vocabulary_size +:+ ".enc") in
  let dec_vocab_path :=
    os_path_join working_directory
      ("vocab" +:+ percent_d dec_vocabulary_size +:+ ".dec") in
  create_vocabulary enc_vocab_path train_enc enc_vocabulary_size tokenizer true ;;
  create_vocabulary dec_vocab_path train_dec dec_vocabulary_size tokenizer true ;;
  let enc_train_ids_path :=
    train_enc +:+ ".ids" +:+ percent_d enc_vocabulary_size in
  let dec_train_ids_path :=
    train_dec +:+ ".ids" +:+ percent_d dec_vocabulary_size in
  data_to_token_ids train_enc enc_train_ids_path enc_vocab_path tokenizer true ;;
  data_to_token_ids train_dec dec_train_ids_path dec_vocab_path tokenizer true ;;
  let enc_dev_ids_path :=
    test_enc +:+ ".ids" +:+ percent_d enc_vocabulary_size in
  let dec_dev_ids_path :=
    test_dec +:+ ".ids" +:+ percent_d dec_vocabulary_size in
  data_to_token_ids test_enc enc_dev_ids_path enc_vocab_path tokenizer true ;;
  data_to_token_ids test_dec dec_dev_ids_path dec_vocab_path tokenizer true ;;
  ret (enc_train_ids_path, dec_train_ids_path, enc_dev_ids_path,
       dec_dev_ids_path, enc_vocab_path, dec_vocab_path).

(** ** Further notions used in the statements *)

(** The number of line feeds of a text. *)
Definition line_feeds (s : bytes) : nat := length (filter (λ c, c = NL) s).

(** The speaker that [rm_one_way_conv] reads on a line, and the distinct
    speakers of a file in the order they come. *)
Definition person_of (line : bytes) : bytes := nth 1 (Py.split_on TAB line) [].

Definition persons_of (content : bytes) : list bytes :=
  firsts (person_of <$> Py.readlines content).

(** The body of the loop of [rm_one_way_conv] on one file. *)
Definition filter_body (tsv : string) : M world unit :=
  lines <- open_lines tsv ;;
  r <- with_local [] (inner (for_each lines collect_person)) ;;
  let persons := r.2 in
  if decide (length persons < 2) then FS.remove tsv else ret tt.

(** A dialogue file that the main pass reads to its end: the first row
    has at least 3 fields and no other row has exactly 3. Rows with
    fewer fields, empty lines and files of one speaker are allowed. *)
Definition scannable (content : bytes) : Prop :=
  match row_fields <$> Py.readlines content with
  | [] => False
  | first :: rest => 3 ≤ length first ∧ Forall (λ r, length r ≠ 3) rest
  end.

(** One for an open line of the decoder file. *)
Definition open_line (file_to_write : nat) : nat :=
  if decide (file_to_write = 1) then 1 else 0.

(** The line of ids that [data_to_token_ids] writes for a line of
    text. *)
Definition ids_line (vocab : gmap bytes Z)
    (tokenizer : option (bytes → list bytes)) (normalize_digits : bool)
    (line : bytes) : bytes :=
  Py.join [SP]
    (Py.str <$> sentence_to_token_ids line vocab tokenizer normalize_digits)
  ++ [NL].

(** A computation that looks at the files only, never at the record of
    the calls made so far: from two worlds with the same files it gives
    the same result and the same files. *)
Definition files_only {A} (c : M world A) : Prop :=
  ∀ w w0 : world, files w = files w0 →
    (c w).1 = (c w0).1 ∧ files (c w).2 = files (c w0).2.

(** * Properties *)

(** ** The tokenizer on the example of its documentation *)

Example basic_tokenizer_dog :
  basic_tokenizer (b "I have a dog.") = fmap b ["I"; "have"; "a"; "dog"; "."].
Proof. reflexivity. Qed.

(** ** Sentence encoder *)

(** With the normalization of digits, two numbers of the same length get
    the same id. *)
Example sentence_to_token_ids_digits :
  let vocabulary : gmap bytes Z := {[ b "room" := 4%Z; b "00" := 5%Z ]} in
  sentence_to_token_ids (b "room 42, now") vocabulary None true = [4; 5; 3; 3]%Z ∧
  sentence_to_token_ids (b "room 17") vocabulary None true =
  sentence_to_token_ids (b "room 42") vocabulary None true.
Proof. vm_compute. split; reflexivity. Qed.

Lemma sentence_to_token_ids_eq sentence vocabulary tokenizer normalize_digits :
  sentence_to_token_ids sentence vocabulary tokenizer normalize_digits =
  fmap (λ w, default UNK_ID (vocabulary !! normalize normalize_digits w))
      (tokenize tokenizer sentence).
Proof.
  unfold sentence_to_token_ids, tokenize, normalize.
  destruct tokenizer, normalize_digits; reflexivity.
Qed.

(** C6. The ids returned by [sentence_to_token_ids] are as many as the
    tokens of the sentence; the id at position [i] is the one the
    vocabulary gives to the [i]-th token, after the normalization of its
    digits when that is asked for, and it is the unknown id 3 when the
    vocabulary has no entry for that token. *)
Theorem sentence_to_token_ids_spec (sentence : bytes)
    (vocabulary : gmap bytes Z) (tokenizer : option (bytes → list bytes))
    (normalize_digits : bool) :
  let words := tokenize tokenizer sentence in
  let ids :=
    sentence_to_token_ids sentence vocabulary tokenizer normalize_digits in
  length ids = length words ∧
  ∀ (i : nat) (w : bytes), words !! i = Some w →
    match vocabulary !! normalize normalize_digits w with
    | Some id => ids !! i = Some id
    | None => ids !! i = Some 3%Z
    end.
Proof.
  intros words ids. subst ids. rewrite sentence_to_token_ids_eq.
  fold words. split.
  - by rewrite length_fmap.
  - intros i w Hw. rewrite list_lookup_fmap, Hw. simpl.
    destruct (vocabulary !! normalize normalize_digits w); reflexivity.
Qed.

(** ** Existence checks *)

Lemma path_exists_run path w :
  FS.path_exists path w =
  (inr (bool_decide (is_Some (files w !! path))),
   World (files w) (trace w ++ [EvExists path])).
Proof. reflexivity. Qed.

Lemma bind_run {S A B} (c : M S A) (k : A → M S B) s a s' :
  c s = (inr a, s') → bind c k s = k a s'.
Proof. intros H. unfold bind. by rewrite H. Qed.

(** C8. A generation step whose output files are all there returns
    without an error, leaves every file as it is, and calls the file
    system only to check that its outputs exist. *)
Theorem generation_step_noop
    (glob : gmap string bytes → string → list string)
    (step : generation_step) (w : world) :
  Forall (λ path, is_Some (files w !! path)) (outputs step) →
  ∃ checks : list event,
    run_step glob step w = (inr tt, World (files w) (trace w ++ checks)) ∧
    Forall (λ e, ∃ path, e = EvExists path ∧ path ∈ outputs step) checks.
Proof.
  intros Hout. destruct step; simpl in *.
  - apply Forall_cons in Hout as [Hv _].
    exists [EvExists vocabulary_path]. split.
    + unfold create_vocabulary.
      erewrite bind_run by apply path_exists_run.
      by rewrite bool_decide_true.
    + repeat constructor. eexists. split; [done | set_solver].
  - apply Forall_cons in Hout as [Ht _].
    exists [EvExists target_path]. split.
    + unfold data_to_token_ids.
      erewrite bind_run by apply path_exists_run.
      by rewrite bool_decide_true.
    + repeat constructor. eexists. split; [done | set_solver].
  - apply Forall_cons in Hout as [He Hout].
    apply Forall_cons in Hout as [Hd _].
    exists [EvExists train_enc; EvExists train_dec]. split.
    + unfold create_my_dataset.
      erewrite bind_run by apply path_exists_run.
      rewrite bool_decide_true by done.
      erewrite bind_run by apply path_exists_run.
      simpl. rewrite bool_decide_true by done.
      by rewrite <- app_assoc.
    + repeat constructor; eexists; (split; [done | set_solver]).
Qed.

Lemma generation_step_noop_witness :
  let w := World {[ "train.enc" := b "hi"; "train.dec" := b "yo";
                    "test.enc" := []; "test.dec" := [] ]} [] in
  let step := CreateMyDataset "dialogs" "train.enc" "train.dec"
                              "test.enc" "test.dec" in
  ∃ checks : list event,
    run_step (λ _ _, []) step w = (inr tt, World (files w) (trace w ++ checks)) ∧
    Forall (λ e, ∃ path, e = EvExists path ∧ path ∈ outputs step) checks.
Proof.
  intros w step. apply (generation_step_noop (λ _ _, []) step w).
  repeat constructor; vm_compute; eauto.
Defined.

(** ** Vocabulary loader *)

Section Loader.

Implicit Types (l : list bytes) (tok : bytes).

Lemma vocab_of_nil : vocab_of [] = ∅.
Proof. reflexivity. Qed.

Lemma vocab_of_snoc l tok :
  vocab_of (l ++ [tok]) = <[tok := Z.of_nat (length l)]> (vocab_of l).
Proof.
  unfold vocab_of, enumerate, dict.
  rewrite imap_app, fmap_app, foldl_app. simpl.
  by rewrite Nat.add_0_r.
Qed.

Lemma vocab_of_dom l : dom (vocab_of l) = list_to_set l.
Proof.
  induction l as [|tok l IH] using rev_ind.
  - rewrite vocab_of_nil. set_solver.
  - rewrite vocab_of_snoc, dom_insert_L, IH, list_to_set_app_L. set_solver.
Qed.

(** A token of the list is mapped to the last position it has. *)
Lemma vocab_of_last l tok i :
  l !! i = Some tok →
  ∃ j, vocab_of l !! tok = Some (Z.of_nat j) ∧ l !! j = Some tok ∧
       ∀ k, l !! k = Some tok → k ≤ j.
Proof.
  revert i. induction l as [|x l IH] using rev_ind; intros i Hi; [done|].
  rewrite vocab_of_snoc. destruct (decide (x = tok)) as [->|Hne].
  - exists (length l). rewrite lookup_insert_eq. split_and!; [done| |].
    + by rewrite lookup_app_r, Nat.sub_diag.
    + intros k Hk. apply lookup_lt_Some in Hk.
      rewrite length_app in Hk. simpl in Hk. lia.
  - assert (l !! i = Some tok) as Hi'.
    { apply lookup_app_Some in Hi as [Hi|[_ Hi]]; [done|].
      apply list_lookup_singleton_Some in Hi as [_ ?]. congruence. }
    destruct (IH i Hi') as (j & Hj & Hlj & Hmax).
    exists j. rewrite lookup_insert_ne by done. split_and!; [done| |].
    + by apply lookup_app_l_Some.
    + intros k Hk. apply lookup_app_Some in Hk as [Hk|[_ Hk]]; [by apply Hmax|].
      apply list_lookup_singleton_Some in Hk as [_ ?]. congruence.
Qed.

Lemma distinct_le l : distinct l ≤ length l.
Proof.
  unfold distinct. induction l as [|x l IH].
  - rewrite list_to_set_nil, size_empty. done.
  - rewrite list_to_set_cons. simpl.
    destruct (decide (x ∈ l)) as [Hin|Hin].
    + replace ({[x]} ∪ list_to_set l : gset bytes) with
        (list_to_set l : gset bytes) by set_solver. lia.
    + rewrite size_union by set_solver. rewrite size_singleton. lia.
Qed.

Lemma distinct_NoDup l : NoDup l → distinct l = length l.
Proof. intros H. unfold distinct. by apply size_list_to_set. Qed.

Lemma distinct_lt l i j tok :
  i ≠ j → l !! i = Some tok → l !! j = Some tok → distinct l < length l.
Proof.
  intros Hij Hi Hj.
  destruct (decide (distinct l = length l)) as [Heq|Hne].
  - exfalso. apply Hij. eapply NoDup_lookup; [|done..].
    unfold distinct in Heq. revert Heq. clear.
    induction l as [|x l IH]; intros Heq; [constructor|].
    rewrite list_to_set_cons in Heq. simpl in Heq.
    destruct (decide (x ∈ l)) as [Hin|Hin].
    + replace ({[x]} ∪ list_to_set l : gset bytes) with
        (list_to_set l : gset bytes) in Heq by set_solver.
      pose proof (distinct_le l). unfold distinct in *. lia.
    + rewrite size_union, size_singleton in Heq by set_solver.
      constructor; [done|]. apply IH. lia.
  - pose proof (distinct_le l). lia.
Qed.

Lemma vocab_of_size l : size (vocab_of l) = distinct l.
Proof. unfold distinct. by rewrite <- vocab_of_dom, size_dom. Qed.

Lemma initialize_vocabulary_run w path content :
  files w !! path = Some content →
  initialize_vocabulary path w =
  (inr (vocab_of (fmap Py.strip (Py.readlines (FS.gfile_text content))),
        fmap Py.strip (Py.readlines (FS.gfile_text content))),
   World (files w) (trace w ++ [EvExists path; EvRead path])).
Proof.
  intros Hf. unfold initialize_vocabulary.
  erewrite bind_run by apply path_exists_run.
  rewrite bool_decide_true by eauto.
  unfold FS.gfile_lines, FS.read, log, bind, modify, gets, ret. simpl.
  rewrite Hf. simpl. by rewrite <- app_assoc.
Qed.

End Loader.

(** C9. When a token stands on more than one line of a vocabulary file,
    as the library reads the file, [initialize_vocabulary] maps it to the
    last of its lines, counted from zero, and the reversed list still has
    every line of the file in order. The mapping then has fewer entries
    than the file has lines, and the list is not its inverse: some
    position of the list holds a token that the mapping sends to another
    position. *)
Theorem initialize_vocabulary_duplicates (w : world) (path : string)
    (content : bytes) (tok : bytes) (i j : nat) :
  let lines := Py.readlines (FS.gfile_text content) in
  files w !! path = Some content →
  i < j →
  Py.strip <$> lines !! i = Some tok →
  Py.strip <$> lines !! j = Some tok →
  ∃ (vocab : gmap bytes Z) (rev_vocab : list bytes) (last : nat),
    (initialize_vocabulary path w).1 = inr (vocab, rev_vocab) ∧
    rev_vocab = fmap Py.strip lines ∧
    vocab !! tok = Some (Z.of_nat last) ∧
    rev_vocab !! last = Some tok ∧
    (∀ k, rev_vocab !! k = Some tok → k ≤ last) ∧
    size vocab < length lines ∧
    rev_vocab !! i = Some tok ∧ vocab !! tok ≠ Some (Z.of_nat i).
Proof.
  intros lines Hf Hij Hi Hj.
  rewrite <- list_lookup_fmap in Hi, Hj.
  destruct (vocab_of_last _ _ _ Hi) as (last & Hlast & Hl & Hmax).
  eexists _, _, last. rewrite (initialize_vocabulary_run w path content Hf).
  fold lines. simpl. split_and!; try done.
  - rewrite vocab_of_size.
    erewrite <- (length_fmap Py.strip).
    eapply (distinct_lt _ i j); [lia|done..].
  - rewrite Hlast. intros [= Heq]. apply Hmax in Hj. lia.
Qed.

(** The file has the lines [dog], [cat] and [do], carriage return, [g]:
    the library reads the last one as [dog]. *)
Lemma initialize_vocabulary_duplicates_witness :
  let content := b "dog" ++ [NL] ++ b "cat" ++ [CR; NL] ++
                 b "do" ++ [CR] ++ b "g" ++ [NL] in
  let w := World {[ "vocab" := content ]} [] in
  let lines := Py.readlines (FS.gfile_text content) in
  ∃ (vocab : gmap bytes Z) (rev_vocab : list bytes) (last : nat),
    (initialize_vocabulary "vocab" w).1 = inr (vocab, rev_vocab) ∧
    rev_vocab = fmap Py.strip lines ∧
    vocab !! b "dog" = Some (Z.of_nat last) ∧
    rev_vocab !! last = Some (b "dog") ∧
    (∀ k, rev_vocab !! k = Some (b "dog") → k ≤ last) ∧
    size vocab < length lines ∧
    rev_vocab !! 0 = Some (b "dog") ∧ vocab !! b "dog" ≠ Some (Z.of_nat 0).
Proof.
  intros content w lines.
  apply (initialize_vocabulary_duplicates w "vocab" content (b "dog") 0 2);
    [reflexivity | lia | reflexivity | reflexivity].
Defined.

(** ** Lines of a file *)

Section Lines.

Implicit Types (s t : bytes) (ts : list bytes).

Lemma readlines_line t s :
  NL ∉ t → Py.readlines (t ++ NL :: s) = (t ++ [NL]) :: Py.readlines s.
Proof.
  induction t as [|c t IH]; intros Hnl; simpl; [done|].
  rewrite decide_False by set_solver.
  rewrite IH by set_solver. done.
Qed.

Lemma readlines_lines_app ts s :
  Forall (λ t, NL ∉ t) ts →
  Py.readlines (concat ((λ t, t ++ [NL]) <$> ts) ++ s) =
  ((λ t, t ++ [NL]) <$> ts) ++ Py.readlines s.
Proof.
  induction 1 as [|t ts Ht _ IH]; [done|].
  rewrite fmap_cons. cbn [concat]. rewrite <- !app_assoc. cbn [app].
  by rewrite readlines_line, IH.
Qed.

Lemma readlines_lines ts :
  Forall (λ t, NL ∉ t) ts →
  Py.readlines (concat ((λ t, t ++ [NL]) <$> ts)) = (λ t, t ++ [NL]) <$> ts.
Proof.
  intros Hts. rewrite <- (app_nil_r (concat _)).
  rewrite readlines_lines_app by done. apply app_nil_r.
Qed.

(** A line that a file gives has its only line feed at the end. *)
Lemma readlines_chop s l : l ∈ Py.readlines s → NL ∉ Py.chop l.
Proof.
  revert l. induction s as [|c s IH]; intros l; simpl; [set_solver|].
  destruct (decide (c = NL)) as [->|Hc].
  - intros [->|Hl]%elem_of_cons; [|by apply IH].
    unfold Py.chop. simpl. set_solver.
  - destruct (Py.readlines s) as [|l0 ls] eqn:Hs.
    + intros ->%list_elem_of_singleton. unfold Py.chop. simpl. set_solver.
    + intros [->|Hl]%elem_of_cons; [|apply IH; set_solver].
      assert (NL ∉ Py.chop l0) as H0 by (apply IH; set_solver).
      unfold Py.chop in *. simpl. rewrite Nat.sub_0_r.
      destruct l0 as [|c0 l0]; simpl in *; [set_solver|].
      rewrite Nat.sub_0_r in H0. set_solver.
Qed.

Lemma split_on_chars sep s f c :
  f ∈ Py.split_on sep s → c ∈ f → c ∈ s.
Proof.
  revert f. induction s as [|x s IH]; intros f; simpl.
  - intros ->%list_elem_of_singleton. done.
  - destruct (decide (x = sep)) as [->|Hx].
    + intros [->|Hf]%elem_of_cons Hc; [set_solver|].
      apply elem_of_cons. right. by eapply IH.
    + destruct (Py.split_on sep s) as [|f0 fs] eqn:Hs.
      * intros ->%list_elem_of_singleton. set_solver.
      * intros [->|Hf]%elem_of_cons Hc.
        -- apply elem_of_cons in Hc as [->|Hc]; [set_solver|].
           apply elem_of_cons. right. eapply IH; [|done]. set_solver.
        -- apply elem_of_cons. right. eapply IH; [|done]. set_solver.
Qed.

End Lines.

(** ** Tokens without white space *)

Section Tokens.

Implicit Types (s w cur : bytes).

Lemma no_whitespace_NL w : no_whitespace w → NL ∉ w.
Proof.
  intros Hw Hin. unfold no_whitespace in Hw.
  rewrite Forall_forall in Hw. by apply Hw in Hin.
Qed.

Lemma split_go_no_whitespace cur s :
  no_whitespace cur → Forall no_whitespace (Py.split_go cur s).
Proof.
  assert (∀ r, no_whitespace r → Forall no_whitespace (Py.flush r))
    as Hflush.
  { intros [|c r] Hr; simpl; [constructor|].
    apply Forall_cons. split; [done|constructor]. }
  revert cur. induction s as [|c s IH]; intros cur Hcur; simpl.
  - by apply Hflush.
  - destruct (Py.is_whitespace c) eqn:Hc.
    + apply Forall_app. split; [by apply Hflush|].
      apply IH. constructor.
    + apply IH. apply Forall_app. split; [done|].
      apply Forall_cons. split; [done|constructor].
Qed.

Lemma _WORD_SPLIT_split_chars s w c :
  w ∈ _WORD_SPLIT_split s → c ∈ w → c ∈ s.
Proof.
  revert w. induction s as [|x s IH]; intros w; simpl.
  - intros ->%list_elem_of_singleton. done.
  - destruct (is_word_split x).
    + intros [->|[->|Hw]%elem_of_cons]%elem_of_cons Hc; [set_solver..|].
      apply elem_of_cons. right. by eapply IH.
    + destruct (_WORD_SPLIT_split s) as [|f0 fs] eqn:Hs.
      * intros ->%list_elem_of_singleton. set_solver.
      * intros [->|Hw]%elem_of_cons Hc.
        -- apply elem_of_cons in Hc as [->|Hc]; [set_solver|].
           apply elem_of_cons. right. eapply IH; [|done]. set_solver.
        -- apply elem_of_cons. right. eapply IH; [|done]. set_solver.
Qed.

Lemma basic_tokenizer_words sentence :
  basic_tokenizer sentence =
  filter (λ w, nonempty w = true)
         (Py.split (Py.strip sentence) ≫= _WORD_SPLIT_split).
Proof.
  unfold basic_tokenizer. f_equal.
  generalize (Py.split (Py.strip sentence)). intros l.
  rewrite <- (app_nil_l (l ≫= _)). generalize (@nil bytes).
  induction l as [|f l IH]; intros acc; simpl.
  - by rewrite app_nil_r.
  - rewrite IH. by rewrite <- app_assoc.
Qed.

Lemma basic_tokenizer_no_whitespace sentence w :
  w ∈ basic_tokenizer sentence → no_whitespace w.
Proof.
  rewrite basic_tokenizer_words.
  intros [_ Hw]%list_elem_of_filter.
  apply list_elem_of_bind in Hw as (f & Hw & Hf).
  pose proof (split_go_no_whitespace [] (Py.strip sentence)) as Hall.
  rewrite Forall_forall in Hall. specialize (Hall (Forall_nil_2 _) f Hf).
  unfold no_whitespace in *. rewrite Forall_forall in *.
  intros c Hc. apply Hall. by eapply _WORD_SPLIT_split_chars.
Qed.

Lemma normalize_no_whitespace normalize_digits w :
  no_whitespace w → no_whitespace (normalize normalize_digits w).
Proof.
  unfold normalize, _DIGIT_RE_sub0, no_whitespace.
  destruct normalize_digits; [|done].
  intros Hw. apply Forall_fmap. eapply Forall_impl; [done|].
  intros c Hc. simpl. destruct (is_digit c); done.
Qed.

Lemma corpus_tokens_no_whitespace tokenizer normalize_digits corpus :
  tokenizer_ok tokenizer →
  Forall no_whitespace (corpus_tokens tokenizer normalize_digits corpus).
Proof.
  intros Hok. apply Forall_forall. intros w Hw.
  apply list_elem_of_bind in Hw as (line & Hw & _).
  apply list_elem_of_fmap in Hw as (w0 & -> & Hw0).
  apply normalize_no_whitespace.
  destruct tokenizer as [tok|]; simpl in *.
  - by eapply Hok.
  - by eapply basic_tokenizer_no_whitespace.
Qed.

Lemma rstrip_line w : no_whitespace w → Py.rstrip (w ++ [NL]) = w.
Proof.
  induction 1 as [|c w Hc _ IH]; [done|].
  simpl. rewrite IH. destruct w; [by rewrite Hc|done].
Qed.

Lemma strip_line w : no_whitespace w → Py.strip (w ++ [NL]) = w.
Proof.
  intros Hw. unfold Py.strip. destruct Hw as [|c w Hc Hw]; [done|].
  simpl. rewrite Hc. by apply (rstrip_line (c :: w)), Forall_cons.
Qed.

Lemma strip_lines (ws : list bytes) :
  Forall no_whitespace ws → Py.strip <$> ((λ t, t ++ [NL]) <$> ws) = ws.
Proof.
  induction 1 as [|w ws Hw _ IH]; [done|].
  rewrite !fmap_cons, IH. by rewrite strip_line.
Qed.

Lemma _START_VOCAB_no_whitespace : Forall no_whitespace _START_VOCAB.
Proof. repeat constructor. Qed.

(** The reader of the library gives a text without carriage returns as
    it is, and so the lines of tokens without white space. *)
Lemma gfile_text_id s : CR ∉ s → FS.gfile_text s = s.
Proof.
  intros Hs. unfold FS.gfile_text. induction s as [|c s IH]; [done|].
  rewrite filter_cons, decide_True by set_solver.
  f_equal. apply IH. set_solver.
Qed.

Lemma gfile_text_lines (ws : list bytes) :
  Forall no_whitespace ws →
  FS.gfile_text (concat ((λ t, t ++ [NL]) <$> ws)) =
  concat ((λ t, t ++ [NL]) <$> ws).
Proof.
  induction 1 as [|t ws Ht _ IH]; [done|].
  rewrite fmap_cons. cbn [concat]. unfold FS.gfile_text in *.
  rewrite !filter_app, IH. f_equal. f_equal.
  apply gfile_text_id. intros Hin.
  unfold no_whitespace in Ht. rewrite Forall_forall in Ht.
  by apply Ht in Hin.
Qed.

End Tokens.

(** ** Sorting by descending key *)

Section Sorting.

Context {A : Type} (key pos : A → nat).

Lemma insert_desc_perm x (l : list A) : Py.insert_desc key x l ≡ₚ x :: l.
Proof.
  induction l as [|y l IH]; simpl; [done|].
  case_decide; [done|]. rewrite IH. apply Permutation_swap.
Qed.

Lemma sorted_reverse_perm (l : list A) : Py.sorted_reverse key l ≡ₚ l.
Proof.
  induction l as [|x l IH]; simpl; [done|].
  by rewrite insert_desc_perm, IH.
Qed.

Lemma sorted_before_trans_key x y z :
  key y ≤ key x → pos x < pos y → pos x < pos z →
  sorted_before key pos y z → sorted_before key pos x z.
Proof. unfold sorted_before. lia. Qed.

Lemma insert_desc_sorted x (l : list A) :
  StronglySorted (sorted_before key pos) l →
  Forall (λ y, pos x < pos y) l →
  StronglySorted (sorted_before key pos) (Py.insert_desc key x l).
Proof.
  induction 1 as [|y l Hl IH Hy]; intros Hpos; simpl.
  - repeat constructor.
  - apply Forall_cons in Hpos as [Hxy Hpos]. case_decide as Hk.
    + constructor; [by constructor|]. constructor.
      * unfold sorted_before. lia.
      * rewrite Forall_forall in Hy, Hpos |- *. intros z Hz.
        eapply sorted_before_trans_key; eauto.
    + constructor; [by apply IH|].
      rewrite insert_desc_perm. constructor; [|done].
      unfold sorted_before. lia.
Qed.

(** The sort is stable: elements that come in the order of [pos] leave
    by descending key, and in the order of [pos] among equal keys. *)
Lemma sorted_reverse_sorted (l : list A) :
  StronglySorted (λ x y, pos x < pos y) l →
  StronglySorted (sorted_before key pos) (Py.sorted_reverse key l).
Proof.
  induction 1 as [|x l Hl IH Hx]; simpl; [constructor|].
  apply insert_desc_sorted; [done|]. by rewrite sorted_reverse_perm.
Qed.

Lemma StronglySorted_lookup (R : relation A) (l : list A) i j x y :
  StronglySorted R l → i < j → l !! i = Some x → l !! j = Some y → R x y.
Proof.
  intros Hl. revert i j. induction Hl as [|z l Hl IH Hz]; intros i j Hij Hi Hj.
  - done.
  - destruct j as [|j]; [lia|]. simpl in Hj. destruct i as [|i]; simpl in Hi.
    + injection Hi as ->. rewrite Forall_forall in Hz.
      apply Hz. by eapply list_elem_of_lookup_2.
    + eapply (IH i j); [lia|done..].
Qed.

End Sorting.

Lemma StronglySorted_impl_strong {A} (R R' : relation A) (l : list A) :
  (∀ x y, x ∈ l → y ∈ l → R x y → R' x y) →
  StronglySorted R l → StronglySorted R' l.
Proof.
  intros Himpl Hl. induction Hl as [|x l Hl IH Hx]; constructor.
  - apply IH. intros y z Hy Hz. apply Himpl; set_solver.
  - rewrite Forall_forall in Hx |- *. intros y Hy.
    apply Himpl; [set_solver..|]. by apply Hx.
Qed.

Lemma insert_desc_fmap {A B} (key : B → nat) (g : A → B) x (l : list A) :
  Py.insert_desc key (g x) (g <$> l) = g <$> Py.insert_desc (key ∘ g) x l.
Proof.
  induction l as [|y l IH]; csimpl; [done|].
  case_decide; [done|]. by rewrite IH.
Qed.

Lemma sorted_reverse_fmap {A B} (key : B → nat) (g : A → B) (l : list A) :
  Py.sorted_reverse key (g <$> l) = g <$> Py.sorted_reverse (key ∘ g) l.
Proof.
  unfold Py.sorted_reverse. induction l as [|x l IH]; [done|].
  csimpl. rewrite IH. apply insert_desc_fmap.
Qed.

(** ** Counting the tokens *)

Section Counting.

Implicit Types (l ks : list bytes) (t x : bytes).

Lemma occurrences_snoc t l x :
  occurrences t (l ++ [x]) =
  occurrences t l + (if decide (x = t) then 1 else 0).
Proof.
  unfold occurrences. rewrite filter_app, length_app. f_equal.
  rewrite filter_cons, filter_nil. by case_decide.
Qed.

Lemma occurrences_notin t l : t ∉ l → occurrences t l = 0.
Proof.
  intros Hin. unfold occurrences.
  induction l as [|x l IH]; [done|].
  rewrite filter_cons. case_decide; [set_solver|]. apply IH. set_solver.
Qed.

Lemma firsts_snoc l x :
  firsts (l ++ [x]) =
  if decide (x ∈ firsts l) then firsts l else firsts l ++ [x].
Proof. unfold firsts. by rewrite foldl_app. Qed.

Lemma firsts_elem l t : t ∈ firsts l ↔ t ∈ l.
Proof.
  induction l as [|x l IH] using rev_ind; [done|].
  rewrite firsts_snoc. case_decide; set_solver.
Qed.

Lemma firsts_NoDup l : NoDup (firsts l).
Proof.
  induction l as [|x l IH] using rev_ind; [constructor|].
  rewrite firsts_snoc. case_decide; [done|].
  apply NoDup_app. split_and!; [done|set_solver|apply NoDup_singleton].
Qed.

Lemma firsts_length l : length (firsts l) = distinct l.
Proof.
  rewrite <- (distinct_NoDup (firsts l)) by apply firsts_NoDup.
  unfold distinct. f_equal. apply set_eq. intros t.
  rewrite !elem_of_list_to_set. apply firsts_elem.
Qed.

Lemma first_index_lt t l : t ∈ l → first_index t l < length l.
Proof.
  induction l as [|x l IH]; simpl; [set_solver|].
  intros Hin. case_decide; [lia|].
  apply elem_of_cons in Hin as [->|Hin]; [done|]. apply IH in Hin. lia.
Qed.

Lemma first_index_app_l t l k :
  t ∈ l → first_index t (l ++ k) = first_index t l.
Proof.
  induction l as [|x l IH]; simpl; [set_solver|].
  intros Hin. case_decide; [done|].
  apply elem_of_cons in Hin as [->|Hin]; [done|]. by rewrite IH.
Qed.

Lemma first_index_new t l : t ∉ l → first_index t (l ++ [t]) = length l.
Proof.
  induction l as [|x l IH]; simpl; intros Hin.
  - by rewrite decide_True.
  - rewrite decide_False by set_solver. rewrite IH by set_solver. done.
Qed.

Lemma firsts_sorted l :
  StronglySorted (λ t u, first_index t l < first_index u l) (firsts l).
Proof.
  induction l as [|x l IH] using rev_ind; [constructor|].
  assert (StronglySorted
            (λ t u, first_index t (l ++ [x]) < first_index u (l ++ [x]))
            (firsts l)) as Hl.
  { eapply StronglySorted_impl_strong; [|exact IH].
    intros t u Ht Hu Htu. rewrite firsts_elem in Ht, Hu.
    rewrite !first_index_app_l by done. exact Htu. }
  rewrite firsts_snoc. case_decide as Hx; [done|].
  apply StronglySorted_app_2; [|done|repeat constructor].
  intros t u Ht ->%list_elem_of_singleton.
  rewrite firsts_elem in Ht, Hx.
  rewrite first_index_app_l, first_index_new by done.
  by apply first_index_lt.
Qed.

Lemma vocab_count_in (g : bytes → nat) ks x :
  NoDup ks → x ∈ ks →
  vocab_count x ((λ t, (t, g t)) <$> ks) =
  (λ t, (t, g t + (if decide (x = t) then 1 else 0))) <$> ks.
Proof.
  induction 1 as [|k ks Hk Hks IH]; intros Hin; [set_solver|].
  csimpl. case_decide as Hkx.
  - subst k. rewrite decide_True by done. f_equal.
    apply list_fmap_ext. intros i t Ht.
    rewrite decide_False; [by rewrite Nat.add_0_r|].
    intros ->. by apply list_elem_of_lookup_2 in Ht.
  - rewrite decide_False by done. rewrite Nat.add_0_r. f_equal.
    apply IH. set_solver.
Qed.

Lemma vocab_count_notin (g : bytes → nat) ks x :
  x ∉ ks →
  vocab_count x ((λ t, (t, g t)) <$> ks) =
  ((λ t, (t, g t)) <$> ks) ++ [(x, 1)].
Proof.
  induction ks as [|k ks IH]; intros Hin; [done|].
  csimpl. rewrite decide_False by set_solver. f_equal.
  apply IH. set_solver.
Qed.

Lemma count_tokens_snoc l x :
  count_tokens (l ++ [x]) = vocab_count x (count_tokens l).
Proof. unfold count_tokens. by rewrite foldl_app. Qed.

(** The dictionary holds the distinct tokens in the order of their
    first occurrence, each with the number of its occurrences. *)
Lemma count_tokens_firsts l :
  count_tokens l = (λ t, (t, occurrences t l)) <$> firsts l.
Proof.
  induction l as [|x l IH] using rev_ind; [done|].
  rewrite count_tokens_snoc, IH, firsts_snoc. case_decide as Hx.
  - rewrite vocab_count_in by (done || apply firsts_NoDup).
    apply list_fmap_ext. intros i t _. by rewrite occurrences_snoc.
  - rewrite vocab_count_notin by done. rewrite fmap_app. f_equal.
    + apply list_fmap_ext. intros i t Ht. rewrite occurrences_snoc.
      rewrite decide_False; [by rewrite Nat.add_0_r|].
      intros ->. by apply list_elem_of_lookup_2 in Ht.
    + csimpl. rewrite occurrences_snoc, decide_True by done.
      rewrite occurrences_notin; [done|]. by rewrite <- firsts_elem.
Qed.

Lemma ranked_firsts l :
  ranked l = Py.sorted_reverse (λ t, occurrences t l) (firsts l).
Proof.
  unfold ranked. rewrite count_tokens_firsts, sorted_reverse_fmap.
  rewrite <- list_fmap_compose. apply list_fmap_id.
Qed.

Lemma ranked_perm l : ranked l ≡ₚ firsts l.
Proof. rewrite ranked_firsts. apply sorted_reverse_perm. Qed.

Lemma ranked_elem l t : t ∈ ranked l ↔ t ∈ l.
Proof. by rewrite ranked_perm, firsts_elem. Qed.

Lemma ranked_NoDup l : NoDup (ranked l).
Proof. rewrite ranked_perm. apply firsts_NoDup. Qed.

Lemma ranked_length l : length (ranked l) = distinct l.
Proof. by rewrite ranked_perm, firsts_length. Qed.

Lemma ranked_sorted l : StronglySorted (ranks_before l) (ranked l).
Proof.
  rewrite ranked_firsts.
  apply (sorted_reverse_sorted (λ t, occurrences t l)
                               (λ t, first_index t l)).
  apply firsts_sorted.
Qed.

Lemma count_lines_tokens tokenizer normalize_digits corpus :
  count_lines tokenizer normalize_digits (Py.readlines corpus) =
  count_tokens (corpus_tokens tokenizer normalize_digits corpus).
Proof.
  unfold count_lines, count_tokens, corpus_tokens.
  generalize (@nil (bytes * nat)). generalize (Py.readlines corpus).
  induction l as [|line l IH]; intros vocab; [done|].
  rewrite bind_cons, foldl_app. simpl. rewrite IH. f_equal.
  unfold count_line. by rewrite foldl_fmap.
Qed.

End Counting.

(** ** Vocabulary builder *)

Section Written.

Implicit Types (l : list bytes) (max_vocabulary_size : Z).

Lemma written_nonempty l max_vocabulary_size :
  (0 < max_vocabulary_size)%Z → written l max_vocabulary_size ≠ [].
Proof.
  intros Hmax. unfold written.
  destruct (Z.to_nat max_vocabulary_size) as [|n] eqn:Hn; [lia|done].
Qed.

Lemma written_reserved l max_vocabulary_size :
  (4 ≤ max_vocabulary_size)%Z →
  written l max_vocabulary_size =
  _START_VOCAB ++ take (Z.to_nat max_vocabulary_size - 4) (ranked l).
Proof.
  intros Hmax. unfold written. rewrite take_app.
  change (length _START_VOCAB) with 4.
  f_equal. apply take_ge. change (length _START_VOCAB) with 4. lia.
Qed.

Lemma written_no_whitespace l max_vocabulary_size :
  Forall no_whitespace l → Forall no_whitespace (written l max_vocabulary_size).
Proof.
  intros Hl. unfold written. apply Forall_take, Forall_app. split.
  - apply _START_VOCAB_no_whitespace.
  - apply Forall_forall. intros t Ht. rewrite ranked_elem in Ht.
    rewrite Forall_forall in Hl. by apply Hl.
Qed.

Lemma written_length l max_vocabulary_size :
  length (written l max_vocabulary_size) =
  min (4 + distinct l) (Z.to_nat max_vocabulary_size).
Proof.
  unfold written. rewrite length_take, length_app, ranked_length.
  change (length _START_VOCAB) with 4. lia.
Qed.

Lemma written_lines l max_vocabulary_size :
  Forall no_whitespace l →
  Py.readlines (concat ((λ t, t ++ [NL]) <$> written l max_vocabulary_size)) =
  (λ t, t ++ [NL]) <$> written l max_vocabulary_size.
Proof.
  intros Hl. apply readlines_lines.
  eapply Forall_impl; [by apply written_no_whitespace|].
  apply no_whitespace_NL.
Qed.

Lemma _START_VOCAB_NoDup : NoDup _START_VOCAB.
Proof.
  unfold _START_VOCAB.
  repeat (apply NoDup_cons; split; [set_solver|]). apply NoDup_nil_2.
Qed.

Lemma written_NoDup l max_vocabulary_size :
  (∀ t, t ∈ _START_VOCAB → t ∉ l) → NoDup (written l max_vocabulary_size).
Proof.
  intros Hres. unfold written.
  eapply sublist_NoDup; [|apply sublist_take].
  apply NoDup_app. split_and!.
  - apply _START_VOCAB_NoDup.
  - intros t Ht Hin. rewrite ranked_elem in Hin. by eapply Hres.
  - apply ranked_NoDup.
Qed.

End Written.

Section Builder.

Variables (w : world) (vocabulary_path data_path : string) (corpus : bytes).
Variables (max_vocabulary_size : Z) (tokenizer : option (bytes → list bytes)).
Variable normalize_digits : bool.

Hypothesis vocabulary_missing : files w !! vocabulary_path = None.
Hypothesis data_there : files w !! data_path = Some corpus.

Lemma vocab_list_of_take :
  (0 ≤ max_vocabulary_size)%Z →
  vocab_list_of (count_lines tokenizer normalize_digits
                   (Py.readlines (FS.gfile_text corpus)))
                max_vocabulary_size =
  written (corpus_tokens tokenizer normalize_digits (FS.gfile_text corpus))
          max_vocabulary_size.
Proof using Type.
  intros Hmax. unfold vocab_list_of, written, ranked.
  rewrite count_lines_tokens.
  destruct (Z.gtb_spec (Z.of_nat (length (_START_VOCAB ++
    (Py.sorted_reverse snd (count_tokens
       (corpus_tokens tokenizer normalize_digits
                      (FS.gfile_text corpus)))).*1)))
    max_vocabulary_size) as [Hgt|Hle].
  - unfold Py.slice_to. destruct (Z.ltb_spec max_vocabulary_size 0); [lia|done].
  - symmetry. apply take_ge. lia.
Qed.

(** What the call does when there is a file to make. *)
Lemma create_vocabulary_run :
  (0 < max_vocabulary_size)%Z →
  create_vocabulary vocabulary_path data_path max_vocabulary_size
                    tokenizer normalize_digits w =
  (inr tt,
   World (<[vocabulary_path :=
              concat ((λ t, t ++ [NL]) <$>
                written (corpus_tokens tokenizer normalize_digits
                                       (FS.gfile_text corpus))
                        max_vocabulary_size)]> (files w))
         (trace w ++ [EvExists vocabulary_path; EvRead data_path;
                      EvWrite vocabulary_path])).
Proof.
  intros Hmax. unfold create_vocabulary.
  erewrite bind_run by apply path_exists_run.
  rewrite bool_decide_false by (rewrite vocabulary_missing; by intros [? ?]).
  simpl. erewrite bind_run; last first.
  { unfold FS.gfile_lines, FS.read, log, bind, modify, gets, ret. simpl.
    rewrite data_there. reflexivity. }
  rewrite vocab_list_of_take by lia.
  pose proof (written_nonempty
                (corpus_tokens tokenizer normalize_digits
                               (FS.gfile_text corpus))
                max_vocabulary_size Hmax) as Hne.
  unfold FS.gfile_write. destruct (written _ _) as [|t0 ts]; [done|].
  unfold FS.write, log, bind, modify. simpl.
  by rewrite <- !app_assoc.
Qed.

End Builder.

(** C2, as amended. When the vocabulary file is to be made and
    [max_vocabulary_size] is at least 4, the file written by
    [create_vocabulary] begins with the four lines [_PAD], [_GO], [_EOS],
    [_UNK] in that order, whatever the corpus and the tokenizer. *)
Theorem create_vocabulary_reserved_first (w : world)
    (vocabulary_path data_path : string) (corpus : bytes)
    (max_vocabulary_size : Z) (tokenizer : option (bytes → list bytes))
    (normalize_digits : bool) :
  files w !! vocabulary_path = None →
  files w !! data_path = Some corpus →
  (4 ≤ max_vocabulary_size)%Z →
  ∃ w' : world,
    create_vocabulary vocabulary_path data_path max_vocabulary_size
                      tokenizer normalize_digits w = (inr tt, w') ∧
    starts_with_reserved w' vocabulary_path.
Proof.
  intros Hv Hd Hmax. eexists. split.
  - by apply (create_vocabulary_run w vocabulary_path data_path corpus);
      [..|lia].
  - eexists. cbn [files]. rewrite lookup_insert_eq. split; [done|].
    rewrite written_reserved by done.
    rewrite fmap_app, concat_app, readlines_lines_app.
    + by apply take_app_length'.
    + eapply Forall_impl; [apply _START_VOCAB_no_whitespace|].
      apply no_whitespace_NL.
Qed.

Lemma create_vocabulary_reserved_first_witness :
  let w := World {[ "data" := b "a dog, a cat" ++ [NL] ]} [] in
  ∃ w' : world,
    create_vocabulary "vocab" "data" 6 None true w = (inr tt, w') ∧
    starts_with_reserved w' "vocab".
Proof.
  intros w.
  apply (create_vocabulary_reserved_first w "vocab" "data"
           (b "a dog, a cat" ++ [NL]) 6 None true);
    [reflexivity | reflexivity | lia].
Defined.

(** C2 as it is stated does not hold: with a cap of 2 the file has the
    two lines [_PAD] and [_GO] only. *)
Lemma create_vocabulary_reserved_first_counterexample :
  let w := World {[ "data" := b "a dog" ++ [NL] ]} [] in
  ∃ w' : world,
    create_vocabulary "vocab" "data" 2 None true w = (inr tt, w') ∧
    files w' !! "vocab" = Some (_PAD ++ [NL] ++ _GO ++ [NL]) ∧
    ¬ starts_with_reserved w' "vocab".
Proof.
  intros w. eexists. split; [vm_compute; reflexivity|]. split; [reflexivity|].
  intros (content & Hc & Hlines). vm_compute in Hc. injection Hc as <-.
  vm_compute in Hlines. discriminate.
Qed.

(** C5, as amended. For a positive [max_vocabulary_size], the file
    written by [create_vocabulary] holds, one per line, the four reserved
    symbols followed by every counted token once, the whole cut to
    [max_vocabulary_size] entries; of two counted tokens the one that
    occurs more often comes first, and of two that occur equally often
    the one met first in the corpus. The tokens are those of the lines
    that the library reads from the data file. *)
Theorem create_vocabulary_order (w : world)
    (vocabulary_path data_path : string) (corpus : bytes)
    (max_vocabulary_size : Z) (tokenizer : option (bytes → list bytes))
    (normalize_digits : bool) :
  files w !! vocabulary_path = None →
  files w !! data_path = Some corpus →
  (0 < max_vocabulary_size)%Z →
  let tokens :=
    corpus_tokens tokenizer normalize_digits (FS.gfile_text corpus) in
  ∃ (w' : world) (counted : list bytes),
    create_vocabulary vocabulary_path data_path max_vocabulary_size
                      tokenizer normalize_digits w = (inr tt, w') ∧
    files w' !! vocabulary_path =
      Some (concat ((λ t, t ++ [NL]) <$>
              take (Z.to_nat max_vocabulary_size) (_START_VOCAB ++ counted))) ∧
    NoDup counted ∧
    (∀ t, t ∈ counted ↔ t ∈ tokens) ∧
    (∀ i j t u, i < j → counted !! i = Some t → counted !! j = Some u →
                ranks_before tokens t u).
Proof.
  intros Hv Hd Hmax tokens. eexists _, (ranked tokens). split_and!.
  - by apply (create_vocabulary_run w vocabulary_path data_path corpus).
  - cbn [files]. by rewrite lookup_insert_eq.
  - apply ranked_NoDup.
  - apply ranked_elem.
  - intros i j t u. apply StronglySorted_lookup, ranked_sorted.
Qed.

(** The first line ends with a carriage return and a line feed, and the
    second has a carriage return inside [c b]: the library reads [cb]. *)
Lemma create_vocabulary_order_witness :
  let corpus := b "a b a 17 42 c." ++ [CR; NL] ++
                b "c" ++ [CR] ++ b "b c" ++ [NL] in
  let w := World {[ "data" := corpus ]} [] in
  let tokens := corpus_tokens None true (FS.gfile_text corpus) in
  tokens = b <$> ["a"; "b"; "a"; "00"; "00"; "c"; "."; "cb"; "c"] ∧
  ∃ (w' : world) (counted : list bytes),
    create_vocabulary "vocab" "data" 8 None true w = (inr tt, w') ∧
    files w' !! "vocab" =
      Some (concat ((λ t, t ++ [NL]) <$>
              take (Z.to_nat 8) (_START_VOCAB ++ counted))) ∧
    NoDup counted ∧
    (∀ t, t ∈ counted ↔ t ∈ tokens) ∧
    (∀ i j t u, i < j → counted !! i = Some t → counted !! j = Some u →
                ranks_before tokens t u).
Proof.
  intros corpus w tokens. split; [reflexivity|].
  apply (create_vocabulary_order w "vocab" "data" corpus 8 None true);
    [reflexivity | reflexivity | lia].
Defined.

(** C5 as it is stated does not hold for every cap. With a cap of -1 the
    list of 6 entries is longer than the cap, and the slice
    [vocab_list[:-1]] drops its last entry: the file has 5 lines, the
    counted token [b] is not written, and the file is not the list cut to
    [max_vocabulary_size] entries. *)
Lemma create_vocabulary_order_counterexample :
  let corpus := b "a a b" ++ [NL] in
  let w := World {[ "data" := corpus ]} [] in
  let tokens := corpus_tokens None true (FS.gfile_text corpus) in
  b "b" ∈ tokens ∧
  ∃ w' : world,
    create_vocabulary "vocab" "data" (-1) None true w = (inr tt, w') ∧
    files w' !! "vocab" =
      Some (concat ((λ t, t ++ [NL]) <$> _START_VOCAB ++ [b "a"])) ∧
    ∀ counted : list bytes,
      files w' !! "vocab" ≠
      Some (concat ((λ t, t ++ [NL]) <$>
              take (Z.to_nat (-1)) (_START_VOCAB ++ counted))).
Proof.
  intros corpus w tokens. split; [vm_compute; set_solver|].
  eexists. split; [vm_compute; reflexivity|]. split; [reflexivity|].
  intros counted Heq. vm_compute in Heq. discriminate.
Qed.

(** C10, as amended. When the vocabulary file is to be made, with a
    positive [max_vocabulary_size] and a tokenizer whose tokens hold no
    white space, the file written has as many lines as the four reserved
    symbols and the distinct normalized tokens together, or
    [max_vocabulary_size] lines when that is less. The cut is made on the
    list that starts with the reserved symbols: below 4 the file has the
    first [max_vocabulary_size] reserved symbols and nothing else. The
    tokens are those of the lines that the library reads from the data
    file. *)
Theorem create_vocabulary_line_count (w : world)
    (vocabulary_path data_path : string) (corpus : bytes)
    (max_vocabulary_size : Z) (tokenizer : option (bytes → list bytes))
    (normalize_digits : bool) :
  files w !! vocabulary_path = None →
  files w !! data_path = Some corpus →
  (0 < max_vocabulary_size)%Z →
  tokenizer_ok tokenizer →
  let tokens :=
    corpus_tokens tokenizer normalize_digits (FS.gfile_text corpus) in
  ∃ (w' : world) (content : bytes),
    create_vocabulary vocabulary_path data_path max_vocabulary_size
                      tokenizer normalize_digits w = (inr tt, w') ∧
    files w' !! vocabulary_path = Some content ∧
    length (Py.readlines content) =
      min (4 + distinct tokens) (Z.to_nat max_vocabulary_size) ∧
    ((max_vocabulary_size < 4)%Z →
     Py.readlines content =
       (λ t, t ++ [NL]) <$> take (Z.to_nat max_vocabulary_size) _START_VOCAB).
Proof.
  intros Hv Hd Hmax Hok tokens. eexists _, _. split_and!.
  - by apply (create_vocabulary_run w vocabulary_path data_path corpus).
  - cbn [files]. by rewrite lookup_insert_eq.
  - rewrite written_lines by by apply corpus_tokens_no_whitespace.
    rewrite length_fmap. apply written_length.
  - intros Hlt. rewrite written_lines by by apply corpus_tokens_no_whitespace.
    f_equal. apply take_app_le. change (length _START_VOCAB) with 4. lia.
Qed.

Lemma create_vocabulary_line_count_witness :
  let corpus := b "a b a 17 42 c." ++ [CR; NL] ++
                b "c" ++ [CR] ++ b "b c" ++ [NL] in
  let w := World {[ "data" := corpus ]} [] in
  let tokens := corpus_tokens None true (FS.gfile_text corpus) in
  distinct tokens = 6 ∧
  ∃ (w' : world) (content : bytes),
    create_vocabulary "vocab" "data" 3 None true w = (inr tt, w') ∧
    files w' !! "vocab" = Some content ∧
    length (Py.readlines content) = min (4 + distinct tokens) (Z.to_nat 3) ∧
    ((3 < 4)%Z →
     Py.readlines content = (λ t, t ++ [NL]) <$> take (Z.to_nat 3) _START_VOCAB).
Proof.
  intros corpus w tokens. split; [by vm_compute|].
  apply (create_vocabulary_line_count w "vocab" "data" corpus 3 None true);
    [reflexivity | reflexivity | lia | exact I].
Defined.

(** C10 as it is stated does not hold for every cap. With a cap of -1
    the slice [vocab_list[:-1]] drops the last of the 6 entries: the
    file has 5 lines, which is not the least of 6 and -1. *)
Lemma create_vocabulary_line_count_counterexample :
  let corpus := b "a a b" ++ [NL] in
  let w := World {[ "data" := corpus ]} [] in
  let tokens := corpus_tokens None true (FS.gfile_text corpus) in
  ∃ (w' : world) (content : bytes),
    create_vocabulary "vocab" "data" (-1) None true w = (inr tt, w') ∧
    files w' !! "vocab" = Some content ∧
    length (Py.readlines content) = 5 ∧
    (Z.min (4 + Z.of_nat (distinct tokens)) (-1) = -1)%Z.
Proof.
  intros corpus w tokens. eexists _, _. split_and!.
  - vm_compute. reflexivity.
  - reflexivity.
  - reflexivity.
  - by vm_compute.
Qed.

(** What [initialize_vocabulary] returns on the file that
    [create_vocabulary] has just written. *)
Lemma create_then_initialize (w : world)
    (vocabulary_path data_path : string) (corpus : bytes)
    (max_vocabulary_size : Z) (tokenizer : option (bytes → list bytes))
    (normalize_digits : bool) :
  files w !! vocabulary_path = None →
  files w !! data_path = Some corpus →
  (0 < max_vocabulary_size)%Z →
  tokenizer_ok tokenizer →
  let tokens :=
    corpus_tokens tokenizer normalize_digits (FS.gfile_text corpus) in
  ∃ w' : world,
    (create_vocabulary vocabulary_path data_path max_vocabulary_size
                       tokenizer normalize_digits ;;
     initialize_vocabulary vocabulary_path) w =
      (inr (vocab_of (written tokens max_vocabulary_size),
            written tokens max_vocabulary_size), w') ∧
    files w' !! vocabulary_path =
      Some (concat ((λ t, t ++ [NL]) <$> written tokens max_vocabulary_size)).
Proof.
  intros Hv Hd Hmax Hok tokens.
  assert (Forall no_whitespace tokens) as Htok
    by by apply corpus_tokens_no_whitespace.
  eexists. split.
  - erewrite bind_run
      by by apply (create_vocabulary_run w vocabulary_path data_path corpus).
    erewrite initialize_vocabulary_run
      by (cbn [files]; apply lookup_insert_eq).
    fold tokens.
    rewrite gfile_text_lines by by apply written_no_whitespace.
    rewrite written_lines by done.
    rewrite strip_lines by by apply written_no_whitespace.
    reflexivity.
  - cbn [files]. apply lookup_insert_eq.
Qed.

(** C3, as amended. When no reserved symbol is among the normalized
    tokens of the corpus, the vocabulary file is to be made,
    [max_vocabulary_size] is positive and the tokens of the tokenizer
    hold no white space, [create_vocabulary] followed by
    [initialize_vocabulary] gives a mapping with as many entries as the
    four reserved symbols and the distinct normalized tokens together, or
    [max_vocabulary_size] when that is less, and every token written to
    the file is mapped to the number of its line, counted from zero. The
    tokens are those of the lines that the library reads from the data
    file. *)
Theorem vocabulary_round_trip (w : world)
    (vocabulary_path data_path : string) (corpus : bytes)
    (max_vocabulary_size : Z) (tokenizer : option (bytes → list bytes))
    (normalize_digits : bool) :
  files w !! vocabulary_path = None →
  files w !! data_path = Some corpus →
  (0 < max_vocabulary_size)%Z →
  tokenizer_ok tokenizer →
  let tokens :=
    corpus_tokens tokenizer normalize_digits (FS.gfile_text corpus) in
  (∀ t, t ∈ _START_VOCAB → t ∉ tokens) →
  ∃ (w' : world) (content : bytes) (vocab : gmap bytes Z)
    (rev_vocab : list bytes),
    (create_vocabulary vocabulary_path data_path max_vocabulary_size
                       tokenizer normalize_digits ;;
     initialize_vocabulary vocabulary_path) w = (inr (vocab, rev_vocab), w') ∧
    files w' !! vocabulary_path = Some content ∧
    size vocab = min (distinct tokens + 4) (Z.to_nat max_vocabulary_size) ∧
    (∀ (i : nat) (tok : bytes),
       Py.readlines content !! i = Some (tok ++ [NL]) →
       vocab !! tok = Some (Z.of_nat i)).
Proof.
  intros Hv Hd Hmax Hok tokens Hres.
  destruct (create_then_initialize w vocabulary_path data_path corpus
              max_vocabulary_size tokenizer normalize_digits Hv Hd Hmax Hok)
    as (w' & Hrun & Hfile).
  assert (NoDup (written tokens max_vocabulary_size)) as Hnodup
    by by apply written_NoDup.
  assert (Forall no_whitespace tokens) as Htok
    by by apply corpus_tokens_no_whitespace.
  eexists w', _, _, _. split_and!; [exact Hrun|exact Hfile| |].
  - rewrite vocab_of_size, distinct_NoDup by done.
    rewrite written_length. unfold tokens. lia.
  - intros i tok Hi. rewrite written_lines in Hi by done.
    rewrite list_lookup_fmap in Hi.
    destruct (_ !! i) as [t|] eqn:Ht; [|done].
    simpl in Hi. injection Hi as Heq. apply app_inv_tail in Heq as ->.
    destruct (vocab_of_last _ _ _ Ht) as (j & Hj & Hlj & _).
    rewrite Hj. do 2 f_equal. by eapply NoDup_lookup.
Qed.

(** The line [a], carriage return, [b] is read by the library as [ab]:
    the corpus has the two distinct tokens [ab] and [c]. *)
Lemma vocabulary_round_trip_witness :
  let corpus := b "a" ++ [CR] ++ b "b c" ++ [CR; NL] ++ b "c" ++ [NL; CR] in
  let w := World {[ "data" := corpus ]} [] in
  let tokens := corpus_tokens None true (FS.gfile_text corpus) in
  tokens = b <$> ["ab"; "c"; "c"] ∧
  ∃ (w' : world) (content : bytes) (vocab : gmap bytes Z)
    (rev_vocab : list bytes),
    (create_vocabulary "vocab" "data" 7 None true ;;
     initialize_vocabulary "vocab") w = (inr (vocab, rev_vocab), w') ∧
    files w' !! "vocab" = Some content ∧
    size vocab = min (distinct tokens + 4) (Z.to_nat 7) ∧
    (∀ (i : nat) (tok : bytes),
       Py.readlines content !! i = Some (tok ++ [NL]) →
       vocab !! tok = Some (Z.of_nat i)).
Proof.
  intros corpus w tokens. split; [reflexivity|].
  apply (vocabulary_round_trip w "vocab" "data" corpus 7 None true);
    [reflexivity | reflexivity | lia | exact I |].
  intros t Ht. vm_compute. set_solver.
Defined.

(** C3 as it is stated does not hold: a corpus may hold a reserved symbol
    as a token. Here the file has the five lines [_PAD], [_GO], [_EOS],
    [_UNK], [_PAD]; the mapping has four entries, not five, and [_PAD],
    written on line 0, is mapped to 4. *)
Lemma vocabulary_round_trip_counterexample :
  let corpus := b "_PAD" ++ [NL] in
  let w := World {[ "data" := corpus ]} [] in
  ∃ (w' : world) (content : bytes) (vocab : gmap bytes Z)
    (rev_vocab : list bytes),
    (create_vocabulary "vocab" "data" 10 None true ;;
     initialize_vocabulary "vocab") w = (inr (vocab, rev_vocab), w') ∧
    files w' !! "vocab" = Some content ∧
    min (distinct (corpus_tokens None true (FS.gfile_text corpus)) + 4)
        (Z.to_nat 10) = 5 ∧
    size vocab = 4 ∧
    Py.readlines content !! 0 = Some (_PAD ++ [NL]) ∧
    vocab !! _PAD = Some 4%Z.
Proof.
  intros corpus w. eexists _, _, _, _. split_and!.
  - vm_compute. reflexivity.
  - reflexivity.
  - vm_compute. reflexivity.
  - vm_compute. reflexivity.
  - reflexivity.
  - reflexivity.
Qed.

(** ** Dialogue reformatter: the steps of the two loops *)

Section Steps.

Implicit Types (line l : bytes) (tsv_file : list bytes) (st : loop_state).
Implicit Types (last_person person : bytes).

Lemma lookup_column (r : list bytes) i :
  i < length r → r !! i = Some (column i r).
Proof.
  intros Hi. unfold column. rewrite nth_lookup.
  destruct (lookup_lt_is_Some_2 r i Hi) as [x ->]. done.
Qed.

Lemma lookup_speaker (r : list bytes) :
  1 < length r → r !! 1 = Some (speaker r).
Proof. apply lookup_column. Qed.

(** A row with fewer than 3 fields ends the first loop and leaves the
    lines after it to the main loop. *)
Lemma first_turn_short row last_person l tsv_file st :
  length (row_fields l) < 3 →
  first_turn row last_person (l :: tsv_file) st =
  (inr (0, last_person, tsv_file), st).
Proof.
  intros Hlen. cbn [first_turn].
  change (Py.split_on TAB (Py.chop l)) with (row_fields l).
  by rewrite decide_True.
Qed.

Lemma first_turn_same row last_person l tsv_file st msg :
  3 ≤ length (row_fields l) →
  row_fields l !! 1 = Some last_person →
  row_fields l !! row = Some msg →
  first_turn row last_person (l :: tsv_file) st =
  first_turn row last_person tsv_file
    (LoopState (enc_file st ++ SP :: msg) (dec_file st)
               (str_buffer st) (total_line st)).
Proof.
  intros Hlen Hp Hmsg. cbn [first_turn].
  change (Py.split_on TAB (Py.chop l)) with (row_fields l).
  rewrite decide_False by lia.
  unfold getitem, bind. rewrite Hp. cbn [ret].
  rewrite decide_False by naive_solver.
  by rewrite Hmsg.
Qed.

Lemma first_turn_change row last_person l tsv_file st person msg :
  3 ≤ length (row_fields l) →
  row_fields l !! 1 = Some person →
  person ≠ last_person →
  row_fields l !! 3 = Some msg →
  first_turn row last_person (l :: tsv_file) st =
  (inr (1, person, tsv_file),
   LoopState (enc_file st ++ [NL]) (dec_file st ++ msg)
             (str_buffer st) (total_line st + 1)).
Proof.
  intros Hlen Hp Hne Hmsg. cbn [first_turn].
  change (Py.split_on TAB (Py.chop l)) with (row_fields l).
  rewrite decide_False by lia.
  unfold getitem, bind. rewrite Hp. cbn [ret].
  rewrite decide_True by done.
  by rewrite Hmsg.
Qed.

(** A row with 3 fields or fewer is passed over by the main loop. *)
Lemma main_scan_skip file_to_write last_person line tsv_file st :
  length (row_fields line) ≤ 3 →
  main_scan file_to_write last_person (line :: tsv_file) st =
  main_scan file_to_write last_person tsv_file st.
Proof.
  intros Hlen. cbn [main_scan].
  change (Py.split_on TAB (Py.chop line)) with (row_fields line).
  by rewrite decide_False by lia.
Qed.

Lemma main_scan_same_dec last_person line tsv_file st :
  3 < length (row_fields line) →
  speaker (row_fields line) = last_person →
  main_scan 1 last_person (line :: tsv_file) st =
  main_scan 1 last_person tsv_file
    (LoopState (enc_file st)
               (dec_file st ++ SP :: column 3 (row_fields line))
               (str_buffer st) (total_line st)).
Proof.
  intros Hlen Hp. cbn [main_scan].
  change (Py.split_on TAB (Py.chop line)) with (row_fields line).
  rewrite decide_True by done.
  unfold getitem, bind.
  rewrite lookup_speaker, (lookup_column _ 3) by lia. cbn [ret].
  by rewrite decide_False by naive_solver.
Qed.

Lemma main_scan_same_enc last_person line tsv_file st :
  3 < length (row_fields line) →
  speaker (row_fields line) = last_person →
  main_scan 0 last_person (line :: tsv_file) st =
  main_scan 0 last_person tsv_file
    (LoopState (enc_file st) (dec_file st)
               (str_buffer st ++ SP :: column 3 (row_fields line))
               (total_line st)).
Proof.
  intros Hlen Hp. cbn [main_scan].
  change (Py.split_on TAB (Py.chop line)) with (row_fields line).
  rewrite decide_True by done.
  unfold getitem, bind.
  rewrite lookup_speaker, (lookup_column _ 3) by lia. cbn [ret].
  by rewrite decide_False by naive_solver.
Qed.

Lemma main_scan_change_dec last_person line tsv_file st :
  3 < length (row_fields line) →
  speaker (row_fields line) ≠ last_person →
  main_scan 1 last_person (line :: tsv_file) st =
  main_scan 0 (speaker (row_fields line)) tsv_file
    (LoopState (enc_file st) (dec_file st ++ [NL])
               (column 3 (row_fields line)) (total_line st)).
Proof.
  intros Hlen Hp. cbn [main_scan].
  change (Py.split_on TAB (Py.chop line)) with (row_fields line).
  rewrite decide_True by done.
  unfold getitem, bind.
  rewrite lookup_speaker, (lookup_column _ 3) by lia. cbn [ret].
  by rewrite decide_True by done.
Qed.

Lemma main_scan_change_enc last_person line tsv_file st :
  3 < length (row_fields line) →
  speaker (row_fields line) ≠ last_person →
  main_scan 0 last_person (line :: tsv_file) st =
  main_scan 1 (speaker (row_fields line)) tsv_file
    (LoopState (enc_file st ++ str_buffer st ++ [NL])
               (dec_file st ++ column 3 (row_fields line))
               (str_buffer st ++ [NL]) (total_line st + 1)).
Proof.
  intros Hlen Hp. cbn [main_scan].
  change (Py.split_on TAB (Py.chop line)) with (row_fields line).
  rewrite decide_True by done.
  unfold getitem, bind.
  rewrite lookup_speaker, (lookup_column _ 3) by lia. cbn [ret].
  by rewrite decide_True by done.
Qed.

(** The main loop looks at a line only for the number of its fields,
    its speaker and its field of index 3. *)
Lemma main_scan_view file_to_write last_person tsv_file tsv_file' st :
  Forall2 same_main_view tsv_file tsv_file' →
  main_scan file_to_write last_person tsv_file st =
  main_scan file_to_write last_person tsv_file' st.
Proof.
  intros Hview. revert file_to_write last_person st.
  induction Hview as [|l l' ls ls' (Hlen & H1 & H3) _ IH];
    intros file_to_write last_person st; [done|].
  cbn [main_scan].
  change (Py.split_on TAB (Py.chop l)) with (row_fields l).
  change (Py.split_on TAB (Py.chop l')) with (row_fields l').
  destruct (decide (3 < length (row_fields l))) as [Hl|Hl].
  - rewrite (decide_True (P := 3 < length (row_fields l'))) by tauto.
    unfold getitem, bind. rewrite <- H1, <- H3.
    destruct (row_fields l !! 1) as [person|]; [|done]. cbn [ret raise].
    destruct (row_fields l !! 3) as [msg|];
      repeat (case_decide; cbn -[main_scan Nat.modulo]); try done;
      try apply IH.
    all: unfold write; repeat (case_match; cbn -[main_scan]); done || apply IH.
  - rewrite (decide_False (P := 3 < length (row_fields l'))) by tauto.
    apply IH.
Qed.

End Steps.

(** C7, as amended. A row with fewer than 3 fields that comes after the
    first row of a file raises nothing. In the loop over the opening
    turn it ends that loop with no text written, and the lines after it
    are given to the main loop; in the main loop it is passed over and
    the scan goes on with the next line. *)
Theorem short_row_passed_over (l : bytes) :
  length (row_fields l) < 3 →
  (∀ row last_person tsv_file st,
     first_turn row last_person (l :: tsv_file) st =
     (inr (0, last_person, tsv_file), st)) ∧
  (∀ file_to_write last_person tsv_file st,
     main_scan file_to_write last_person (l :: tsv_file) st =
     main_scan file_to_write last_person tsv_file st) ∧
  (∀ first tsv_file st person msg,
     row_fields first !! 1 = Some person →
     row_fields first !! row_of (row_fields first) = Some msg →
     parse_tsv (first :: l :: tsv_file) st =
     (file_to_write <- main_scan 0 person tsv_file ;; finish_file file_to_write)
       (LoopState (enc_file st ++ msg) (dec_file st)
                  (str_buffer st) (total_line st))).
Proof.
  intros Hlen. split_and!.
  - intros. by apply first_turn_short.
  - intros. apply main_scan_skip. lia.
  - intros first tsv_file st person msg Hp Hmsg.
    unfold parse_tsv. cbn [hd tl].
    change (Py.split_on TAB (Py.chop first)) with (row_fields first).
    unfold getitem at 1 2. rewrite Hp, Hmsg.
    unfold bind at 1 2 3. cbn [ret write modify].
    unfold bind at 1. by rewrite first_turn_short.
Qed.

Lemma short_row_passed_over_witness :
  let l := b "no tab here" ++ [NL] in
  (∀ row last_person tsv_file st,
     first_turn row last_person (l :: tsv_file) st =
     (inr (0, last_person, tsv_file), st)) ∧
  (∀ file_to_write last_person tsv_file st,
     main_scan file_to_write last_person (l :: tsv_file) st =
     main_scan file_to_write last_person tsv_file st) ∧
  (∀ first tsv_file st person msg,
     row_fields first !! 1 = Some person →
     row_fields first !! row_of (row_fields first) = Some msg →
     parse_tsv (first :: l :: tsv_file) st =
     (file_to_write <- main_scan 0 person tsv_file ;; finish_file file_to_write)
       (LoopState (enc_file st ++ msg) (dec_file st)
                  (str_buffer st) (total_line st))).
Proof.
  intros l. apply (short_row_passed_over l). vm_compute. lia.
Defined.

(** C7 as it is stated does not hold. An empty line between two rows
    does not end the scan of the file: the row after it is read and
    written. And a first row with fewer than 3 fields raises
    [IndexError]. *)
Lemma short_row_counterexample :
  let first := tsv_row ["1"; "A"; "B"; "hi"] in
  let short := [NL] in
  let later := tsv_row ["2"; "B"; "A"; "yo"] in
  length (row_fields short) < 3 ∧
  parse_tsv [first; short] loop_init =
    (inr tt, LoopState (b "hi") [] [] 0) ∧
  parse_tsv [first; short; later] loop_init =
    (inr tt, LoopState (b "hi" ++ [NL]) (b "yo" ++ [NL]) [NL] 1) ∧
  (parse_tsv [short; later] loop_init).1 = inl IndexError.
Proof. vm_compute. split_and!; (lia || reflexivity). Qed.

Lemma join_snoc (sep : bytes) (l : list bytes) (x : bytes) :
  l ≠ [] → Py.join sep (l ++ [x]) = Py.join sep l ++ sep ++ x.
Proof.
  induction l as [|a l IH]; intros Hne; [done|].
  destruct l as [|a' l]; [done|].
  change (Py.join sep ((a :: a' :: l) ++ [x]))
    with (a ++ sep ++ Py.join sep ((a' :: l) ++ [x])).
  rewrite IH by done.
  change (Py.join sep (a :: a' :: l)) with (a ++ sep ++ Py.join sep (a' :: l)).
  by rewrite <- !app_assoc.
Qed.

Lemma turn_text_snoc col (turn : list (list bytes)) (r : list bytes) :
  turn ≠ [] →
  turn_text col (turn ++ [r]) = turn_text col turn ++ SP :: column col r.
Proof.
  intros Hne. unfold turn_text. rewrite fmap_app.
  change (column col <$> [r]) with [column col r].
  rewrite join_snoc; [done|]. by destruct turn.
Qed.

(** The loop over the opening turn, on rows of the first speaker followed
    by the row of another speaker. *)
Lemma first_turn_run row last_person (run : list bytes) change tsv_file st
    (current : list (list bytes)) e :
  current ≠ [] →
  enc_file st = e ++ turn_text row current →
  Forall (λ l, 3 ≤ length (row_fields l) ∧
               row_fields l !! 1 = Some last_person ∧
               row < length (row_fields l)) run →
  3 < length (row_fields change) →
  speaker (row_fields change) ≠ last_person →
  first_turn row last_person (run ++ change :: tsv_file) st =
  (inr (1, speaker (row_fields change), tsv_file),
   LoopState (e ++ turn_text row (current ++ (row_fields <$> run)) ++ [NL])
             (dec_file st ++ column 3 (row_fields change))
             (str_buffer st) (total_line st + 1)).
Proof.
  intros Hne He Hrun Hlen Hsp. revert current st Hne He.
  induction Hrun as [|l run (Hl & Hp & Hrow) _ IH]; intros current st Hne He.
  - cbn [app fmap list_fmap]. rewrite app_nil_r.
    erewrite first_turn_change;
      [|lia|by apply lookup_speaker; lia|done|by apply lookup_column].
    rewrite He. by rewrite <- app_assoc.
  - rewrite <- app_comm_cons.
    erewrite first_turn_same; [|done|done|by apply lookup_column].
    rewrite (IH (current ++ [row_fields l])).
    + cbn [dec_file str_buffer total_line]. rewrite fmap_cons.
      by rewrite <- app_assoc.
    + by destruct current.
    + cbn [enc_file]. rewrite He, turn_text_snoc by done.
      by rewrite <- app_assoc.
Qed.

(** The body of the loop on a file that opens with a turn of [person]
    and goes on with the row [change] of another speaker. *)
Lemma parse_tsv_opening (first : bytes) (run : list bytes) (change : bytes)
    (tsv_file : list bytes) (st : loop_state) (person : bytes) :
  let row := row_of (row_fields first) in
  row_fields first !! 1 = Some person →
  row < length (row_fields first) →
  Forall (λ l, 3 ≤ length (row_fields l) ∧
               row_fields l !! 1 = Some person ∧
               row < length (row_fields l)) run →
  3 < length (row_fields change) →
  speaker (row_fields change) ≠ person →
  parse_tsv (first :: run ++ change :: tsv_file) st =
    (file_to_write <- main_scan 1 (speaker (row_fields change)) tsv_file ;;
     finish_file file_to_write)
      (LoopState
         (enc_file st ++ turn_text row (row_fields <$> first :: run) ++ [NL])
         (dec_file st ++ column 3 (row_fields change))
         (str_buffer st) (total_line st + 1)).
Proof.
  intros row Hp Hrow Hrun Hlen Hsp.
  unfold parse_tsv. cbn [hd tl].
  change (Py.split_on TAB (Py.chop first)) with (row_fields first).
  fold row. unfold getitem at 1 2.
  rewrite Hp, (lookup_column _ row) by done.
  unfold bind at 1 2 3. cbn [ret write modify].
  unfold bind at 1.
  erewrite (first_turn_run row person run change tsv_file _ [row_fields first]);
    [|done|reflexivity|done..].
  cbn [enc_file dec_file str_buffer total_line].
  by rewrite fmap_cons.
Qed.

(** ** Dialogue reformatter: turns and exchanges *)

Section Exchanges.

Implicit Types (line l : bytes) (lines : list bytes) (st : loop_state).
Implicit Types (current : list (list bytes)) (person : bytes).

Lemma bind_step {S A B} (c c' : M S A) (k : A → M S B) s s' :
  c s = c' s' → bind c k s = bind c' k s'.
Proof. intros H. unfold bind. by rewrite H. Qed.

Lemma turns_from_nonempty current person rows :
  turns_from current person rows ≠ [].
Proof.
  revert current person. induction rows as [|r rows IH];
    intros current person; simpl; [done|].
  case_decide; [apply IH|done].
Qed.

Lemma pair_up_cons2 {A} (x y : A) (l : list A) :
  pair_up (x :: y :: l) = (x, y) :: pair_up l.
Proof. reflexivity. Qed.

(** The main loop writes the turns it reads two by two. With the
    decoder line open, the turn being read ends that line; with the
    encoder turn in [str_buffer], the turn being read is the first of
    the next exchange. *)
Lemma main_scan_turns lines :
  Forall (λ l, 3 < length (row_fields l)) lines →
  ∀ person current st, current ≠ [] →
  let ts := turn_text 3 <$> turns_from current person (row_fields <$> lines) in
  (∀ d, dec_file st = d ++ turn_text 3 current →
     ∃ st',
       (file_to_write <- main_scan 1 person lines ;;
        finish_file file_to_write) st = (inr tt, st') ∧
       enc_file st' = enc_file st ++ concat (enc_lines (pair_up (tail ts))) ∧
       dec_file st' =
         d ++ hd [] ts ++ [NL] ++ concat (dec_lines (pair_up (tail ts))) ∧
       total_line st' = total_line st + length (pair_up (tail ts))) ∧
  (str_buffer st = turn_text 3 current →
     ∃ st',
       (file_to_write <- main_scan 0 person lines ;;
        finish_file file_to_write) st = (inr tt, st') ∧
       enc_file st' = enc_file st ++ concat (enc_lines (pair_up ts)) ∧
       dec_file st' = dec_file st ++ concat (dec_lines (pair_up ts)) ∧
       total_line st' = total_line st + length (pair_up ts)).
Proof.
  induction 1 as [|l lines Hl _ IH]; intros person current st Hne ts.
  - subst ts. cbn. split.
    + intros d Hd. eexists. split; [reflexivity|]. cbn.
      rewrite Hd, app_nil_r, <- app_assoc. split_and!; [done..|lia].
    + intros Hb. eexists. split; [reflexivity|].
      rewrite !app_nil_r. split_and!; [done..|lia].
  - subst ts. rewrite fmap_cons. cbn [turns_from].
    destruct (decide (speaker (row_fields l) = person)) as [Hp|Hp].
    + (* the same speaker goes on *)
      assert (current ++ [row_fields l] ≠ []) as Hne' by by destruct current.
      split.
      * intros d Hd.
        destruct (IH person (current ++ [row_fields l])
                    (LoopState (enc_file st)
                       (dec_file st ++ SP :: column 3 (row_fields l))
                       (str_buffer st) (total_line st)) Hne')
          as [IH1 _].
        destruct (IH1 d) as (st' & Hrun & Henc & Hdec & Htot).
        { cbn. rewrite Hd, turn_text_snoc by done. by rewrite <- app_assoc. }
        exists st'. split; [|done].
        erewrite bind_step; [exact Hrun|].
        by apply main_scan_same_dec.
      * intros Hb.
        destruct (IH person (current ++ [row_fields l])
                    (LoopState (enc_file st) (dec_file st)
                       (str_buffer st ++ SP :: column 3 (row_fields l))
                       (total_line st)) Hne')
          as [_ IH2].
        destruct IH2 as (st' & Hrun & Henc & Hdec & Htot).
        { cbn. by rewrite Hb, turn_text_snoc. }
        exists st'. split; [|done].
        erewrite bind_step; [exact Hrun|].
        by apply main_scan_same_enc.
    + (* another speaker *)
      rewrite fmap_cons. cbn [hd tail]. split.
      * intros d Hd.
        destruct (IH (speaker (row_fields l)) [row_fields l]
                    (LoopState (enc_file st) (dec_file st ++ [NL])
                       (column 3 (row_fields l)) (total_line st)))
          as [_ IH2]; [done|].
        destruct IH2 as (st' & Hrun & Henc & Hdec & Htot); [done|].
        exists st'. split.
        { erewrite bind_step; [exact Hrun|].
          by apply main_scan_change_dec. }
        cbn in Henc, Hdec, Htot. rewrite Henc, Hdec, Htot, Hd.
        by rewrite <- !app_assoc.
      * intros Hb.
        destruct (IH (speaker (row_fields l)) [row_fields l]
                    (LoopState (enc_file st ++ str_buffer st ++ [NL])
                       (dec_file st ++ column 3 (row_fields l))
                       (str_buffer st ++ [NL]) (total_line st + 1)))
          as [IH1 _]; [done|].
        destruct (IH1 (dec_file st)) as (st' & Hrun & Henc & Hdec & Htot);
          [done|].
        exists st'. split.
        { erewrite bind_step; [exact Hrun|].
          by apply main_scan_change_enc. }
        cbn in Henc, Hdec, Htot.
        pose proof (turns_from_nonempty [row_fields l]
                      (speaker (row_fields l)) (row_fields <$> lines)) as Hts.
        destruct (turns_from _ _ _) as [|t ts]; [done|].
        rewrite fmap_cons, pair_up_cons2. rewrite fmap_cons in Henc, Hdec, Htot.
        cbn [hd tail] in Henc, Hdec, Htot.
        unfold enc_lines, dec_lines in *. rewrite !fmap_cons.
        cbn [concat fst snd length]. rewrite Henc, Hdec, Htot, Hb.
        rewrite <- !app_assoc. split_and!; [done..|lia].
Qed.

End Exchanges.

Section Files.

Implicit Types (content line l : bytes) (lines : list bytes).
Implicit Types (st : loop_state) (person : bytes).

Lemma Exists_first {A} (P : A → Prop) `{!∀ x, Decision (P x)} (l : list A) :
  Exists P l →
  ∃ run x rest, l = run ++ x :: rest ∧ Forall (λ y, ¬ P y) run ∧ P x.
Proof.
  induction l as [|y l IH]; intros Hex; [by apply Exists_nil in Hex|].
  destruct (decide (P y)) as [Hy|Hy].
  - exists [], y, l. by repeat split.
  - apply Exists_cons in Hex as [?|Hex]; [done|].
    destruct (IH Hex) as (run & x & rest & -> & Hrun & Hx).
    exists (y :: run), x, rest. split_and!; [done| |done].
    by constructor.
Qed.

Lemma turns_from_run current person (run : list (list bytes)) change rest :
  Forall (λ r, speaker r = person) run →
  speaker change ≠ person →
  turns_from current person (run ++ change :: rest) =
  (current ++ run) :: turns_from [change] (speaker change) rest.
Proof.
  intros Hrun Hchange. revert current.
  induction Hrun as [|r run Hr _ IH]; intros current; cbn.
  - rewrite decide_False by done. by rewrite app_nil_r.
  - rewrite decide_True by done. rewrite IH. by rewrite <- app_assoc.
Qed.

(** The body of the loop on a well-formed file adds the exchanges of
    the file, in order, to the two temporary files, one line for each
    in both, and counts them. *)
Lemma parse_tsv_exchanges content st :
  well_formed content →
  ∃ st',
    parse_tsv (Py.readlines content) st = (inr tt, st') ∧
    enc_file st' = enc_file st ++ concat (enc_lines (exchanges content)) ∧
    dec_file st' = dec_file st ++ concat (dec_lines (exchanges content)) ∧
    total_line st' = total_line st + length (exchanges content).
Proof.
  unfold well_formed, exchanges.
  destruct (Py.readlines content) as [|first lines]; [done|].
  rewrite fmap_cons. cbn [hd turns].
  intros (Hfirst & Hrest & Hex).
  set (row := row_of (row_fields first)).
  assert (row ≤ 3 ∧ row < length (row_fields first)) as [Hrow3 Hrow].
  { subst row. unfold row_of. case_decide; lia. }
  rewrite Forall_fmap in Hrest. rewrite Exists_fmap in Hex.
  destruct (Exists_first _ _ Hex) as (run & change & rest & -> & Hrun & Hch).
  cbn [compose] in Hrun, Hch.
  apply Forall_app in Hrest as [Hrun3 Hrest].
  apply Forall_cons in Hrest as [Hch3 Hrest]. cbn [compose] in Hch3.
  rewrite fmap_app, fmap_cons.
  rewrite turns_from_run; [|by rewrite Forall_fmap;
    eapply Forall_impl; [exact Hrun|]; intros l Hl; cbn;
    destruct (decide (speaker (row_fields l) = speaker (row_fields first)))|done].
  rewrite (parse_tsv_opening first run change rest st
             (speaker (row_fields first))); [|apply lookup_speaker; lia|done| |done|done].
  2: { rewrite Forall_forall in Hrun, Hrun3 |- *. intros l Hl.
       specialize (Hrun l Hl). specialize (Hrun3 l Hl). cbn in Hrun, Hrun3.
       split_and!; [lia| |lia].
       rewrite lookup_speaker by lia. f_equal.
       by destruct (decide (speaker (row_fields l) = speaker (row_fields first))). }
  fold row.
  destruct (main_scan_turns rest Hrest (speaker (row_fields change))
              [row_fields change]
              (LoopState
                 (enc_file st ++
                    turn_text row (row_fields <$> first :: run) ++ [NL])
                 (dec_file st ++ column 3 (row_fields change))
                 (str_buffer st) (total_line st + 1)))
    as [Hscan _]; [done|].
  destruct (Hscan (dec_file st)) as (st' & Hrun' & Henc & Hdec & Htot); [done|].
  exists st'. split; [exact Hrun'|].
  cbn in Henc, Hdec, Htot.
  pose proof (turns_from_nonempty [row_fields change]
                (speaker (row_fields change)) (row_fields <$> rest)) as Hts.
  destruct (turns_from _ _ _) as [|t ts]; [done|].
  cbn [turn_texts]. rewrite fmap_cons, pair_up_cons2.
  rewrite fmap_cons in Henc, Hdec, Htot. cbn [hd tail] in Henc, Hdec, Htot.
  unfold enc_lines, dec_lines in *. rewrite !fmap_cons.
  cbn [concat fst snd length]. rewrite Henc, Hdec, Htot.
  rewrite <- !app_assoc. split_and!; [done..|lia].
Qed.

End Files.





Section NoLineFeed.

Implicit Types (content l f : bytes) (r : list bytes).
Implicit Types (turn : list (list bytes)).

Lemma pair_up_elem {A} (l : list A) (e : A * A) :
  e ∈ pair_up l → e.1 ∈ l ∧ e.2 ∈ l.
Proof.
  remember (length l) as n eqn:Hn. revert l Hn.
  induction n as [n IH] using lt_wf_ind. intros l Hn.
  destruct l as [|x [|y l]]; [set_solver..|].
  rewrite pair_up_cons2. intros [->|He]%elem_of_cons; [set_solver|].
  destruct (IH (length l)) with (l := l) as [H1 H2];
    [simpl in Hn; lia|done|done|set_solver].
Qed.

Lemma row_fields_no_NL content l :
  l ∈ Py.readlines content → Forall (λ f, NL ∉ f) (row_fields l).
Proof.
  intros Hl. apply Forall_forall. intros f Hf Hin.
  eapply readlines_chop; [exact Hl|].
  by eapply split_on_chars.
Qed.

Lemma column_no_NL i r : Forall (λ f, NL ∉ f) r → NL ∉ column i r.
Proof.
  intros Hr. unfold column. rewrite nth_lookup.
  destruct (r !! i) as [f|] eqn:Hf; simpl; [|set_solver].
  rewrite Forall_forall in Hr. apply Hr. by eapply list_elem_of_lookup_2.
Qed.

Lemma join_no_NL (xs : list bytes) :
  Forall (λ f, NL ∉ f) xs → NL ∉ Py.join [SP] xs.
Proof.
  induction 1 as [|x xs Hx Hxs IH]; [set_solver|].
  destruct xs as [|y xs]; [done|].
  change (Py.join [SP] (x :: y :: xs))
    with (x ++ [SP] ++ Py.join [SP] (y :: xs)).
  rewrite !elem_of_app. intros [?|[Hsp|?]]; [done| |done].
  apply list_elem_of_singleton in Hsp. discriminate.
Qed.

Lemma turn_text_no_NL col turn :
  Forall (Forall (λ f, NL ∉ f)) turn → NL ∉ turn_text col turn.
Proof.
  intros Hturn. apply join_no_NL, Forall_fmap.
  eapply Forall_impl; [exact Hturn|]. intros r Hr. by apply column_no_NL.
Qed.

(** The rows of the turns are the rows read, each in one turn. *)
Lemma turns_from_rows (P : list bytes → Prop) current person rows :
  Forall P current → Forall P rows →
  Forall (Forall P) (turns_from current person rows).
Proof.
  intros Hcur Hrows. revert current person Hcur.
  induction Hrows as [|r rows Hr _ IH]; intros current person Hcur; cbn.
  - by repeat constructor.
  - case_decide.
    + apply IH. apply Forall_app. by repeat constructor.
    + constructor; [done|]. apply IH. by repeat constructor.
Qed.

Lemma exchanges_no_NL content e :
  e ∈ exchanges content → (NL ∉ fst e) ∧ (NL ∉ snd e).
Proof.
  unfold exchanges. intros He.
  assert (Forall (λ t, NL ∉ t)
            (turn_texts (row_of (hd [] (row_fields <$> Py.readlines content)))
                        (turns (row_fields <$> Py.readlines content)))) as Hall.
  { assert (Forall (Forall (λ f, NL ∉ f))
              (row_fields <$> Py.readlines content)) as Hrows.
    { apply Forall_fmap, Forall_forall. intros l Hl.
      by eapply row_fields_no_NL. }
    destruct (row_fields <$> Py.readlines content) as [|r rows]; [constructor|].
    apply Forall_cons in Hrows as [Hr Hrows]. cbn [turns hd].
    pose proof (turns_from_rows (Forall (λ f, NL ∉ f)) [r] (speaker r) rows)
      as Hts.
    destruct (turns_from [r] (speaker r) rows) as [|t ts]; [constructor|].
    apply Forall_cons in Hts as [Ht Hts]; [|by repeat constructor|done].
    cbn [turn_texts]. constructor; [by apply turn_text_no_NL|].
    apply Forall_fmap. eapply Forall_impl; [exact Hts|].
    intros t' Ht'. by apply turn_text_no_NL. }
  apply pair_up_elem in He as [H1 H2].
  rewrite Forall_forall in Hall. split; by apply Hall.
Qed.

Lemma enc_lines_read (exs : list (bytes * bytes)) :
  Forall (λ e, (NL ∉ fst e) ∧ (NL ∉ snd e)) exs →
  Py.readlines (concat (enc_lines exs)) = enc_lines exs ∧
  Py.readlines (concat (dec_lines exs)) = dec_lines exs.
Proof.
  intros Hexs.
  assert (enc_lines exs = (λ t, t ++ [NL]) <$> exs.*1) as ->
    by (unfold enc_lines; by rewrite <- list_fmap_compose).
  assert (dec_lines exs = (λ t, t ++ [NL]) <$> exs.*2) as ->
    by (unfold dec_lines; by rewrite <- list_fmap_compose).
  split; apply readlines_lines, Forall_fmap;
    (eapply Forall_impl; [exact Hexs|]); by intros e [? ?].
Qed.

End NoLineFeed.

(** ** Dialogue reformatter: the loop over the files and the split *)

Section Dataset.

Implicit Types (w : world) (st : loop_state) (tsvs : list string).

Lemma open_lines_run w tsv content :
  files w !! tsv = Some content →
  open_lines tsv w =
  (inr (Py.readlines content), World (files w) (trace w ++ [EvRead tsv])).
Proof.
  intros Hf. unfold open_lines, FS.read, log, bind, modify, gets, ret.
  cbn. by rewrite Hf.
Qed.

Lemma parse_files_run w tsvs :
  Forall (λ tsv, ∃ content,
            files w !! tsv = Some content ∧ well_formed content) tsvs →
  ∀ w0 st, files w0 = files w →
  ∃ st',
    parse_files tsvs (w0, st) =
      (inr tt, (World (files w) (trace w0 ++ (EvRead <$> tsvs)), st')) ∧
    enc_file st' =
      enc_file st ++ concat (enc_lines (tsvs ≫= exchanges_at w)) ∧
    dec_file st' =
      dec_file st ++ concat (dec_lines (tsvs ≫= exchanges_at w)) ∧
    total_line st' = total_line st + length (tsvs ≫= exchanges_at w).
Proof.
  induction 1 as [|tsv tsvs (content & Hc & Hwf) _ IH]; intros w0 st Hw0.
  - exists st. cbn. rewrite !app_nil_r, <- Hw0.
    destruct w0. split_and!; [done..|lia].
  - destruct (parse_tsv_exchanges content st Hwf)
      as (st1 & Hrun1 & Henc1 & Hdec1 & Htot1).
    destruct (IH (World (files w0) (trace w0 ++ [EvRead tsv])) st1)
      as (st' & Hrun & Henc & Hdec & Htot); [done|].
    exists st'. split.
    + unfold parse_files in *. cbn [for_each].
      unfold bind at 1. unfold bind at 1. unfold outer at 1. cbn [fst snd].
      rewrite (open_lines_run w0 tsv content) by by rewrite Hw0.
      unfold inner at 1. cbn [fst snd]. rewrite Hrun1.
      rewrite Hrun. cbn [trace]. by rewrite <- app_assoc.
    + rewrite bind_cons. unfold enc_lines, dec_lines in *.
      rewrite !fmap_app, !concat_app, length_app.
      unfold exchanges_at at 1 3 5. rewrite Hc.
      rewrite Henc, Hdec, Htot, Henc1, Hdec1, Htot1.
      rewrite <- !app_assoc. split_and!; [done..|lia].
Qed.

Lemma split_lines_take_drop split count (lines : list bytes) :
  split_lines split count lines =
  (concat (take (split - count) lines), concat (drop (split - count) lines)).
Proof.
  revert count. induction lines as [|line lines IH]; intros count.
  - by rewrite take_nil, drop_nil.
  - cbn [split_lines]. rewrite IH. case_decide as Hc.
    + replace (split - count) with (S (split - (count + 1))) by lia. done.
    + replace (split - count) with 0 by lia.
      replace (split - (count + 1)) with 0 by lia. by rewrite take_0, drop_0.
Qed.

Lemma exchanges_at_no_NL w tsvs :
  Forall (λ e, (NL ∉ fst e) ∧ (NL ∉ snd e)) (tsvs ≫= exchanges_at w).
Proof.
  apply Forall_forall. intros e He.
  apply list_elem_of_bind in He as (tsv & He & _).
  unfold exchanges_at in He. destruct (files w !! tsv); [|set_solver].
  by eapply exchanges_no_NL.
Qed.

End Dataset.

(** C1. After the loop of [create_my_dataset] over well-formed dialogue
    files of two speakers, the two temporary files have one line for each
    exchange of these files, in the order of the files and of the
    exchanges in each: line [N] of the encoder file is the first turn of
    the [N]-th exchange and line [N] of the decoder file its second turn,
    so both have as many lines and [total_line] counts them. The training
    files get the same first lines of both and the test files the others,
    which keeps them aligned too. *)
Theorem reformatter_aligned (tsvs : list string) (w : world) :
  Forall (λ tsv, ∃ content,
            files w !! tsv = Some content ∧ well_formed content) tsvs →
  let exs := tsvs ≫= exchanges_at w in
  ∃ (w' : world) (st : loop_state),
    parse_files tsvs (w, loop_init) = (inr tt, (w', st)) ∧
    files w' = files w ∧
    Py.readlines (enc_file st) = enc_lines exs ∧
    Py.readlines (dec_file st) = dec_lines exs ∧
    length (Py.readlines (enc_file st)) = length (Py.readlines (dec_file st)) ∧
    total_line st = length exs ∧
    let split := split_of (total_line st) in
    let enc := split_lines split 0 (Py.readlines (enc_file st)) in
    let dec := split_lines split 0 (Py.readlines (dec_file st)) in
    Py.readlines enc.1 = enc_lines (take split exs) ∧
    Py.readlines dec.1 = dec_lines (take split exs) ∧
    Py.readlines enc.2 = enc_lines (drop split exs) ∧
    Py.readlines dec.2 = dec_lines (drop split exs).
Proof.
  intros Hwf exs.
  destruct (parse_files_run w tsvs Hwf w loop_init eq_refl)
    as (st & Hrun & Henc & Hdec & Htot).
  cbn in Henc, Hdec, Htot. fold exs in Henc, Hdec, Htot.
  pose proof (exchanges_at_no_NL w tsvs) as Hnl. fold exs in Hnl.
  destruct (enc_lines_read exs Hnl) as [Hre Hrd].
  destruct (enc_lines_read (take (split_of (total_line st)) exs))
    as [Hte Htd]; [by apply Forall_take|].
  destruct (enc_lines_read (drop (split_of (total_line st)) exs))
    as [Hde Hdd]; [by apply Forall_drop|].
  eexists _, st. split; [exact Hrun|]. cbv zeta.
  rewrite Henc, Hdec, Hre, Hrd, !split_lines_take_drop, Nat.sub_0_r.
  cbn [fst snd files].
  unfold enc_lines, dec_lines in *.
  rewrite <- !fmap_take, <- !fmap_drop, !length_fmap.
  split_and!; done.
Qed.

Lemma reformatter_aligned_witness :
  let one := tsv_row ["1"; "A"; "B"; "hi"] ++ tsv_row ["2"; "A"; "B"; "there"] ++
             tsv_row ["3"; "B"; "A"; "yo"] ++ tsv_row ["4"; "A"; "B"; "bye"] in
  let two := tsv_row ["1"; "C"; "hello"] ++ tsv_row ["2"; "D"; "C"; "hey"] in
  let w := World {[ "d/1/a.tsv" := one; "d/1/b.tsv" := two ]} [] in
  let tsvs := ["d/1/a.tsv"; "d/1/b.tsv"] in
  let exs := tsvs ≫= exchanges_at w in
  exs = [(b "hi there", b "yo"); (b "hello", b "hey")] ∧
  ∃ (w' : world) (st : loop_state),
    parse_files tsvs (w, loop_init) = (inr tt, (w', st)) ∧
    files w' = files w ∧
    Py.readlines (enc_file st) = enc_lines exs ∧
    Py.readlines (dec_file st) = dec_lines exs ∧
    length (Py.readlines (enc_file st)) = length (Py.readlines (dec_file st)) ∧
    total_line st = length exs ∧
    let split := split_of (total_line st) in
    let enc := split_lines split 0 (Py.readlines (enc_file st)) in
    let dec := split_lines split 0 (Py.readlines (dec_file st)) in
    Py.readlines enc.1 = enc_lines (take split exs) ∧
    Py.readlines dec.1 = dec_lines (take split exs) ∧
    Py.readlines enc.2 = enc_lines (drop split exs) ∧
    Py.readlines dec.2 = dec_lines (drop split exs).
Proof.
  intros one two w tsvs exs. split; [reflexivity|].
  apply (reformatter_aligned tsvs w).
  repeat constructor.
  - exists one. split; [reflexivity|].
    unfold well_formed. vm_compute. split_and!; [lia| |].
    + repeat constructor.
    + apply Exists_cons_tl, Exists_cons_hd. discriminate.
  - exists two. split; [reflexivity|].
    unfold well_formed. vm_compute. split_and!; [lia| |].
    + repeat constructor.
    + apply Exists_cons_hd. discriminate.
Defined.

(** ** The whole reformatter on a small corpus *)

(** Two dialogues of two exchanges each and a monologue, which the
    filtering pass deletes; of the four exchanges three go to the
    training files and one to the test files. *)
Example create_my_dataset_small :
  let a := tsv_row ["1"; "A"; "B"; "hi"] ++ tsv_row ["2"; "B"; "A"; "yo"] ++
           tsv_row ["3"; "A"; "B"; "how are"] ++ tsv_row ["4"; "A"; "B"; "you"] ++
           tsv_row ["5"; "B"; "A"; "fine"] in
  let c := tsv_row ["1"; "C"; "hello"] ++ tsv_row ["2"; "D"; "C"; "hey"] ++
           tsv_row ["3"; "C"; "D"; "bye"] ++ tsv_row ["4"; "D"; "C"; "bye bye"] ++
           tsv_row ["5"; "C"; "D"; "not answered"] in
  let e := tsv_row ["1"; "E"; ""; "anyone"] ++ tsv_row ["2"; "E"; ""; "there"] in
  let w := World {[ "d/1/a.tsv" := a; "d/1/c.tsv" := c; "d/2/e.tsv" := e ]} [] in
  let glob (fs : gmap string bytes) (pattern : string) :=
    filter (λ path, is_Some (fs !! path))
           ["d/1/a.tsv"; "d/1/c.tsv"; "d/2/e.tsv"] in
  let r := create_my_dataset glob "d" "train.enc" "train.dec"
                             "test.enc" "test.dec" w in
  r.1 = inr tt ∧
  files r.2 !! "train.enc" =
    Some (b "hi" ++ [NL] ++ b "how are you" ++ [NL] ++ b "hello" ++ [NL]) ∧
  files r.2 !! "train.dec" =
    Some (b "yo" ++ [NL] ++ b "fine" ++ [NL] ++ b "hey" ++ [NL]) ∧
  files r.2 !! "test.enc" = Some (b "bye" ++ [NL]) ∧
  files r.2 !! "test.dec" = Some (b "bye bye" ++ [NL]) ∧
  files r.2 !! "d/2/e.tsv" = None ∧
  files r.2 !! "train.enc.tmp" = None ∧
  files r.2 !! "d/.one_way_conv_removed" = Some [].
Proof. vm_compute. split_and!; reflexivity. Qed.

(** A dialogue followed by a file whose only row has two fields: the
    loop raises at the second file, no output file is made, and the
    temporary files are left with the lines of the first dialogue. *)
Example create_my_dataset_short_first_row :
  let a := tsv_row ["1"; "A"; "B"; "hi"] ++ tsv_row ["2"; "B"; "A"; "yo"] in
  let c := tsv_row ["1"; "C"] in
  let w := World {[ "d/1/a.tsv" := a; "d/1/c.tsv" := c;
                    "d/.one_way_conv_removed" := [] ]} [] in
  let glob (fs : gmap string bytes) (pattern : string) :=
    ["d/1/a.tsv"; "d/1/c.tsv"] in
  let r := create_my_dataset glob "d" "train.enc" "train.dec"
                             "test.enc" "test.dec" w in
  r.1 = inl IndexError ∧
  files r.2 !! "train.enc" = None ∧
  files r.2 !! "test.enc" = None ∧
  files r.2 !! "train.enc.tmp" = Some (b "hi" ++ [NL]) ∧
  files r.2 !! "train.dec.tmp" = Some (b "yo" ++ [NL]).
Proof. vm_compute. split_and!; reflexivity. Qed.

(** * Further properties *)

(** ** Tokenizer *)

Section TokenizerMore.

Implicit Types (s w cur f : bytes).

(** The split of a fragment starts with a text without a mark, and
    every later piece is one mark or a text without a mark. *)
Lemma _WORD_SPLIT_split_shape s :
  ∃ t rest,
    _WORD_SPLIT_split s = t :: rest ∧
    Forall (λ c, is_word_split c = false) t ∧
    Forall (λ w, (∃ c, w = [c] ∧ is_word_split c = true) ∨
                 Forall (λ c, is_word_split c = false) w) rest.
Proof.
  induction s as [|x s (t & rest & Hs & Ht & Hrest)]; simpl.
  - exists [], []. by repeat constructor.
  - rewrite Hs. destruct (is_word_split x) eqn:Hx.
    + exists [], ([x] :: t :: rest). split_and!; [done|constructor|].
      constructor; [left; eauto|]. constructor; [by right|done].
    + exists (x :: t), rest. split_and!; [done|by constructor|done].
Qed.

Lemma _WORD_SPLIT_split_concat s : concat (_WORD_SPLIT_split s) = s.
Proof.
  induction s as [|x s IH]; simpl; [done|].
  destruct (is_word_split x).
  - simpl. by rewrite IH.
  - destruct (_WORD_SPLIT_split s) as [|f0 fs]; simpl in *; by rewrite <- IH.
Qed.

Lemma concat_filter_nonempty (l : list bytes) :
  concat (filter (λ w, nonempty w = true) l) = concat l.
Proof.
  induction l as [|w l IH]; [done|].
  rewrite filter_cons. case_decide as Hw.
  - simpl. by rewrite IH.
  - destruct w; [done|]. by destruct Hw.
Qed.

Lemma concat_bind_pieces (l : list bytes) :
  concat (l ≫= _WORD_SPLIT_split) = concat l.
Proof.
  induction l as [|f l IH]; [done|].
  rewrite bind_cons, concat_app, _WORD_SPLIT_split_concat. simpl.
  by rewrite IH.
Qed.

Lemma split_go_concat cur s :
  concat (Py.split_go cur s) =
  cur ++ filter (λ c, Py.is_whitespace c = false) s.
Proof.
  revert cur. induction s as [|c s IH]; intros cur; simpl.
  - destruct cur; simpl; by rewrite ?app_nil_r.
  - rewrite filter_cons. destruct (Py.is_whitespace c) eqn:Hc.
    + rewrite decide_False by done. rewrite concat_app, IH.
      destruct cur; simpl; by rewrite ?app_nil_r.
    + rewrite decide_True by done. rewrite IH. by rewrite <- app_assoc.
Qed.

Lemma lstrip_filter s :
  filter (λ c, Py.is_whitespace c = false) (Py.lstrip s) =
  filter (λ c, Py.is_whitespace c = false) s.
Proof.
  induction s as [|c s IH]; simpl; [done|].
  destruct (Py.is_whitespace c) eqn:Hc; [|done].
  rewrite filter_cons, decide_False by congruence. done.
Qed.

Lemma rstrip_filter s :
  filter (λ c, Py.is_whitespace c = false) (Py.rstrip s) =
  filter (λ c, Py.is_whitespace c = false) s.
Proof.
  induction s as [|c s IH]; simpl; [done|].
  rewrite (filter_cons _ c s), <- IH.
  destruct (Py.rstrip s) as [|r rs]; [|by rewrite filter_cons].
  destruct (Py.is_whitespace c) eqn:Hc.
  - by rewrite decide_False by congruence.
  - rewrite decide_True by done. rewrite filter_cons, decide_True by done. done.
Qed.

End TokenizerMore.

(** X1. Every token of [basic_tokenizer] is non-empty and holds no white
    space, and it is either one of the marks of [_WORD_SPLIT] alone or a
    text without any of these marks. *)
Theorem basic_tokenizer_tokens (sentence : bytes) :
  Forall (λ w, w ≠ [] ∧ no_whitespace w ∧
               ((∃ c, w = [c] ∧ is_word_split c = true) ∨
                Forall (λ c, is_word_split c = false) w))
         (basic_tokenizer sentence).
Proof.
  apply Forall_forall. intros w Hw.
  split_and!.
  - rewrite basic_tokenizer_words in Hw.
    apply list_elem_of_filter in Hw as [Hne _]. by destruct w.
  - by eapply basic_tokenizer_no_whitespace.
  - rewrite basic_tokenizer_words in Hw.
    apply list_elem_of_filter in Hw as [_ Hw].
    apply list_elem_of_bind in Hw as (f & Hw & _).
    destruct (_WORD_SPLIT_split_shape f) as (t & rest & Hf & Ht & Hrest).
    rewrite Hf in Hw. apply elem_of_cons in Hw as [->|Hw]; [by right|].
    rewrite Forall_forall in Hrest. by apply Hrest.
Qed.

(** X2. The tokens of [basic_tokenizer], put end to end, are the
    sentence without its white space: the tokenizer drops white space
    and nothing else, and keeps the order of the bytes. *)
Theorem basic_tokenizer_concat (sentence : bytes) :
  concat (basic_tokenizer sentence) =
  filter (λ c, Py.is_whitespace c = false) sentence.
Proof.
  rewrite basic_tokenizer_words, concat_filter_nonempty, concat_bind_pieces.
  unfold Py.split. rewrite split_go_concat. simpl.
  unfold Py.strip. by rewrite rstrip_filter, lstrip_filter.
Qed.

(** ** Tokenizer and digits *)

Section ClassPreserving.

(** A change of bytes that keeps white space white space and marks
    marks. *)
Variable g : ascii → ascii.
Hypothesis g_whitespace : ∀ c, Py.is_whitespace (g c) = Py.is_whitespace c.
Hypothesis g_word_split : ∀ c, is_word_split (g c) = is_word_split c.

Implicit Types (s cur : bytes).

Lemma lstrip_fmap s : Py.lstrip (g <$> s) = g <$> Py.lstrip s.
Proof using g_whitespace.
  induction s as [|c s IH]; [done|].
  csimpl. rewrite g_whitespace. by destruct (Py.is_whitespace c).
Qed.

Lemma rstrip_fmap s : Py.rstrip (g <$> s) = g <$> Py.rstrip s.
Proof using g_whitespace.
  induction s as [|c s IH]; [done|].
  csimpl. rewrite IH, g_whitespace.
  destruct (Py.rstrip s); [|done]. by destruct (Py.is_whitespace c).
Qed.

Lemma split_go_fmap cur s :
  Py.split_go (g <$> cur) (g <$> s) = fmap (M:=list) g <$> Py.split_go cur s.
Proof using g_whitespace.
  assert (∀ r, Py.flush (g <$> r) = fmap (M:=list) g <$> Py.flush r) as Hflush
    by by intros [|c r].
  revert cur. induction s as [|c s IH]; intros cur; csimpl; [done|].
  rewrite g_whitespace. destruct (Py.is_whitespace c).
  - rewrite fmap_app, Hflush. f_equal. apply (IH []).
  - rewrite <- IH. by rewrite fmap_app.
Qed.

Lemma _WORD_SPLIT_split_fmap s :
  _WORD_SPLIT_split (g <$> s) = fmap (M:=list) g <$> _WORD_SPLIT_split s.
Proof using g_word_split.
  induction s as [|c s IH]; [done|].
  csimpl. rewrite IH, g_word_split.
  destruct (is_word_split c); [done|].
  by destruct (_WORD_SPLIT_split s).
Qed.

Lemma filter_nonempty_fmap (l : list bytes) :
  filter (λ w, nonempty w = true) (fmap (M:=list) g <$> l) =
  fmap (M:=list) g <$> filter (λ w, nonempty w = true) l.
Proof using Type.
  induction l as [|w l IH]; [done|].
  csimpl. rewrite !filter_cons, IH.
  destruct w; csimpl; repeat case_decide; done.
Qed.

Lemma basic_tokenizer_fmap s :
  basic_tokenizer (g <$> s) = fmap (M:=list) g <$> basic_tokenizer s.
Proof using g_whitespace g_word_split.
  rewrite !basic_tokenizer_words. unfold Py.strip, Py.split.
  rewrite lstrip_fmap, rstrip_fmap.
  change (@nil ascii) with (g <$> @nil ascii) at 1.
  rewrite split_go_fmap, <- filter_nonempty_fmap. f_equal.
  generalize (Py.split_go [] (Py.rstrip (Py.lstrip s))). intros l.
  induction l as [|f l IH]; [done|].
  rewrite fmap_cons, !bind_cons, fmap_app, IH, _WORD_SPLIT_split_fmap. done.
Qed.

End ClassPreserving.

Lemma digit_whitespace c :
  Py.is_whitespace (if is_digit c then "0"%char else c) = Py.is_whitespace c.
Proof. destruct c as [[] [] [] [] [] [] [] []]; reflexivity. Qed.

Lemma digit_word_split c :
  is_word_split (if is_digit c then "0"%char else c) = is_word_split c.
Proof. destruct c as [[] [] [] [] [] [] [] []]; reflexivity. Qed.

(** X3. Tokenizing commutes with the normalization of digits: the tokens
    of the normalized sentence are the normalized tokens of the
    sentence. *)
Theorem basic_tokenizer_digits (sentence : bytes) :
  basic_tokenizer (_DIGIT_RE_sub0 sentence) =
  _DIGIT_RE_sub0 <$> basic_tokenizer sentence.
Proof.
  apply (basic_tokenizer_fmap _ digit_whitespace digit_word_split).
Qed.

(** X4. With the default tokenizer and the normalization of digits, two
    sentences that differ only in their digits get the same ids, whatever
    the vocabulary. *)
Theorem sentence_to_token_ids_digits_only (s s' : bytes)
    (vocabulary : gmap bytes Z) :
  _DIGIT_RE_sub0 s = _DIGIT_RE_sub0 s' →
  sentence_to_token_ids s vocabulary None true =
  sentence_to_token_ids s' vocabulary None true.
Proof.
  intros Heq.
  assert (∀ x, sentence_to_token_ids x vocabulary None true =
               (λ w, default UNK_ID (vocabulary !! w)) <$>
                 basic_tokenizer (_DIGIT_RE_sub0 x)) as Hids.
  { intros x. rewrite sentence_to_token_ids_eq, basic_tokenizer_digits.
    by rewrite <- list_fmap_compose. }
  by rewrite !Hids, Heq.
Qed.

Lemma sentence_to_token_ids_digits_only_witness :
  sentence_to_token_ids (b "room 42, 9 am") {[ b "room" := 7%Z ]} None true =
  sentence_to_token_ids (b "room 17, 8 am") {[ b "room" := 7%Z ]} None true.
Proof.
  apply (sentence_to_token_ids_digits_only (b "room 42, 9 am")
           (b "room 17, 8 am") {[ b "room" := 7%Z ]}).
  reflexivity.
Defined.

(** ** Vocabulary builder: counting and errors *)

(** X5. The counting loop of [create_vocabulary] ends with one entry for
    each distinct normalized token of the corpus, holding the number of
    its occurrences, and the entries are in the order in which the tokens
    are first met. *)
Theorem count_lines_counts (tokenizer : option (bytes → list bytes))
    (normalize_digits : bool) (corpus : bytes) :
  let tokens := corpus_tokens tokenizer normalize_digits corpus in
  let vocab := count_lines tokenizer normalize_digits (Py.readlines corpus) in
  NoDup vocab.*1 ∧
  (∀ t n, (t, n) ∈ vocab ↔ t ∈ tokens ∧ n = occurrences t tokens) ∧
  (∀ i j e e', i < j → vocab !! i = Some e → vocab !! j = Some e' →
               first_index e.1 tokens < first_index e'.1 tokens).
Proof.
  intros tokens vocab. subst vocab.
  rewrite count_lines_tokens. fold tokens. rewrite count_tokens_firsts.
  split_and!.
  - assert (((λ t, (t, occurrences t tokens)) <$> firsts tokens).*1 =
            firsts tokens) as ->
      by (rewrite <- list_fmap_compose; apply list_fmap_id).
    apply firsts_NoDup.
  - intros t n. rewrite list_elem_of_fmap. split.
    + intros (t' & [= -> ->] & Ht). by rewrite firsts_elem in Ht.
    + intros [Ht ->]. exists t. by rewrite firsts_elem.
  - intros i j e e' Hij Hi Hj.
    rewrite list_lookup_fmap in Hi, Hj.
    destruct (firsts tokens !! i) as [t|] eqn:Hti; [|done].
    destruct (firsts tokens !! j) as [u|] eqn:Htj; [|done].
    simpl in Hi, Hj. injection Hi as <-. injection Hj as <-. simpl.
    by apply (StronglySorted_lookup
                (λ t u, first_index t tokens < first_index u tokens)
                (firsts tokens) i j t u (firsts_sorted tokens)).
Qed.

(** X6. When there is no vocabulary file and no data file either,
    [create_vocabulary] raises the library's [NotFoundError] for the data
    file and writes nothing. *)
Theorem create_vocabulary_no_data (w : world)
    (vocabulary_path data_path : string) (max_vocabulary_size : Z)
    (tokenizer : option (bytes → list bytes)) (normalize_digits : bool) :
  files w !! vocabulary_path = None →
  files w !! data_path = None →
  create_vocabulary vocabulary_path data_path max_vocabulary_size
                    tokenizer normalize_digits w =
  (inl (NotFoundError data_path),
   World (files w) (trace w ++ [EvExists vocabulary_path; EvRead data_path])).
Proof.
  intros Hv Hd. unfold create_vocabulary.
  erewrite bind_run by apply path_exists_run.
  rewrite bool_decide_false by (rewrite Hv; by intros [? ?]).
  unfold FS.gfile_lines, FS.read, log, bind, modify, gets, ret, raise. simpl.
  rewrite Hd. by rewrite <- app_assoc.
Qed.

Lemma create_vocabulary_no_data_witness :
  let w := World {[ "other" := b "a" ]} [] in
  create_vocabulary "vocab" "data" 10 None true w =
  (inl (NotFoundError "data"),
   World (files w) (trace w ++ [EvExists "vocab"; EvRead "data"])).
Proof.
  intros w.
  apply (create_vocabulary_no_data w "vocab" "data" 10 None true);
    reflexivity.
Defined.



(** ** Vocabulary loader: errors and the two directions *)

Lemma vocab_of_lookup (l : list bytes) (tok : bytes) (z : Z) :
  vocab_of l !! tok = Some z → ∃ j, z = Z.of_nat j ∧ l !! j = Some tok.
Proof.
  induction l as [|x l IH] using rev_ind; [done|].
  rewrite vocab_of_snoc. destruct (decide (x = tok)) as [->|Hne].
  - rewrite lookup_insert_eq. intros [= <-]. exists (length l).
    split; [done|]. by rewrite lookup_app_r, Nat.sub_diag.
  - rewrite lookup_insert_ne by done. intros (j & -> & Hj)%IH.
    exists j. split; [done|]. by apply lookup_app_l_Some.
Qed.

Lemma vocab_of_elem (l : list bytes) (tok : bytes) :
  tok ∈ l ↔ is_Some (vocab_of l !! tok).
Proof.
  rewrite <- elem_of_dom, vocab_of_dom. by rewrite elem_of_list_to_set.
Qed.

(** X8. Without a vocabulary file, [initialize_vocabulary] raises
    [ValueError] with the path, and does nothing but the check that the
    file exists. *)
Theorem initialize_vocabulary_missing (w : world) (vocabulary_path : string) :
  files w !! vocabulary_path = None →
  initialize_vocabulary vocabulary_path w =
  (inl (ValueError "Vocabulary file %s not found." vocabulary_path),
   World (files w) (trace w ++ [EvExists vocabulary_path])).
Proof.
  intros Hv. unfold initialize_vocabulary.
  erewrite bind_run by apply path_exists_run.
  by rewrite bool_decide_false by (rewrite Hv; by intros [? ?]).
Qed.

Lemma initialize_vocabulary_missing_witness :
  let w := World {[ "data" := b "a" ]} [] in
  initialize_vocabulary "vocab" w =
  (inl (ValueError "Vocabulary file %s not found." "vocab"),
   World (files w) (trace w ++ [EvExists "vocab"])).
Proof.
  intros w. apply (initialize_vocabulary_missing w "vocab").
  reflexivity.
Defined.

(** X9. For every vocabulary file, the list returned by
    [initialize_vocabulary] has one entry for each line that the library
    reads from the file (without the carriage returns), the mapping has
    an entry for exactly the tokens of the list, and the id of a token is
    a position of the list that holds this token. *)
Theorem initialize_vocabulary_ids (w : world) (vocabulary_path : string)
    (content : bytes) :
  files w !! vocabulary_path = Some content →
  ∃ (vocab : gmap bytes Z) (rev_vocab : list bytes),
    (initialize_vocabulary vocabulary_path w).1 = inr (vocab, rev_vocab) ∧
    length rev_vocab = length (Py.readlines (FS.gfile_text content)) ∧
    (∀ tok, tok ∈ rev_vocab ↔ is_Some (vocab !! tok)) ∧
    (∀ tok id, vocab !! tok = Some id →
       ∃ i : nat, id = Z.of_nat i ∧ rev_vocab !! i = Some tok).
Proof.
  intros Hf. eexists _, _.
  rewrite (initialize_vocabulary_run w vocabulary_path content Hf).
  split_and!; [done| | |].
  - by rewrite length_fmap.
  - apply vocab_of_elem.
  - apply vocab_of_lookup.
Qed.

Lemma initialize_vocabulary_ids_witness :
  let content := b "dog" ++ [NL] ++ b " cat " ++ [CR; NL] ++
                 b "do" ++ [CR] ++ b "g" ++ [NL; CR] in
  let w := World {[ "vocab" := content ]} [] in
  length (Py.readlines (FS.gfile_text content)) = 3 ∧
  ∃ (vocab : gmap bytes Z) (rev_vocab : list bytes),
    (initialize_vocabulary "vocab" w).1 = inr (vocab, rev_vocab) ∧
    length rev_vocab = length (Py.readlines (FS.gfile_text content)) ∧
    (∀ tok, tok ∈ rev_vocab ↔ is_Some (vocab !! tok)) ∧
    (∀ tok id, vocab !! tok = Some id →
       ∃ i : nat, id = Z.of_nat i ∧ rev_vocab !! i = Some tok).
Proof.
  intros content w. split; [reflexivity|].
  apply (initialize_vocabulary_ids w "vocab" content).
  reflexivity.
Defined.

(** X10. When the lines that the library reads from the vocabulary file
    (without the carriage returns), once stripped, are all different,
    the mapping and the list returned by
    [initialize_vocabulary] are inverse of each other, and the mapping
    has as many entries as there are lines. *)
Theorem initialize_vocabulary_inverse (w : world) (vocabulary_path : string)
    (content : bytes) :
  files w !! vocabulary_path = Some content →
  NoDup (Py.strip <$> Py.readlines (FS.gfile_text content)) →
  ∃ (vocab : gmap bytes Z) (rev_vocab : list bytes),
    (initialize_vocabulary vocabulary_path w).1 = inr (vocab, rev_vocab) ∧
    size vocab = length (Py.readlines (FS.gfile_text content)) ∧
    (∀ tok (i : nat),
       vocab !! tok = Some (Z.of_nat i) ↔ rev_vocab !! i = Some tok).
Proof.
  intros Hf Hnd. eexists _, _.
  rewrite (initialize_vocabulary_run w vocabulary_path content Hf).
  split_and!; [done| |].
  - rewrite vocab_of_size, distinct_NoDup by done. by rewrite length_fmap.
  - intros tok i. split.
    + intros (j & Hj & Hl)%vocab_of_lookup.
      by apply Nat2Z.inj in Hj as ->.
    + intros Hi. destruct (vocab_of_last _ _ _ Hi) as (j & Hj & Hlj & _).
      rewrite Hj. do 2 f_equal. by eapply NoDup_lookup.
Qed.

Lemma initialize_vocabulary_inverse_witness :
  let content := b "_PAD" ++ [CR; NL] ++ b "do" ++ [CR] ++ b "g" ++ [NL] ++
                 b "cat" ++ [NL] in
  let w := World {[ "vocab" := content ]} [] in
  ∃ (vocab : gmap bytes Z) (rev_vocab : list bytes),
    (initialize_vocabulary "vocab" w).1 = inr (vocab, rev_vocab) ∧
    size vocab = length (Py.readlines (FS.gfile_text content)) ∧
    (∀ tok (i : nat),
       vocab !! tok = Some (Z.of_nat i) ↔ rev_vocab !! i = Some tok).
Proof.
  intros content w. apply (initialize_vocabulary_inverse w "vocab" content).
  - reflexivity.
  - vm_compute. repeat (apply NoDup_cons; split; [set_solver|]).
    apply NoDup_nil_2.
Defined.

(** ** Sentence encoder with a loaded vocabulary *)

(** X11. With the mapping and the list that [initialize_vocabulary]
    returns for a file, every id that [sentence_to_token_ids] gives
    decodes through the list: either the normalized token is not in the
    list and the id is the unknown id 3, or the id is a position of the
    list that holds the normalized token. *)
Theorem sentence_to_token_ids_decodes (w : world) (vocabulary_path : string)
    (content : bytes) :
  files w !! vocabulary_path = Some content →
  ∃ (vocab : gmap bytes Z) (rev_vocab : list bytes),
    (initialize_vocabulary vocabulary_path w).1 = inr (vocab, rev_vocab) ∧
    ∀ (sentence : bytes) (tokenizer : option (bytes → list bytes))
      (normalize_digits : bool) (i : nat) (word : bytes),
      tokenize tokenizer sentence !! i = Some word →
      let ids :=
        sentence_to_token_ids sentence vocab tokenizer normalize_digits in
      let token := normalize normalize_digits word in
      ((token ∉ rev_vocab) ∧ ids !! i = Some UNK_ID) ∨
      (∃ n : nat, ids !! i = Some (Z.of_nat n) ∧ rev_vocab !! n = Some token).
Proof.
  intros Hf. eexists _, _.
  rewrite (initialize_vocabulary_run w vocabulary_path content Hf).
  split; [done|].
  intros sentence tokenizer normalize_digits i word Hi ids token. subst ids.
  rewrite sentence_to_token_ids_eq, list_lookup_fmap, Hi. simpl. fold token.
  destruct (vocab_of _ !! token) as [id|] eqn:Hid; simpl.
  - right. apply vocab_of_lookup in Hid as (n & -> & Hn). eauto.
  - left. split; [|done]. rewrite vocab_of_elem, Hid. by intros [? ?].
Qed.

Lemma sentence_to_token_ids_decodes_witness :
  let content := b "_PAD" ++ [NL] ++ b "dog" ++ [NL] ++ b "00" ++ [NL] in
  let w := World {[ "vocab" := content ]} [] in
  ∃ (vocab : gmap bytes Z) (rev_vocab : list bytes),
    (initialize_vocabulary "vocab" w).1 = inr (vocab, rev_vocab) ∧
    ∀ (sentence : bytes) (tokenizer : option (bytes → list bytes))
      (normalize_digits : bool) (i : nat) (word : bytes),
      tokenize tokenizer sentence !! i = Some word →
      let ids :=
        sentence_to_token_ids sentence vocab tokenizer normalize_digits in
      let token := normalize normalize_digits word in
      ((token ∉ rev_vocab) ∧ ids !! i = Some UNK_ID) ∨
      (∃ n : nat, ids !! i = Some (Z.of_nat n) ∧ rev_vocab !! n = Some token).
Proof.
  intros content w. apply (sentence_to_token_ids_decodes w "vocab" content).
  reflexivity.
Defined.



(** ** Corpus tokenizer *)

Section CorpusTokenizer.

Lemma string_of_uint_no_NL (d : Decimal.uint) :
  NL ∉ list_ascii_of_string (NilEmpty.string_of_uint d).
Proof.
  induction d; simpl; [set_solver|..];
    (apply not_elem_of_cons; split; [discriminate|done]).
Qed.

Lemma str_no_NL (n : Z) : NL ∉ Py.str n.
Proof.
  unfold Py.str, NilZero.string_of_int.
  assert (∀ d, NL ∉ list_ascii_of_string (NilZero.string_of_uint d)) as Hu.
  { intros d. unfold NilZero.string_of_uint.
    destruct d; try apply string_of_uint_no_NL.
    simpl. apply not_elem_of_cons. split; [discriminate|set_solver]. }
  destruct (Z.to_int n); [apply Hu|].
  simpl. apply not_elem_of_cons. split; [discriminate|apply Hu].
Qed.

Lemma ids_lines_read vocab tokenizer normalize_digits (lines : list bytes) :
  Py.readlines (concat (ids_line vocab tokenizer normalize_digits <$> lines)) =
  ids_line vocab tokenizer normalize_digits <$> lines.
Proof.
  assert (ids_line vocab tokenizer normalize_digits <$> lines =
          (λ t, t ++ [NL]) <$>
            ((λ line, Py.join [SP]
                (Py.str <$> sentence_to_token_ids line vocab tokenizer
                              normalize_digits)) <$> lines)) as ->
    by by rewrite <- list_fmap_compose.
  apply readlines_lines, Forall_fmap, Forall_forall. intros line _.
  apply join_no_NL, Forall_fmap, Forall_forall. intros id _. apply str_no_NL.
Qed.

End CorpusTokenizer.

(** X13. When the target is to be made, from a data file that holds
    more than carriage returns and a vocabulary file that is there,
    [data_to_token_ids] writes a target with one line for each line that
    the library reads from the data file, in the same order: the ids of
    the tokens of that line in decimal, one space between two of them,
    with the vocabulary as the library reads it. No other file
    changes. *)
Theorem data_to_token_ids_lines (w : world)
    (data_path target_path vocabulary_path : string)
    (data vocabulary : bytes)
    (tokenizer : option (bytes → list bytes)) (normalize_digits : bool) :
  files w !! target_path = None →
  files w !! vocabulary_path = Some vocabulary →
  files w !! data_path = Some data →
  FS.gfile_text data ≠ [] →
  ∃ (w' : world) (content : bytes) (vocab : gmap bytes Z)
    (rev_vocab : list bytes),
    data_to_token_ids data_path target_path vocabulary_path
                      tokenizer normalize_digits w = (inr tt, w') ∧
    (initialize_vocabulary vocabulary_path w).1 = inr (vocab, rev_vocab) ∧
    files w' !! target_path = Some content ∧
    Py.readlines content =
      ids_line vocab tokenizer normalize_digits <$> Py.readlines (FS.gfile_text data) ∧
    length (Py.readlines content) = length (Py.readlines (FS.gfile_text data)) ∧
    (∀ path, path ≠ target_path → files w' !! path = files w !! path).
Proof.
  intros Ht Hv Hd Hne.
  assert (∃ l ls, Py.readlines (FS.gfile_text data) = l :: ls) as (l & ls & Hlines).
  { destruct (FS.gfile_text data) as [|c text]; [done|]. simpl.
    case_decide; [eauto|]. destruct (Py.readlines text); eauto. }
  eexists _, _, _, _. split_and!.
  - unfold data_to_token_ids.
    erewrite bind_run by apply path_exists_run.
    rewrite bool_decide_false by (rewrite Ht; by intros [? ?]).
    cbn [negb].
    erewrite bind_run; last first.
    { apply (initialize_vocabulary_run _ vocabulary_path vocabulary).
      exact Hv. }
    erewrite bind_run; last first.
    { unfold FS.gfile_lines, FS.read, log, bind, modify, gets, ret. cbn.
      rewrite Hd. reflexivity. }
    cbn [fst].
    change (fmap _ (Py.readlines (FS.gfile_text data)))
      with (ids_line
              (vocab_of (Py.strip <$> Py.readlines (FS.gfile_text vocabulary)))
              tokenizer normalize_digits <$> Py.readlines (FS.gfile_text data)).
    rewrite Hlines, fmap_cons.
    unfold FS.gfile_write, FS.write, log, bind, modify.
    cbn. reflexivity.
  - by rewrite (initialize_vocabulary_run w vocabulary_path vocabulary Hv).
  - cbn [files]. by rewrite lookup_insert_eq.
  - rewrite Hlines. exact (ids_lines_read _ _ _ (l :: ls)).
  - rewrite Hlines.
    etrans; [exact (f_equal length (ids_lines_read _ _ _ (l :: ls)))|].
    by rewrite length_fmap.
  - intros path Hpath. cbn [files]. by rewrite lookup_insert_ne.
Qed.

Lemma data_to_token_ids_lines_witness :
  let vocabulary := b "_PAD" ++ [NL] ++ b "_GO" ++ [NL] ++ b "_EOS" ++ [NL] ++
                    b "_UNK" ++ [NL] ++ b "do" ++ [CR] ++ b "g" ++ [NL] ++
                    b "00" ++ [CR; NL] in
  let data := b "dog 42" ++ [CR; NL] ++ [NL] ++ b "d" ++ [CR] ++ b "og cat" ++
              [NL; CR] in
  let w := World {[ "vocab" := vocabulary; "data" := data ]} [] in
  files (data_to_token_ids "data" "ids" "vocab" None true w).2 !! "ids" =
    Some (b "4 5" ++ [NL] ++ [NL] ++ b "4 3" ++ [NL]) ∧
  ∃ (w' : world) (content : bytes) (vocab : gmap bytes Z)
    (rev_vocab : list bytes),
    data_to_token_ids "data" "ids" "vocab" None true w = (inr tt, w') ∧
    (initialize_vocabulary "vocab" w).1 = inr (vocab, rev_vocab) ∧
    files w' !! "ids" = Some content ∧
    Py.readlines content = ids_line vocab None true <$> Py.readlines (FS.gfile_text data) ∧
    length (Py.readlines content) = length (Py.readlines (FS.gfile_text data)) ∧
    (∀ path, path ≠ "ids" → files w' !! path = files w !! path).
Proof.
  intros vocabulary data w. split; [by vm_compute|].
  apply (data_to_token_ids_lines w "data" "ids" "vocab" data vocabulary
           None true); [reflexivity | reflexivity | reflexivity | discriminate].
Defined.

(** The line of ids of a sentence, for the example of the witness: known
    tokens, an unknown one, and an empty line. *)
Example ids_line_example :
  let vocab : gmap bytes Z := {[ b "dog" := 4%Z; b "00" := 5%Z ]} in
  ids_line vocab None true (b "dog 42 cat" ++ [NL]) = b "4 5 3" ++ [NL] ∧
  ids_line vocab None true [NL] = [NL].
Proof. vm_compute. split; reflexivity. Qed.

(** X14. When the target is to be made and a file it needs is missing,
    [data_to_token_ids] raises and writes nothing: [ValueError] without
    the vocabulary file, before the data file is opened, and the
    library's [NotFoundError] without the data file. *)
Theorem data_to_token_ids_missing (w : world)
    (data_path target_path vocabulary_path : string)
    (tokenizer : option (bytes → list bytes)) (normalize_digits : bool) :
  files w !! target_path = None →
  (files w !! vocabulary_path = None →
   data_to_token_ids data_path target_path vocabulary_path
                     tokenizer normalize_digits w =
   (inl (ValueError "Vocabulary file %s not found." vocabulary_path),
    World (files w)
          (trace w ++ [EvExists target_path; EvExists vocabulary_path]))) ∧
  (is_Some (files w !! vocabulary_path) →
   files w !! data_path = None →
   data_to_token_ids data_path target_path vocabulary_path
                     tokenizer normalize_digits w =
   (inl (NotFoundError data_path),
    World (files w)
          (trace w ++ [EvExists target_path; EvExists vocabulary_path;
                       EvRead vocabulary_path; EvRead data_path]))).
Proof.
  intros Ht. split.
  - intros Hv. unfold data_to_token_ids.
    erewrite bind_run by apply path_exists_run.
    rewrite bool_decide_false by (rewrite Ht; by intros [? ?]).
    cbn [negb]. unfold bind.
    rewrite initialize_vocabulary_missing by done.
    cbn. by rewrite <- app_assoc.
  - intros [vocabulary Hv] Hd. unfold data_to_token_ids.
    erewrite bind_run by apply path_exists_run.
    rewrite bool_decide_false by (rewrite Ht; by intros [? ?]).
    cbn [negb].
    erewrite bind_run; last first.
    { apply (initialize_vocabulary_run _ vocabulary_path vocabulary).
      exact Hv. }
    unfold FS.gfile_lines, FS.read, log, bind, modify, gets, ret, raise. cbn.
    rewrite Hd. by rewrite <- !app_assoc.
Qed.

Lemma data_to_token_ids_missing_witness :
  let w := World {[ "vocab" := b "dog" ++ [NL] ]} [] in
  (files w !! "nowhere" = None →
   data_to_token_ids "data" "ids" "nowhere" None true w =
   (inl (ValueError "Vocabulary file %s not found." "nowhere"),
    World (files w) (trace w ++ [EvExists "ids"; EvExists "nowhere"]))) ∧
  (is_Some (files w !! "nowhere") →
   files w !! "data" = None →
   data_to_token_ids "data" "ids" "nowhere" None true w =
   (inl (NotFoundError "data"),
    World (files w)
          (trace w ++ [EvExists "ids"; EvExists "nowhere";
                       EvRead "nowhere"; EvRead "data"]))).
Proof.
  intros w. apply (data_to_token_ids_missing w "data" "ids" "nowhere" None true).
  reflexivity.
Defined.

(** ** The filtering pass *)

Section Filtering.

Variable glob : gmap string bytes → string → list string.

Implicit Types (w : world) (tsvs : list string) (lines persons : list bytes).

Lemma write_run path content w :
  FS.write path content w =
  (inr tt, World (<[path := content]> (files w)) (trace w ++ [EvWrite path])).
Proof using Type. reflexivity. Qed.

Lemma remove_run path content w :
  files w !! path = Some content →
  FS.remove path w =
  (inr tt, World (delete path (files w)) (trace w ++ [EvRemove path])).
Proof using Type.
  intros Hf. unfold FS.remove, log, bind, modify, gets. cbn. by rewrite Hf.
Qed.

Lemma glob_run pattern w :
  glob_glob glob pattern w =
  (inr (glob (files w) pattern), World (files w) (trace w ++ [EvGlob pattern])).
Proof using Type. reflexivity. Qed.

Lemma bind_raise {S A B} (c : M S A) (k : A → M S B) s e s' :
  c s = (inl e, s') → bind c k s = (inl e, s').
Proof using Type. intros H. unfold bind. by rewrite H. Qed.

Lemma for_each_app {S A} (l k : list A) (body : A → M S unit) s :
  for_each (l ++ k) body s = (for_each l body ;; for_each k body) s.
Proof using Type.
  revert s. induction l as [|x l IH]; intros s; cbn [app for_each].
  - done.
  - unfold bind. destruct (body x s) as [[e|u] s']; [done|].
    rewrite IH. done.
Qed.

(** The loop over the lines of a file collects the speakers in the
    order they come, as long as every line has a tab. *)
Lemma collect_run lines persons :
  Forall (λ l, 1 < length (Py.split_on TAB l)) lines →
  for_each lines collect_person persons =
  (inr tt, foldl (λ acc x, if decide (x ∈ acc) then acc else acc ++ [x])
                 persons (person_of <$> lines)).
Proof using Type.
  intros Hlines. revert persons.
  induction Hlines as [|l lines Hl _ IH]; intros persons; [done|].
  cbn [for_each]. unfold bind at 1, collect_person at 1.
  unfold getitem, bind. rewrite (lookup_column _ 1 Hl).
  cbn [ret gets]. rewrite fmap_cons. cbn [foldl].
  fold (person_of l).
  destruct (decide (person_of l ∈ persons)) as [Hin|Hin].
  - rewrite decide_False by tauto. cbn [ret]. apply IH.
  - rewrite decide_True by done. cbn [modify]. apply IH.
Qed.

Lemma collect_fail lines persons :
  Exists (λ l, length (Py.split_on TAB l) ≤ 1) lines →
  (for_each lines collect_person persons).1 = inl IndexError.
Proof using Type.
  intros Hex. revert persons.
  induction lines as [|l lines IH]; intros persons;
    [by apply Exists_nil in Hex|].
  cbn [for_each]. unfold bind at 1, collect_person at 1.
  unfold getitem, bind.
  destruct (decide (1 < length (Py.split_on TAB l))) as [Hl|Hl].
  - apply Exists_cons in Hex as [?|Hex]; [lia|].
    rewrite (lookup_column _ 1 Hl). cbn [ret gets].
    case_decide; cbn [ret modify]; apply IH; done.
  - rewrite lookup_ge_None_2 by lia. done.
Qed.

Lemma filter_body_run tsv content w :
  files w !! tsv = Some content →
  Forall (λ l, 1 < length (Py.split_on TAB l)) (Py.readlines content) →
  ∃ w',
    filter_body tsv w = (inr tt, w') ∧
    files w' = if decide (length (persons_of content) < 2)
               then delete tsv (files w) else files w.
Proof using Type.
  intros Hf Hlines. unfold filter_body.
  erewrite bind_run by by apply open_lines_run.
  unfold bind at 1, with_local, inner. cbn [fst snd].
  rewrite (collect_run _ [] Hlines). cbn [fst snd].
  fold (firsts (person_of <$> Py.readlines content)).
  fold (persons_of content).
  case_decide.
  - erewrite remove_run by (cbn [files]; exact Hf). eauto.
  - eauto.
Qed.

Lemma filter_body_fail tsv content w :
  files w !! tsv = Some content →
  Exists (λ l, length (Py.split_on TAB l) ≤ 1) (Py.readlines content) →
  ∃ w', filter_body tsv w = (inl IndexError, w') ∧ files w' = files w.
Proof using Type.
  intros Hf Hlines. unfold filter_body.
  erewrite bind_run by by apply open_lines_run.
  unfold bind at 1, with_local, inner. cbn [fst snd].
  pose proof (collect_fail (Py.readlines content) [] Hlines) as Hfail.
  destruct (for_each (Py.readlines content) collect_person [])
    as [r persons]. cbn in Hfail. subst r. eauto.
Qed.

(** The loop over the files deletes the files with fewer than two
    speakers and leaves every other file as it is. *)
Lemma filter_loop_run tsvs w :
  NoDup tsvs →
  Forall (λ tsv, ∃ content,
            files w !! tsv = Some content ∧
            Forall (λ l, 1 < length (Py.split_on TAB l))
                   (Py.readlines content)) tsvs →
  ∃ w',
    for_each tsvs filter_body w = (inr tt, w') ∧
    ∀ path,
      files w' !! path =
      match files w !! path with
      | Some content =>
          if decide (path ∈ tsvs ∧ length (persons_of content) < 2)
          then None else Some content
      | None => None
      end.
Proof using Type.
  intros Hnd Hall. revert w Hall.
  induction Hnd as [|tsv tsvs Hnin Hnd IH]; intros w Hall.
  - exists w. split; [done|]. intros path.
    destruct (files w !! path); [|done].
    rewrite decide_False; [done|]. intros [Hin _]. by apply elem_of_nil in Hin.
  - apply Forall_cons in Hall as [(content & Hf & Hlines) Hall].
    destruct (filter_body_run tsv content w Hf Hlines) as (w1 & Hrun1 & Hw1).
    assert (∀ path, path ≠ tsv → files w1 !! path = files w !! path) as Hother.
    { intros path Hpath. rewrite Hw1. case_decide; [|done].
      by rewrite lookup_delete_ne. }
    destruct (IH w1) as (w' & Hrun & Hw').
    { rewrite Forall_forall in Hall |- *. intros tsv' Hin.
      destruct (Hall tsv' Hin) as (c & Hc & Hl). exists c. split; [|done].
      rewrite Hother; [done|]. by intros ->. }
    exists w'. split.
    { cbn [for_each]. by erewrite bind_run by exact Hrun1. }
    intros path. rewrite Hw'.
    destruct (decide (path = tsv)) as [->|Hpath].
    + rewrite Hw1, Hf. case_decide as Hone.
      * rewrite lookup_delete_eq. rewrite decide_True; [done|].
        split; [set_solver|done].
      * rewrite Hf. rewrite !decide_False; [done|tauto|tauto].
    + rewrite Hother by done. destruct (files w !! path) as [c|]; [|done].
      destruct (decide (path ∈ tsvs ∧ length (persons_of c) < 2)) as [Hd|Hd].
      * rewrite decide_True; [done|]. split; [set_solver|tauto].
      * rewrite decide_False; [done|].
        intros [[?|?]%elem_of_cons ?]; [done|tauto].
Qed.

(** The loop stops with [IndexError] at the first file that has a line
    without a tab; that file is not deleted. *)
Lemma filter_loop_fail pre bad post content w :
  NoDup (pre ++ bad :: post) →
  Forall (λ tsv, ∃ content,
            files w !! tsv = Some content ∧
            Forall (λ l, 1 < length (Py.split_on TAB l))
                   (Py.readlines content)) pre →
  files w !! bad = Some content →
  Exists (λ l, length (Py.split_on TAB l) ≤ 1) (Py.readlines content) →
  ∃ w',
    for_each (pre ++ bad :: post) filter_body w = (inl IndexError, w') ∧
    files w' !! bad = Some content ∧
    (∀ path, files w !! path = None → files w' !! path = None) ∧
    (∀ path,
       files w' !! path =
       match files w !! path with
       | Some content =>
           if decide (path ∈ pre ∧ length (persons_of content) < 2)
           then None else Some content
       | None => None
       end).
Proof using Type.
  intros Hnd Hpre Hbad Hex.
  apply NoDup_app in Hnd as (Hnd_pre & Hdisj & _).
  destruct (filter_loop_run pre w Hnd_pre Hpre) as (w1 & Hrun1 & Hw1).
  assert (files w1 !! bad = Some content) as Hbad1.
  { rewrite Hw1, Hbad. rewrite decide_False; [done|].
    intros [Hin _]. apply (Hdisj bad Hin). set_solver. }
  destruct (filter_body_fail bad content w1 Hbad1 Hex) as (w' & Hrun & Hw').
  exists w'. split_and!.
  - rewrite for_each_app. erewrite bind_run by exact Hrun1.
    cbn [for_each]. by erewrite bind_raise by exact Hrun.
  - by rewrite Hw'.
  - intros path Hnone. by rewrite Hw', Hw1, Hnone.
  - intros path. by rewrite Hw', Hw1.
Qed.

End Filtering.

(** X15. Once the marker file [.one_way_conv_removed] is there,
    [rm_one_way_conv] does nothing but check that it exists: no dialogue
    file is listed, read or deleted. *)
Theorem rm_one_way_conv_done
    (glob : gmap string bytes → string → list string)
    (dialogs_path : string) (w : world) :
  is_Some (files w !! (dialogs_path +:+ "/.one_way_conv_removed")) →
  rm_one_way_conv glob dialogs_path w =
  (inr tt,
   World (files w)
         (trace w ++ [EvExists (dialogs_path +:+ "/.one_way_conv_removed")])).
Proof.
  intros Hs. unfold rm_one_way_conv.
  erewrite bind_run by apply path_exists_run.
  by rewrite bool_decide_true.
Qed.

Lemma rm_one_way_conv_done_witness :
  let w := World {[ "d/.one_way_conv_removed" := [];
                    "d/1/a.tsv" := tsv_row ["1"; "A"; "B"; "alone"] ]} [] in
  rm_one_way_conv (λ _ _, ["d/1/a.tsv"]) "d" w =
  (inr tt,
   World (files w) (trace w ++ [EvExists ("d" +:+ "/.one_way_conv_removed")])).
Proof.
  intros w. apply (rm_one_way_conv_done (λ _ _, ["d/1/a.tsv"]) "d" w).
  vm_compute. eauto.
Defined.

(** X16. When the marker file is not there and every line of every listed
    file has a tab, [rm_one_way_conv] deletes exactly the listed files in
    which fewer than two different speakers write, leaves every other
    file as it is and creates the empty marker file. *)
Theorem rm_one_way_conv_effect
    (glob : gmap string bytes → string → list string)
    (dialogs_path : string) (w : world) :
  let marker := dialogs_path +:+ "/.one_way_conv_removed" in
  let tsvs := glob (files w) (dialogs_path +:+ "/**/*.tsv") in
  files w !! marker = None →
  NoDup tsvs →
  Forall (λ tsv, ∃ content,
            files w !! tsv = Some content ∧
            Forall (λ l, 1 < length (Py.split_on TAB l))
                   (Py.readlines content)) tsvs →
  ∃ w' : world,
    rm_one_way_conv glob dialogs_path w = (inr tt, w') ∧
    files w' !! marker = Some [] ∧
    ∀ path, path ≠ marker →
      files w' !! path =
      match files w !! path with
      | Some content =>
          if decide (path ∈ tsvs ∧ length (persons_of content) < 2)
          then None else Some content
      | None => None
      end.
Proof.
  intros marker tsvs Hm Hnd Hall.
  destruct (filter_loop_run tsvs
              (World (files w)
                 ((trace w ++ [EvExists marker]) ++
                  [EvGlob (dialogs_path +:+ "/**/*.tsv")])) Hnd Hall)
    as (w1 & Hrun & Hw1).
  eexists. split_and!.
  - unfold rm_one_way_conv. fold marker.
    erewrite bind_run by apply path_exists_run.
    rewrite bool_decide_false by (rewrite Hm; by intros [? ?]).
    cbn [negb]. erewrite bind_run by apply glob_run.
    cbn [files trace]. fold tsvs.
    change (for_each tsvs _) with (for_each tsvs filter_body).
    erewrite bind_run by exact Hrun.
    apply write_run.
  - cbn [files]. by rewrite lookup_insert_eq.
  - intros path Hpath. cbn [files]. rewrite lookup_insert_ne by done.
    apply Hw1.
Qed.

Lemma rm_one_way_conv_effect_witness :
  let w := World {[ "d/1/a.tsv" := tsv_row ["1"; "A"; "B"; "hi"] ++
                                   tsv_row ["2"; "B"; "A"; "yo"];
                    "d/1/b.tsv" := tsv_row ["1"; "C"; ""; "alone"] ++
                                   tsv_row ["2"; "C"; ""; "still"] ]} [] in
  let glob (fs : gmap string bytes) (pattern : string) :=
    filter (λ path, is_Some (fs !! path)) ["d/1/a.tsv"; "d/1/b.tsv"] in
  let marker := "d" +:+ "/.one_way_conv_removed" in
  let tsvs := glob (files w) ("d" +:+ "/**/*.tsv") in
  ∃ w' : world,
    rm_one_way_conv glob "d" w = (inr tt, w') ∧
    files w' !! marker = Some [] ∧
    ∀ path, path ≠ marker →
      files w' !! path =
      match files w !! path with
      | Some content =>
          if decide (path ∈ tsvs ∧ length (persons_of content) < 2)
          then None else Some content
      | None => None
      end.
Proof.
  intros w glob marker tsvs.
  apply (rm_one_way_conv_effect glob "d" w).
  - reflexivity.
  - vm_compute. repeat (apply NoDup_cons; split; [set_solver|]).
    apply NoDup_nil_2.
  - vm_compute. repeat constructor.
    + eexists. split; [reflexivity|]. vm_compute. repeat constructor.
    + eexists. split; [reflexivity|]. vm_compute. repeat constructor.
Defined.

(** X17. A line without a tab, such as an empty line, makes
    [rm_one_way_conv] raise [IndexError]. The files listed before the
    one with that line have been dealt with: those with fewer than two
    speakers are deleted and the others are as they were. The file with
    that line and every file listed after it are still there, no other
    file has changed, and the marker file is not created, so the next
    call starts the pass again. *)
Theorem rm_one_way_conv_no_tab
    (glob : gmap string bytes → string → list string)
    (dialogs_path : string) (w : world)
    (pre : list string) (bad : string) (post : list string)
    (content : bytes) :
  let marker := dialogs_path +:+ "/.one_way_conv_removed" in
  files w !! marker = None →
  glob (files w) (dialogs_path +:+ "/**/*.tsv") = pre ++ bad :: post →
  NoDup (pre ++ bad :: post) →
  Forall (λ tsv, ∃ content,
            files w !! tsv = Some content ∧
            Forall (λ l, 1 < length (Py.split_on TAB l))
                   (Py.readlines content)) pre →
  files w !! bad = Some content →
  Exists (λ l, length (Py.split_on TAB l) ≤ 1) (Py.readlines content) →
  ∃ w' : world,
    rm_one_way_conv glob dialogs_path w = (inl IndexError, w') ∧
    files w' !! bad = Some content ∧
    files w' !! marker = None ∧
    (∀ path,
       files w' !! path =
       match files w !! path with
       | Some content =>
           if decide (path ∈ pre ∧ length (persons_of content) < 2)
           then None else Some content
       | None => None
       end).
Proof.
  intros marker Hm Hglob Hnd Hpre Hbad Hex.
  destruct (filter_loop_fail pre bad post content
              (World (files w)
                 ((trace w ++ [EvExists marker]) ++
                  [EvGlob (dialogs_path +:+ "/**/*.tsv")]))
              Hnd Hpre Hbad Hex)
    as (w1 & Hrun & Hw1 & Hnone & Hpaths).
  exists w1. split_and!; [|done|by apply Hnone|exact Hpaths].
  unfold rm_one_way_conv. fold marker.
  erewrite bind_run by apply path_exists_run.
  rewrite bool_decide_false by (rewrite Hm; by intros [? ?]).
  cbn [negb]. erewrite bind_run by apply glob_run.
  cbn [files trace]. rewrite Hglob.
  change (for_each (pre ++ bad :: post) _)
    with (for_each (pre ++ bad :: post) filter_body).
  by erewrite bind_raise by exact Hrun.
Qed.

(** Of the two files listed before the one with an empty line, the one
    of a single speaker is deleted and the other stays; the file of a
    single speaker listed after it is not reached. *)
Lemma rm_one_way_conv_no_tab_witness :
  let alone := tsv_row ["1"; "C"; ""; "anyone"] ++
               tsv_row ["2"; "C"; ""; "there"] in
  let both := tsv_row ["1"; "A"; "B"; "hi"] ++ tsv_row ["2"; "B"; "A"; "yo"] in
  let content := tsv_row ["1"; "A"; "B"; "hi"] ++
                 tsv_row ["2"; "B"; "A"; "yo"] ++ [NL] in
  let w := World {[ "d/1/a.tsv" := alone; "d/1/b.tsv" := both;
                    "d/1/c.tsv" := content; "d/1/e.tsv" := alone ]} [] in
  let pre := ["d/1/a.tsv"; "d/1/b.tsv"] in
  let glob (fs : gmap string bytes) (pattern : string) :=
    pre ++ "d/1/c.tsv" :: ["d/1/e.tsv"] in
  let marker := "d" +:+ "/.one_way_conv_removed" in
  (files (rm_one_way_conv glob "d" w).2 !! "d/1/a.tsv" = None ∧
   files (rm_one_way_conv glob "d" w).2 !! "d/1/b.tsv" = Some both ∧
   files (rm_one_way_conv glob "d" w).2 !! "d/1/e.tsv" = Some alone) ∧
  ∃ w' : world,
    rm_one_way_conv glob "d" w = (inl IndexError, w') ∧
    files w' !! "d/1/c.tsv" = Some content ∧
    files w' !! marker = None ∧
    (∀ path,
       files w' !! path =
       match files w !! path with
       | Some content =>
           if decide (path ∈ pre ∧ length (persons_of content) < 2)
           then None else Some content
       | None => None
       end).
Proof.
  intros alone both content w pre glob marker.
  split; [by vm_compute|].
  apply (rm_one_way_conv_no_tab glob "d" w pre "d/1/c.tsv" ["d/1/e.tsv"]
           content).
  - reflexivity.
  - reflexivity.
  - vm_compute. repeat (apply NoDup_cons; split; [set_solver|]).
    apply NoDup_nil_2.
  - repeat constructor.
    + eexists. split; [reflexivity|]. vm_compute. repeat constructor.
    + eexists. split; [reflexivity|]. vm_compute. repeat constructor.
  - reflexivity.
  - vm_compute. apply Exists_cons_tl, Exists_cons_tl, Exists_cons_hd. lia.
Defined.

(** ** The main pass on any input *)

Section AnyInput.

Implicit Types (line l : bytes) (lines : list bytes) (st : loop_state).
Implicit Types (person : bytes) (s t : bytes).

Lemma line_feeds_app s t : line_feeds (s ++ t) = line_feeds s + line_feeds t.
Proof. unfold line_feeds. by rewrite filter_app, length_app. Qed.

Lemma line_feeds_none s : NL ∉ s → line_feeds s = 0.
Proof.
  intros Hs. unfold line_feeds. induction s as [|c s IH]; [done|].
  rewrite filter_cons. case_decide; [set_solver|]. apply IH. set_solver.
Qed.

Lemma line_feeds_message l i :
  NL ∉ Py.chop l → line_feeds (SP :: column i (row_fields l)) = 0.
Proof.
  intros Hl. apply line_feeds_none, not_elem_of_cons. split; [discriminate|].
  apply column_no_NL, Forall_forall. intros f Hf Hin.
  apply Hl. by eapply split_on_chars.
Qed.

Lemma line_feeds_column l i :
  NL ∉ Py.chop l → line_feeds (column i (row_fields l)) = 0.
Proof.
  intros Hl. apply line_feeds_none.
  apply column_no_NL, Forall_forall. intros f Hf Hin.
  apply Hl. by eapply split_on_chars.
Qed.

(** The main loop raises nothing and only adds text to the two files;
    with [file_to_write] at 1 a line of the decoder file is open, and the
    line feeds of the decoder file together with that open line go with
    [total_line]. *)
Lemma main_scan_inv lines :
  ∀ file_to_write person st, file_to_write ≤ 1 →
  ∃ file_to_write' st' e d,
    main_scan file_to_write person lines st = (inr file_to_write', st') ∧
    file_to_write' ≤ 1 ∧
    enc_file st' = enc_file st ++ e ∧
    dec_file st' = dec_file st ++ d ∧
    total_line st ≤ total_line st' ∧
    (Forall (λ l, NL ∉ Py.chop l) lines →
     line_feeds d + open_line file_to_write' + total_line st =
     open_line file_to_write + total_line st').
Proof.
  induction lines as [|l lines IH]; intros file_to_write person st Hftw.
  - exists file_to_write, st, [], []. rewrite !app_nil_r.
    split_and!; [done..|]. intros _. cbn. lia.
  - destruct (decide (length (row_fields l) ≤ 3)) as [Hshort|Hlong].
    { destruct (IH file_to_write person st Hftw)
        as (f' & st' & e & d & Hrun & Hf' & He & Hd & Ht & Hbal).
      exists f', st', e, d. rewrite main_scan_skip by done.
      split_and!; [done..|]. intros Hnl. apply Hbal.
      by apply Forall_cons in Hnl as [_ ?]. }
    assert (3 < length (row_fields l)) as Hlen by lia. clear Hlong.
    assert (file_to_write = 0 ∨ file_to_write = 1) as [-> | ->] by lia;
      destruct (decide (speaker (row_fields l) = person)) as [Hp|Hp].
    + rewrite main_scan_same_enc by done.
      destruct (IH 0 person
                  (LoopState (enc_file st) (dec_file st)
                     (str_buffer st ++ SP :: column 3 (row_fields l))
                     (total_line st)))
        as (f' & st' & e & d & Hrun & Hf' & He & Hd & Ht & Hbal); [lia|].
      exists f', st', e, d. split_and!; [done..|].
      intros [_ Hnl]%Forall_cons. by apply Hbal.
    + rewrite main_scan_change_enc by done.
      destruct (IH 1 (speaker (row_fields l))
                  (LoopState (enc_file st ++ str_buffer st ++ [NL])
                     (dec_file st ++ column 3 (row_fields l))
                     (str_buffer st ++ [NL]) (total_line st + 1)))
        as (f' & st' & e & d & Hrun & Hf' & He & Hd & Ht & Hbal); [lia|].
      cbn in He, Hd, Ht, Hbal.
      exists f', st', ((str_buffer st ++ [NL]) ++ e),
        (column 3 (row_fields l) ++ d).
      split_and!; [done|done| | |lia|].
      { rewrite He. by rewrite <- !app_assoc. }
      { rewrite Hd. by rewrite <- !app_assoc. }
      intros [Hl Hnl]%Forall_cons. specialize (Hbal Hnl).
      rewrite line_feeds_app, line_feeds_column by done.
      change (open_line 1) with 1 in Hbal. change (open_line 0) with 0. lia.
    + rewrite main_scan_same_dec by done.
      destruct (IH 1 person
                  (LoopState (enc_file st)
                     (dec_file st ++ SP :: column 3 (row_fields l))
                     (str_buffer st) (total_line st)))
        as (f' & st' & e & d & Hrun & Hf' & He & Hd & Ht & Hbal); [lia|].
      cbn in He, Hd, Ht, Hbal.
      exists f', st', e, ((SP :: column 3 (row_fields l)) ++ d).
      rewrite Hd, !app_assoc. split_and!; [done..|].
      intros [Hl Hnl]%Forall_cons. specialize (Hbal Hnl).
      rewrite line_feeds_app, line_feeds_message by done. lia.
    + rewrite main_scan_change_dec by done.
      destruct (IH 0 (speaker (row_fields l))
                  (LoopState (enc_file st) (dec_file st ++ [NL])
                     (column 3 (row_fields l)) (total_line st)))
        as (f' & st' & e & d & Hrun & Hf' & He & Hd & Ht & Hbal); [lia|].
      cbn in He, Hd, Ht, Hbal.
      exists f', st', e, ([NL] ++ d).
      rewrite Hd, !app_assoc. split_and!; [done..|].
      intros [Hl Hnl]%Forall_cons. specialize (Hbal Hnl).
      rewrite line_feeds_app.
      change (open_line 1) with 1. change (open_line 0) with 0 in Hbal.
      change (line_feeds [NL]) with 1. lia.
Qed.

End AnyInput.

Section AnyFile.

Implicit Types (line l : bytes) (lines : list bytes) (st : loop_state).
Implicit Types (person : bytes).

(** The loop over the opening turn, on rows none of which has exactly 3
    fields. *)
Lemma first_turn_inv row lines :
  row ≤ 3 →
  Forall (λ l, length (row_fields l) ≠ 3) lines →
  ∀ person st,
  ∃ file_to_write person' rest st' e d k,
    first_turn row person lines st = (inr (file_to_write, person', rest), st') ∧
    file_to_write ≤ 1 ∧
    rest = drop k lines ∧
    enc_file st' = enc_file st ++ e ∧
    dec_file st' = dec_file st ++ d ∧
    (Forall (λ l, NL ∉ Py.chop l) lines →
     line_feeds d + open_line file_to_write + total_line st = total_line st').
Proof.
  intros Hrow Hlines. induction Hlines as [|l lines Hl _ IH]; intros person st.
  - exists 0, person, [], st, [], [], 0. rewrite !app_nil_r.
    split_and!; [done|lia|done..|]. intros _. change (open_line 0) with 0.
    change (line_feeds []) with 0. lia.
  - destruct (decide (length (row_fields l) < 3)) as [Hshort|Hlong].
    { exists 0, person, lines, st, [], [], 1. rewrite !app_nil_r.
      rewrite first_turn_short by done. split_and!; [done|lia|done..|].
      intros _. change (open_line 0) with 0.
    change (line_feeds []) with 0. lia. }
    assert (3 < length (row_fields l)) as Hlen by lia.
    destruct (decide (speaker (row_fields l) = person)) as [Hp|Hp].
    + erewrite first_turn_same;
        [|lia|by rewrite lookup_speaker by lia; f_equal
         |by apply lookup_column; lia].
      destruct (IH person
                  (LoopState (enc_file st ++ SP :: column row (row_fields l))
                     (dec_file st) (str_buffer st) (total_line st)))
        as (f' & p' & rest & st' & e & d & k & Hrun & Hf' & Hrest & He & Hd
            & Hbal).
      cbn in He, Hd, Hbal.
      exists f', p', rest, st', ((SP :: column row (row_fields l)) ++ e), d,
        (S k).
      split_and!; [done..| |done|].
      * rewrite He. by rewrite <- !app_assoc.
      * intros [_ Hnl]%Forall_cons. by apply Hbal.
    + erewrite first_turn_change;
        [|lia|by apply lookup_speaker; lia|done|by apply lookup_column].
      exists 1, (speaker (row_fields l)), lines,
        (LoopState (enc_file st ++ [NL])
           (dec_file st ++ column 3 (row_fields l))
           (str_buffer st) (total_line st + 1)), [NL],
        (column 3 (row_fields l)), 1.
      cbn. split_and!; [done|lia|done..|].
      intros [Hnl _]%Forall_cons.
      rewrite line_feeds_column by done. change (open_line 1) with 1. lia.
Qed.

(** The body of the loop on a file that can be read to its end. *)
Lemma parse_tsv_inv first lines st :
  3 ≤ length (row_fields first) →
  Forall (λ l, length (row_fields l) ≠ 3) lines →
  ∃ st' e d,
    parse_tsv (first :: lines) st = (inr tt, st') ∧
    enc_file st' = enc_file st ++ e ∧
    dec_file st' = dec_file st ++ d ∧
    (Forall (λ l, NL ∉ Py.chop l) lines →
     line_feeds d + total_line st = total_line st').
Proof.
  intros Hfirst Hlines.
  set (row := row_of (row_fields first)).
  assert (row ≤ 3 ∧ row < length (row_fields first)) as [Hrow3 Hrow].
  { subst row. unfold row_of. case_decide; lia. }
  destruct (first_turn_inv row lines Hrow3 Hlines (speaker (row_fields first))
              (LoopState (enc_file st ++ column row (row_fields first))
                 (dec_file st) (str_buffer st) (total_line st)))
    as (f1 & p1 & rest & st1 & e1 & d1 & k & Hrun1 & Hf1 & Hrest & He1 & Hd1
        & Hbal1).
  destruct (main_scan_inv rest f1 p1 st1 Hf1)
    as (f2 & st2 & e2 & d2 & Hrun2 & Hf2 & He2 & Hd2 & _ & Hbal2).
  cbn in He1, Hd1, Hbal1.
  assert (∃ st' d3,
            finish_file f2 st2 = (inr tt, st') ∧
            enc_file st' = enc_file st2 ∧
            dec_file st' = dec_file st2 ++ d3 ∧
            total_line st' = total_line st2 ∧
            line_feeds d3 = open_line f2) as (st' & d3 & Hfin & He3 & Hd3 & Ht3
                                              & Hlf3).
  { unfold finish_file, open_line. case_decide as Hf.
    - subst f2. eexists _, [NL]. by split_and!.
    - exists st2, []. rewrite app_nil_r. by split_and!. }
  exists st', (column row (row_fields first) ++ e1 ++ e2), (d1 ++ d2 ++ d3).
  split_and!.
  - unfold parse_tsv. cbn [hd tl].
    change (Py.split_on TAB (Py.chop first)) with (row_fields first).
    fold row. unfold getitem at 1 2.
    rewrite lookup_speaker, (lookup_column _ row) by (done || lia).
    unfold bind at 1 2 3. cbn [ret write modify].
    unfold bind at 1. rewrite Hrun1. unfold bind. by rewrite Hrun2.
  - rewrite He3, He2, He1. by rewrite <- !app_assoc.
  - rewrite Hd3, Hd2, Hd1. by rewrite <- !app_assoc.
  - intros Hnl. rewrite Ht3.
    specialize (Hbal1 Hnl).
    assert (Forall (λ l, NL ∉ Py.chop l) rest) as Hnl'
      by (subst rest; by apply Forall_drop).
    specialize (Hbal2 Hnl').
    rewrite !line_feeds_app, Hlf3. lia.
Qed.

End AnyFile.

(** X18. Started with [file_to_write] at 0 or 1, the main loop over the
    lines of a file raises nothing, whatever the lines are; it ends with
    [file_to_write] at 0 or 1, only adds text at the end of the two
    temporary files and never lowers [total_line]. *)
Theorem main_scan_never_raises (file_to_write : nat) (last_person : bytes)
    (tsv_file : list bytes) (st : loop_state) :
  file_to_write ≤ 1 →
  ∃ (file_to_write' : nat) (st' : loop_state) (e d : bytes),
    main_scan file_to_write last_person tsv_file st = (inr file_to_write', st') ∧
    file_to_write' ≤ 1 ∧
    enc_file st' = enc_file st ++ e ∧
    dec_file st' = dec_file st ++ d ∧
    total_line st ≤ total_line st'.
Proof.
  intros Hftw.
  destruct (main_scan_inv tsv_file file_to_write last_person st Hftw)
    as (f' & st' & e & d & Hrun & Hf' & He & Hd & Ht & _).
  by exists f', st', e, d.
Qed.

Lemma main_scan_never_raises_witness :
  let tsv_file := [tsv_row ["1"; "A"; "B"; "hi"]; [NL]; b "no tab";
                   tsv_row ["2"; "B"; "yo"]; tsv_row ["3"; "B"; "A"; "x"]] in
  ∃ (file_to_write' : nat) (st' : loop_state) (e d : bytes),
    main_scan 1 (b "B") tsv_file loop_init = (inr file_to_write', st') ∧
    file_to_write' ≤ 1 ∧
    enc_file st' = enc_file loop_init ++ e ∧
    dec_file st' = dec_file loop_init ++ d ∧
    total_line loop_init ≤ total_line st'.
Proof.
  intros tsv_file.
  apply (main_scan_never_raises 1 (b "B") tsv_file loop_init). lia.
Defined.

(** X19. A file whose first row has fewer than 3 fields, an empty file
    among them, makes the body of the loop raise [IndexError] before
    anything is written. *)
Theorem parse_tsv_short_first_row (tsv_file : list bytes) (st : loop_state) :
  length (row_fields (hd [] tsv_file)) < 3 →
  parse_tsv tsv_file st = (inl IndexError, st).
Proof.
  intros Hlen. unfold parse_tsv.
  change (Py.split_on TAB (Py.chop (hd [] tsv_file)))
    with (row_fields (hd [] tsv_file)).
  destruct (row_fields (hd [] tsv_file)) as [|f0 [|f1 [|f2 fs]]] eqn:Hrow;
    cbn in Hlen; try lia; reflexivity.
Qed.

Lemma parse_tsv_short_first_row_witness :
  parse_tsv [] loop_init = (inl IndexError, loop_init) ∧
  parse_tsv [b "1" ++ [TAB] ++ b "A" ++ [NL]] loop_init =
    (inl IndexError, loop_init).
Proof.
  split.
  - apply (parse_tsv_short_first_row [] loop_init). vm_compute. lia.
  - apply (parse_tsv_short_first_row [b "1" ++ [TAB] ++ b "A" ++ [NL]]
             loop_init). vm_compute. lia.
Defined.

Lemma parse_files_inv (w : world) (tsvs : list string) :
  Forall (λ tsv, ∃ content,
            files w !! tsv = Some content ∧ scannable content) tsvs →
  ∀ w0 st, files w0 = files w →
  ∃ w' st' e d,
    parse_files tsvs (w0, st) = (inr tt, (w', st')) ∧
    files w' = files w ∧
    enc_file st' = enc_file st ++ e ∧
    dec_file st' = dec_file st ++ d ∧
    line_feeds d + total_line st = total_line st'.
Proof.
  induction 1 as [|tsv tsvs (content & Hc & Hscan) _ IH]; intros w0 st Hw0.
  - exists w0, st, [], []. rewrite !app_nil_r. split_and!; [done..|].
    change (line_feeds []) with 0. lia.
  - unfold scannable in Hscan.
    pose proof (readlines_chop content) as Hnl.
    destruct (Py.readlines content) as [|first lines] eqn:Hlines; [done|].
    rewrite fmap_cons in Hscan. destruct Hscan as [Hfirst Hrest].
    rewrite Forall_fmap in Hrest.
    destruct (parse_tsv_inv first lines st Hfirst Hrest)
      as (st1 & e1 & d1 & Hrun1 & He1 & Hd1 & Hbal1).
    destruct (IH (World (files w0) (trace w0 ++ [EvRead tsv])) st1)
      as (w' & st' & e & d & Hrun & Hw' & He & Hd & Hbal); [done|].
    exists w', st', (e1 ++ e), (d1 ++ d). split_and!; [|done| | |].
    + unfold parse_files in *. cbn [for_each].
      unfold bind at 1. unfold bind at 1. unfold outer at 1. cbn [fst snd].
      rewrite (open_lines_run w0 tsv content) by by rewrite Hw0.
      unfold inner at 1. cbn [fst snd]. rewrite Hlines, Hrun1. exact Hrun.
    + rewrite He, He1. by rewrite <- app_assoc.
    + rewrite Hd, Hd1. by rewrite <- app_assoc.
    + rewrite line_feeds_app, <- Hbal, <- Hbal1; [lia|].
      apply Forall_forall. intros l Hl. apply Hnl. set_solver.
Qed.

(** X20. For dialogue files that the main pass reads to the end (the
    first row has at least 3 fields, no other row has exactly 3), with
    any mixture of complete rows, shorter rows, empty lines and files of
    one speaker, the loop of [create_my_dataset] raises nothing, leaves
    the files as they are, and ends with [total_line] equal to the number
    of lines of the decoder file. *)
Theorem parse_files_total_line (tsvs : list string) (w : world) :
  Forall (λ tsv, ∃ content,
            files w !! tsv = Some content ∧ scannable content) tsvs →
  ∃ (w' : world) (st : loop_state),
    parse_files tsvs (w, loop_init) = (inr tt, (w', st)) ∧
    files w' = files w ∧
    total_line st = line_feeds (dec_file st).
Proof.
  intros Hall.
  destruct (parse_files_inv w tsvs Hall w loop_init eq_refl)
    as (w' & st & e & d & Hrun & Hw' & He & Hd & Hbal).
  exists w', st. split_and!; [done..|].
  rewrite Hd. change (dec_file loop_init ++ d) with d.
  change (total_line loop_init) with 0 in Hbal. lia.
Qed.

Lemma parse_files_total_line_witness :
  let one := tsv_row ["1"; "A"; "B"; "hi"] ++ [NL] ++
             tsv_row ["2"; "B"; "A"; "yo"] ++ b "no tab" ++ [NL] ++
             tsv_row ["3"; "A"; "B"; "bye"] in
  let two := tsv_row ["1"; "C"; "alone"] ++ tsv_row ["2"; "C"; "D"; "still"] in
  let w := World {[ "d/1/a.tsv" := one; "d/1/b.tsv" := two ]} [] in
  ∃ (w' : world) (st : loop_state),
    parse_files ["d/1/b.tsv"; "d/1/a.tsv"] (w, loop_init) =
      (inr tt, (w', st)) ∧
    files w' = files w ∧
    total_line st = line_feeds (dec_file st).
Proof.
  intros one two w.
  apply (parse_files_total_line ["d/1/b.tsv"; "d/1/a.tsv"] w).
  repeat constructor.
  - exists two. split; [reflexivity|]. unfold scannable. vm_compute.
    split; [lia|]. repeat constructor; lia.
  - exists one. split; [reflexivity|]. unfold scannable. vm_compute.
    split; [lia|]. repeat constructor; lia.
Defined.




(** ** The split and the existence checks of the whole preparation *)

Lemma split_of_bounds (n : nat) :
  split_of n ≤ n ∧ (0 < n → split_of n < n) ∧ (split_of n = 0 ↔ n ≤ 1).
Proof.
  unfold split_of.
  pose proof (Nat.div_mod_eq (n * 3) 4) as Hdiv.
  pose proof (Nat.mod_upper_bound (n * 3) 4) as Hmod.
  lia.
Qed.

(** X22. The split index [int(total_line*(3/4))] is the largest number
    whose fourfold is at most three times [total_line]. Whatever the
    count [total_line] and the lines of a temporary file are, the copy
    loop loses nothing and keeps the order: the training file gets the
    first [split] lines and the test file the others, so everything goes
    to the training file when the file has no more than [split] lines.
    When [total_line] is the number of lines and there is a line, the
    test file is not empty; with a count of at most 1 the training file
    is empty. *)
Theorem split_lines_partition (total_line : nat) (lines : list bytes) :
  let split := split_of total_line in
  let parts := split_lines split 0 lines in
  4 * split ≤ 3 * total_line < 4 * split + 4 ∧
  parts.1 = concat (take split lines) ∧
  parts.2 = concat (drop split lines) ∧
  parts.1 ++ parts.2 = concat lines ∧
  (length lines ≤ split → parts.1 = concat lines ∧ parts.2 = []) ∧
  (total_line = length lines → 0 < length lines →
   length (take split lines) = split ∧ drop split lines ≠ []) ∧
  (total_line ≤ 1 → parts.1 = [] ∧ parts.2 = concat lines).
Proof.
  intros split parts. subst parts.
  rewrite split_lines_take_drop, Nat.sub_0_r. cbn [fst snd].
  destruct (split_of_bounds total_line) as (Hle & Hlt & Hzero).
  fold split in Hle, Hlt, Hzero. split_and!; [| |done|done| | | |].
  - subst split. unfold split_of.
    pose proof (Nat.div_mod_eq (total_line * 3) 4).
    pose proof (Nat.mod_upper_bound (total_line * 3) 4). lia.
  - subst split. unfold split_of.
    pose proof (Nat.div_mod_eq (total_line * 3) 4).
    pose proof (Nat.mod_upper_bound (total_line * 3) 4). lia.
  - by rewrite <- concat_app, take_drop.
  - intros Hlen. by rewrite take_ge, drop_ge.
  - intros Htot Hpos. split.
    + rewrite length_take. lia.
    + intros Hnil. apply (f_equal length) in Hnil.
      rewrite length_drop in Hnil. simpl in Hnil. lia.
  - intros Hone. apply Hzero in Hone. by rewrite Hone, take_0, drop_0.
Qed.

Lemma create_vocabulary_exists (w : world)
    (vocabulary_path data_path : string) (max_vocabulary_size : Z)
    (tokenizer : option (bytes → list bytes)) (normalize_digits : bool) :
  is_Some (files w !! vocabulary_path) →
  create_vocabulary vocabulary_path data_path max_vocabulary_size
                    tokenizer normalize_digits w =
  (inr tt, World (files w) (trace w ++ [EvExists vocabulary_path])).
Proof.
  intros Hv. unfold create_vocabulary.
  erewrite bind_run by apply path_exists_run.
  by rewrite bool_decide_true.
Qed.

Lemma data_to_token_ids_exists (w : world)
    (data_path target_path vocabulary_path : string)
    (tokenizer : option (bytes → list bytes)) (normalize_digits : bool) :
  is_Some (files w !! target_path) →
  data_to_token_ids data_path target_path vocabulary_path
                    tokenizer normalize_digits w =
  (inr tt, World (files w) (trace w ++ [EvExists target_path])).
Proof.
  intros Ht. unfold data_to_token_ids.
  erewrite bind_run by apply path_exists_run.
  by rewrite bool_decide_true.
Qed.

Lemma create_my_dataset_exists
    (glob : gmap string bytes → string → list string)
    (dialogs_path train_enc train_dec test_enc test_dec : string) (w : world) :
  is_Some (files w !! train_enc) →
  is_Some (files w !! train_dec) →
  create_my_dataset glob dialogs_path train_enc train_dec test_enc test_dec w =
  (inr tt,
   World (files w) (trace w ++ [EvExists train_enc; EvExists train_dec])).
Proof.
  intros He Hd. unfold create_my_dataset.
  erewrite bind_run by apply path_exists_run.
  rewrite bool_decide_true by done.
  erewrite bind_run by apply path_exists_run.
  cbn [files trace]. rewrite bool_decide_true by done.
  by rewrite <- app_assoc.
Qed.

(** X23. [create_my_dataset] looks at the two training files only: when
    both are there it returns at once, also when a test file is missing,
    and a missing test file is not made. *)
Theorem create_my_dataset_checks_training_only
    (glob : gmap string bytes → string → list string)
    (dialogs_path train_enc train_dec test_enc test_dec : string) (w : world) :
  is_Some (files w !! train_enc) →
  is_Some (files w !! train_dec) →
  files w !! test_enc = None →
  ∃ w' : world,
    create_my_dataset glob dialogs_path train_enc train_dec
                      test_enc test_dec w = (inr tt, w') ∧
    files w' = files w ∧
    files w' !! test_enc = None.
Proof.
  intros He Hd Ht. eexists. split; [by apply create_my_dataset_exists|].
  by cbn [files].
Qed.

Lemma create_my_dataset_checks_training_only_witness :
  let w := World {[ "train.enc" := b "hi" ++ [NL];
                    "train.dec" := b "yo" ++ [NL] ]} [] in
  ∃ w' : world,
    create_my_dataset (λ _ _, []) "d" "train.enc" "train.dec"
                      "test.enc" "test.dec" w = (inr tt, w') ∧
    files w' = files w ∧
    files w' !! "test.enc" = None.
Proof.
  intros w.
  apply (create_my_dataset_checks_training_only (λ _ _, []) "d" "train.enc"
           "train.dec" "test.enc" "test.dec" w);
    [vm_compute; eauto | vm_compute; eauto | reflexivity].
Defined.

(** X24. A vocabulary file that is there is never made again: after a
    first call of [create_vocabulary] has written the file, a second call
    for the same path leaves it as it is, also with another data file or
    another cap. *)
Theorem create_vocabulary_not_rebuilt (w : world)
    (vocabulary_path data_path data_path' : string) (corpus : bytes)
    (max_vocabulary_size max_vocabulary_size' : Z)
    (tokenizer tokenizer' : option (bytes → list bytes))
    (normalize_digits normalize_digits' : bool) :
  files w !! vocabulary_path = None →
  files w !! data_path = Some corpus →
  (0 < max_vocabulary_size)%Z →
  ∃ w1 w2 : world,
    create_vocabulary vocabulary_path data_path max_vocabulary_size
                      tokenizer normalize_digits w = (inr tt, w1) ∧
    create_vocabulary vocabulary_path data_path' max_vocabulary_size'
                      tokenizer' normalize_digits' w1 = (inr tt, w2) ∧
    is_Some (files w1 !! vocabulary_path) ∧
    files w2 = files w1.
Proof.
  intros Hv Hd Hmax. eexists _, _. split_and!.
  - by apply (create_vocabulary_run w vocabulary_path data_path corpus).
  - apply create_vocabulary_exists. cbn [files].
    rewrite lookup_insert_eq. eauto.
  - cbn [files]. rewrite lookup_insert_eq. eauto.
  - done.
Qed.

Lemma create_vocabulary_not_rebuilt_witness :
  let w := World {[ "data" := b "a b" ++ [NL]; "more" := b "c d e" ++ [NL] ]}
                 [] in
  ∃ w1 w2 : world,
    create_vocabulary "vocab" "data" 10 None true w = (inr tt, w1) ∧
    create_vocabulary "vocab" "more" 50 None false w1 = (inr tt, w2) ∧
    is_Some (files w1 !! "vocab") ∧
    files w2 = files w1.
Proof.
  intros w.
  apply (create_vocabulary_not_rebuilt w "vocab" "data" "more"
           (b "a b" ++ [NL]) 10 50 None None true false);
    [reflexivity | reflexivity | lia].
Defined.

(** X25. When the two training files, the two vocabulary files and the
    four files of ids are all there, [prepare_my_data] changes no file
    and returns the six paths: those of the ids of the training and test
    files, named after them and the vocabulary sizes, and those of the
    two vocabularies in the working directory. *)
Theorem prepare_my_data_done
    (glob : gmap string bytes → string → list string)
    (working_directory train_enc train_dec test_enc test_dec : string)
    (enc_vocabulary_size dec_vocabulary_size : Z)
    (tokenizer : option (bytes → list bytes)) (w : world) :
  let enc_vocab_path :=
    os_path_join working_directory
      ("vocab" +:+ percent_d enc_vocabulary_size +:+ ".enc") in
  let dec_vocab_path :=
    os_path_join working_directory
      ("vocab" +:+ percent_d dec_vocabulary_size +:+ ".dec") in
  let enc_train_ids := train_enc +:+ ".ids" +:+ percent_d enc_vocabulary_size in
  let dec_train_ids := train_dec +:+ ".ids" +:+ percent_d dec_vocabulary_size in
  let enc_dev_ids := test_enc +:+ ".ids" +:+ percent_d enc_vocabulary_size in
  let dec_dev_ids := test_dec +:+ ".ids" +:+ percent_d dec_vocabulary_size in
  Forall (λ path, is_Some (files w !! path))
         [train_enc; train_dec; enc_vocab_path; dec_vocab_path;
          enc_train_ids; dec_train_ids; enc_dev_ids; dec_dev_ids] →
  ∃ w' : world,
    prepare_my_data glob working_directory train_enc train_dec test_enc
                    test_dec enc_vocabulary_size dec_vocabulary_size
                    tokenizer w =
      (inr (enc_train_ids, dec_train_ids, enc_dev_ids, dec_dev_ids,
            enc_vocab_path, dec_vocab_path), w') ∧
    files w' = files w.
Proof.
  intros enc_vocab_path dec_vocab_path enc_train_ids dec_train_ids
    enc_dev_ids dec_dev_ids Hall.
  repeat (apply Forall_cons in Hall as [? Hall]).
  eexists. split.
  - unfold prepare_my_data.
    erewrite bind_run by by apply create_my_dataset_exists.
    erewrite bind_run by by apply create_vocabulary_exists.
    erewrite bind_run by by apply create_vocabulary_exists.
    erewrite bind_run by by apply data_to_token_ids_exists.
    erewrite bind_run by by apply data_to_token_ids_exists.
    erewrite bind_run by by apply data_to_token_ids_exists.
    erewrite bind_run by by apply data_to_token_ids_exists.
    reflexivity.
  - done.
Qed.

Lemma prepare_my_data_done_witness :
  let w := World (list_to_map
                    ((λ path, (path, b "x" ++ [NL])) <$>
                       ["train.enc"; "train.dec"; "work/vocab20000.enc";
                        "work/vocab15000.dec"; "train.enc.ids20000";
                        "train.dec.ids15000"; "test.enc.ids20000";
                        "test.dec.ids15000"])) [] in
  ∃ w' : world,
    prepare_my_data (λ _ _, []) "work" "train.enc" "train.dec" "test.enc"
                    "test.dec" 20000 15000 None w =
      (inr ("train.enc.ids20000", "train.dec.ids15000", "test.enc.ids20000",
            "test.dec.ids15000", "work/vocab20000.enc", "work/vocab15000.dec"),
       w') ∧
    files w' = files w.
Proof.
  intros w.
  apply (prepare_my_data_done (λ _ _, []) "work" "train.enc" "train.dec"
           "test.enc" "test.dec" 20000 15000 None w).
  repeat constructor; vm_compute; eauto.
Defined.

(** ** The whole of [create_my_dataset] on the file system *)

Lemma files_only_ret {A} (a : A) : files_only (ret a).
Proof. by intros w w0 Hw. Qed.

Lemma files_only_raise {A} (e : exn) : files_only (raise (A:=A) e).
Proof. by intros w w0 Hw. Qed.

Lemma files_only_bind {A B} (c : M world A) (k : A → M world B) :
  files_only c → (∀ a, files_only (k a)) → files_only (bind c k).
Proof.
  intros Hc Hk w w0 Hw. unfold bind.
  destruct (Hc w w0 Hw) as [Hr Hf].
  destruct (c w) as [[e|a] w1], (c w0) as [[e0|a0] w01];
    cbn [fst snd] in *; simplify_eq; first [by split | by apply Hk].
Qed.

Lemma files_only_log (e : event) : files_only (log e).
Proof. by intros w w0 Hw. Qed.

Lemma files_only_gets {A} (f : gmap string bytes → A) :
  files_only (gets (λ w, f (files w))).
Proof. intros w w0 Hw. unfold gets. cbn [fst snd]. by rewrite Hw. Qed.

Lemma files_only_modify (f : gmap string bytes → gmap string bytes) :
  files_only (modify (λ w, World (f (files w)) (trace w))).
Proof. intros w w0 Hw. unfold modify. cbn [fst snd files]. by rewrite Hw. Qed.

Lemma files_only_for_each {A} (l : list A) (body : A → M world unit) :
  (∀ x, files_only (body x)) → files_only (for_each l body).
Proof.
  intros Hbody. induction l as [|x l IH]; cbn [for_each].
  - apply files_only_ret.
  - by apply files_only_bind.
Qed.

Lemma files_only_local {T A} (init : T) (c : M T A) :
  files_only (with_local (S:=world) init (inner c)).
Proof.
  intros w w0 Hw. unfold with_local, inner. cbn [fst snd].
  by destruct (c init) as [[e|a] t].
Qed.

Lemma files_only_path_exists path : files_only (FS.path_exists path).
Proof.
  intros w w0 Hw. rewrite !path_exists_run. cbn [fst snd files].
  by rewrite Hw.
Qed.

Lemma files_only_read missing path : files_only (FS.read missing path).
Proof.
  apply files_only_bind; [apply files_only_log|intros _].
  apply files_only_bind; [apply (files_only_gets (λ fs, fs !! path))|].
  intros [c|]; [apply files_only_ret|apply files_only_raise].
Qed.

Lemma files_only_write path content : files_only (FS.write path content).
Proof.
  apply files_only_bind; [apply files_only_log|intros _].
  apply (files_only_modify (λ fs, <[path := content]> fs)).
Qed.

Lemma files_only_remove path : files_only (FS.remove path).
Proof.
  apply files_only_bind; [apply files_only_log|intros _].
  apply files_only_bind; [apply (files_only_gets (λ fs, fs !! path))|].
  intros [c|]; [|apply files_only_raise].
  apply (files_only_modify (λ fs, delete path fs)).
Qed.

Lemma files_only_rm_one_way_conv
    (glob : gmap string bytes → string → list string) dialogs_path :
  files_only (rm_one_way_conv glob dialogs_path).
Proof.
  apply files_only_bind; [apply files_only_path_exists|].
  intros [|]; cbn [negb]; [apply files_only_ret|].
  apply files_only_bind.
  { apply files_only_bind; [apply files_only_log|intros _].
    apply (files_only_gets (λ fs, glob fs _)). }
  intros tsvs. apply files_only_bind; [|intros _; apply files_only_write].
  apply files_only_for_each. intros tsv.
  apply files_only_bind.
  { apply files_only_bind; [apply files_only_read|intros c].
    apply files_only_ret. }
  intros lines. apply files_only_bind; [apply files_only_local|].
  intros r. case_decide; [apply files_only_remove|apply files_only_ret].
Qed.

Lemma both_exist_run (train_enc train_dec : string) (w : world) :
  ∃ checks : list event, ∀ (A : Type) (k : bool → M world A),
    (e <- FS.path_exists train_enc ;;
     e <- (if e then FS.path_exists train_dec else ret false) ;;
     k e) w =
    k (bool_decide (is_Some (files w !! train_enc) ∧
                    is_Some (files w !! train_dec)))
      (World (files w) (trace w ++ checks)).
Proof.
  destruct (decide (is_Some (files w !! train_enc))) as [He|He].
  - exists [EvExists train_enc; EvExists train_dec]. intros A k.
    erewrite bind_run by apply path_exists_run.
    rewrite (bool_decide_true _ He).
    erewrite bind_run by apply path_exists_run. cbn [files trace].
    rewrite <- app_assoc. f_equal.
    apply bool_decide_ext. naive_solver.
  - exists [EvExists train_enc]. intros A k.
    erewrite bind_run by apply path_exists_run.
    rewrite (bool_decide_false _ He).
    erewrite bind_run by reflexivity. f_equal.
    rewrite bool_decide_false; [done|naive_solver].
Qed.

Lemma with_local_run {S T A} (init : T) (c : M (S * T) A)
    (on_error : T → M S unit) s a s' t :
  c (s, init) = (inr a, (s', t)) →
  with_local_or init c on_error s = (inr (a, t), s').
Proof. intros H. unfold with_local_or. by rewrite H. Qed.

(** X26. The whole of [create_my_dataset], when a training file is
    missing, the pass of [rm_one_way_conv] goes through and the dialogue
    files that [glob] then lists are well-formed files of two speakers,
    none of them one of the two temporary files, the six paths being
    different files: it ends without an error; the four output files
    hold the lines of the exchanges of the dialogue files, in the order
    of [glob] and of each file, the training files the first
    [int(total_line*(3/4))] of them and the test files the others, the
    encoder files the first turns and the decoder files the second
    turns; the two temporary files are gone; every other file is as the
    pass of [rm_one_way_conv] left it. *)
Theorem create_my_dataset_files
    (glob : gmap string bytes → string → list string)
    (dialogs_path train_enc train_dec test_enc test_dec : string)
    (w w1 : world) :
  let enc_tmp := train_enc +:+ ".tmp" in
  let dec_tmp := train_dec +:+ ".tmp" in
  let tsvs := glob (files w1) (dialogs_path +:+ "/**/*.tsv") in
  let exs := tsvs ≫= exchanges_at w1 in
  let split := split_of (length exs) in
  ¬ (is_Some (files w !! train_enc) ∧ is_Some (files w !! train_dec)) →
  rm_one_way_conv glob dialogs_path w = (inr tt, w1) →
  Forall (λ tsv, ∃ content,
            files w1 !! tsv = Some content ∧ well_formed content) tsvs →
  enc_tmp ∉ tsvs →
  dec_tmp ∉ tsvs →
  NoDup [train_enc; test_enc; train_dec; test_dec; enc_tmp; dec_tmp] →
  ∃ w' : world,
    create_my_dataset glob dialogs_path train_enc train_dec
                      test_enc test_dec w = (inr tt, w') ∧
    files w' !! train_enc = Some (concat (enc_lines (take split exs))) ∧
    files w' !! test_enc = Some (concat (enc_lines (drop split exs))) ∧
    files w' !! train_dec = Some (concat (dec_lines (take split exs))) ∧
    files w' !! test_dec = Some (concat (dec_lines (drop split exs))) ∧
    files w' !! enc_tmp = None ∧
    files w' !! dec_tmp = None ∧
    ∀ path,
      path ∉ [train_enc; test_enc; train_dec; test_dec; enc_tmp; dec_tmp] →
      files w' !! path = files w1 !! path.
Proof.
  intros enc_tmp dec_tmp tsvs exs split Hmiss Hrm Hwf Hetmp Hdtmp Hdup.
  unfold create_my_dataset.
  destruct (both_exist_run train_enc train_dec w) as [checks ->].
  rewrite (bool_decide_false _ Hmiss).
  set (wc := World (files w) (trace w ++ checks)).
  destruct (files_only_rm_one_way_conv glob dialogs_path wc w eq_refl)
    as [Hr Hf].
  rewrite Hrm in Hr, Hf. cbn [fst snd] in Hr, Hf.
  destruct (rm_one_way_conv glob dialogs_path wc) as [r w1c] eqn:Hrmc.
  cbn [fst snd] in Hr, Hf. subst r.
  erewrite bind_run by exact Hrmc.
  erewrite bind_run by apply glob_run.
  rewrite Hf. fold tsvs. fold enc_tmp dec_tmp.
  erewrite bind_run by apply write_run.
  erewrite bind_run by apply write_run.
  cbn [files trace].
  match goal with
  | |- context [World (<[dec_tmp := []]> ?fs) ?tr] =>
      set (w2 := World (<[dec_tmp := []]> fs) tr)
  end.
  assert (Forall (λ tsv, ∃ content,
            files w2 !! tsv = Some content ∧ well_formed content) tsvs)
    as Hwf2.
  { apply Forall_forall. intros tsv Htsv.
    rewrite Forall_forall in Hwf. destruct (Hwf tsv Htsv) as (c & Hc & Hwfc).
    exists c. split; [|done]. cbn [files w2].
    by rewrite !lookup_insert_ne by (intros Heq; by rewrite <- Heq in Htsv). }
  assert (tsvs ≫= exchanges_at w2 = exs) as Hexs.
  { unfold exs. apply Forall_bind_ext, Forall_forall. intros tsv Htsv.
    unfold exchanges_at. cbn [files w2].
    by rewrite !lookup_insert_ne by (intros Heq; by rewrite <- Heq in Htsv). }
  destruct (parse_files_run w2 tsvs Hwf2 w2 loop_init eq_refl)
    as (st & Hrun & Henc & Hdec & Htot).
  rewrite Hexs in Henc, Hdec, Htot. cbn in Henc, Hdec, Htot.
  erewrite bind_run by (apply with_local_run; exact Hrun).
  cbv zeta. cbn [snd].
  erewrite bind_run by apply write_run.
  erewrite bind_run by apply write_run.
  pose proof (exchanges_at_no_NL w1 tsvs) as Hnl. fold exs in Hnl.
  destruct (enc_lines_read exs Hnl) as [Hre Hrd].
  rewrite Henc, Hdec, Hre, Hrd, Htot, !split_lines_take_drop, Nat.sub_0_r.
  fold split.
  erewrite bind_run by apply write_run.
  erewrite bind_run by apply write_run.
  erewrite bind_run by apply write_run.
  erewrite bind_run by apply write_run.
  cbn [files trace w2].
  apply NoDup_cons in Hdup as [H1 Hdup]. apply NoDup_cons in Hdup as [H2 Hdup].
  apply NoDup_cons in Hdup as [H3 Hdup]. apply NoDup_cons in Hdup as [H4 Hdup].
  apply NoDup_cons in Hdup as [H5 _].
  repeat (apply not_elem_of_cons in H1 as [? H1]).
  repeat (apply not_elem_of_cons in H2 as [? H2]).
  repeat (apply not_elem_of_cons in H3 as [? H3]).
  repeat (apply not_elem_of_cons in H4 as [? H4]).
  repeat (apply not_elem_of_cons in H5 as [? H5]).
  erewrite bind_run; cycle 1.
  { eapply remove_run. cbn [files].
    rewrite !lookup_insert_ne by done. apply lookup_insert_eq. }
  erewrite remove_run; cycle 1.
  { cbn [files]. rewrite lookup_delete_ne by done.
    rewrite !lookup_insert_ne by done. apply lookup_insert_eq. }
  eexists. split; [reflexivity|]. cbn [files].
  unfold enc_lines, dec_lines. rewrite <- !fmap_take, <- !fmap_drop.
  split_and!.
  - rewrite !lookup_delete_ne by done.
    rewrite !lookup_insert_ne by done. apply lookup_insert_eq.
  - rewrite !lookup_delete_ne by done.
    rewrite !lookup_insert_ne by done. apply lookup_insert_eq.
  - rewrite !lookup_delete_ne by done.
    rewrite !lookup_insert_ne by done. apply lookup_insert_eq.
  - rewrite !lookup_delete_ne by done. apply lookup_insert_eq.
  - rewrite lookup_delete_ne by done. apply lookup_delete_eq.
  - apply lookup_delete_eq.
  - intros path Hpath.
    repeat (apply not_elem_of_cons in Hpath as [? Hpath]).
    rewrite !lookup_delete_ne by done.
    by rewrite !lookup_insert_ne by done.
Qed.

Lemma create_my_dataset_files_witness :
  let a := tsv_row ["1"; "A"; "B"; "hi"] ++ tsv_row ["2"; "B"; "A"; "yo"] ++
           tsv_row ["3"; "A"; "B"; "how are"] ++ tsv_row ["4"; "A"; "B"; "you"] ++
           tsv_row ["5"; "B"; "A"; "fine"] in
  let e := tsv_row ["1"; "E"; ""; "anyone"] ++ tsv_row ["2"; "E"; ""; "there"] in
  let w := World {[ "d/1/a.tsv" := a; "d/2/e.tsv" := e ]} [] in
  let glob (fs : gmap string bytes) (pattern : string) :=
    filter (λ path, is_Some (fs !! path)) ["d/1/a.tsv"; "d/2/e.tsv"] in
  let w1 := (rm_one_way_conv glob "d" w).2 in
  let enc_tmp := "train.enc" +:+ ".tmp" in
  let dec_tmp := "train.dec" +:+ ".tmp" in
  let tsvs := glob (files w1) ("d" +:+ "/**/*.tsv") in
  let exs := tsvs ≫= exchanges_at w1 in
  let split := split_of (length exs) in
  (tsvs = ["d/1/a.tsv"] ∧
   exs = [(b "hi", b "yo"); (b "how are you", b "fine")] ∧ split = 1) ∧
  ∃ w' : world,
    create_my_dataset glob "d" "train.enc" "train.dec"
                      "test.enc" "test.dec" w = (inr tt, w') ∧
    files w' !! "train.enc" = Some (concat (enc_lines (take split exs))) ∧
    files w' !! "test.enc" = Some (concat (enc_lines (drop split exs))) ∧
    files w' !! "train.dec" = Some (concat (dec_lines (take split exs))) ∧
    files w' !! "test.dec" = Some (concat (dec_lines (drop split exs))) ∧
    files w' !! enc_tmp = None ∧
    files w' !! dec_tmp = None ∧
    ∀ path,
      path ∉ ["train.enc"; "test.enc"; "train.dec"; "test.dec";
              enc_tmp; dec_tmp] →
      files w' !! path = files w1 !! path.
Proof.
  intros a e w glob w1 enc_tmp dec_tmp tsvs exs split.
  split; [by vm_compute|].
  apply (create_my_dataset_files glob "d" "train.enc" "train.dec"
           "test.enc" "test.dec" w w1).
  - vm_compute. by intros [[? [=]] _].
  - by vm_compute.
  - vm_compute. repeat constructor.
    eexists. split; [reflexivity|]. vm_compute.
    split_and!; [lia|repeat constructor|].
    apply Exists_cons_hd. discriminate.
  - vm_compute. set_solver.
  - vm_compute. set_solver.
  - vm_compute. repeat (apply NoDup_cons; split; [set_solver|]).
    apply NoDup_nil_2.
Defined.

(** ** The ids of the four files of the data set *)



